(** * PR standards checker: the review reconciliation core

    A shallow embedding of [scripts/check-pr-standards.js]: the diff anchor
    resolver ([parseDiffForValidLines]), the thread matcher
    ([findMatchingThread]), the analysis reader ([parseAnalysisJSON],
    [countIssues]), the review builder ([buildReviewBody], [postReview]) and
    the driver ([main]).

    Conventions.
    - A JavaScript string is a [string]: the bytes of its UTF-8 encoding.
    - A JavaScript number that holds a line number, a count or a database id
      is a [Z]. The code computes on doubles, which are exact up to 2^53 and
      round beyond; a statement on the value of a number read from a diff
      carries the bound under which the two agree.
    - The model's answer is read at the types of its schema ([AnalysisData]):
      a member is absent ([None]) or has the type the schema gives it. An
      absent member is [undefined]; a [null] member behaves alike wherever the
      code only tests it, which is everywhere but the one place a body is
      printed. Answers with members of other types are not represented.
    - A thrown exception is [Throw msg]. Remote calls ([gh ...]) are recorded
      in the order they are attempted as a list of [Effect]s. [check] and
      [main] are the run in which every call succeeds; [checkW] and [mainW]
      are the same code in a world where calls may fail. *)

From Stdlib Require Import ZArith List String Ascii Bool Lia DecimalString DecimalPos Sorted.
From stdpp Require Import base option gmap strings list.

Local Open Scope string_scope.
Local Open Scope list_scope.
Local Open Scope Z_scope.

(** ** Results of code that may throw *)

Inductive result (A : Type) : Type :=
| Ok (a : A)
| Throw (msg : string).
Arguments Ok {A} a.
Arguments Throw {A} msg.

Definition bind {A B : Type} (r : result A) (k : A -> result B) : result B :=
  match r with
  | Ok a => k a
  | Throw m => Throw m
  end.

Notation "'try!' x := r 'in' k" := (bind r (fun x => k))
  (at level 10, x name, r at level 100, k at level 200).

(** ** String primitives of the host language *)

Module Js.

Definition LF : ascii := ascii_of_nat 10.
Definition CR : ascii := ascii_of_nat 13.

(** [s.startsWith(p)] *)
Definition startsWith (s p : string) : bool := String.prefix p s.

(** [s.includes(sub)] *)
Fixpoint includes (s sub : string) : bool :=
  String.prefix sub s ||
  match s with
  | EmptyString => false
  | String _ r => includes r sub
  end.

(** [s.split('\n')]: never empty, the pieces hold no line feed. *)
Fixpoint split_lines (s : string) : list string :=
  match s with
  | EmptyString => [EmptyString]
  | String c r =>
      if Ascii.eqb c LF then EmptyString :: split_lines r
      else match split_lines r with
           | l :: ls => String c l :: ls
           | [] => [String c EmptyString]
           end
  end.

(** Truthiness of an optional string: [undefined], [null] and [''] are
    falsy. *)
Definition truthy (o : option string) : bool :=
  match o with
  | Some s => negb (String.eqb s "")
  | None => false
  end.

(** [a || b] on optional strings whose right operand is a string. *)
Definition orElse (o : option string) (d : string) : string :=
  match o with
  | Some s => if String.eqb s "" then d else s
  | None => d
  end.

(** [`${n}`] for an integer. *)
Definition numToString (n : Z) : string := NilZero.string_of_int (Z.to_int n).

(** [`${o}`] for an optional string: [undefined] prints as such. *)
Definition tpl (o : option string) : string :=
  match o with
  | Some s => s
  | None => "undefined"
  end.

Definition isDigit (c : ascii) : bool :=
  let n := nat_of_ascii c in (48 <=? n)%nat && (n <=? 57)%nat.
Definition isLowerAZ (c : ascii) : bool :=
  let n := nat_of_ascii c in (97 <=? n)%nat && (n <=? 122)%nat.
Definition isUpperAZ (c : ascii) : bool :=
  let n := nat_of_ascii c in (65 <=? n)%nat && (n <=? 90)%nat.

(** The regular-expression dot: any character but a line terminator
    (LF, CR, U+2028 = E2 80 A8, U+2029 = E2 80 A9). *)
Fixpoint hasLineTerminator (s : string) : bool :=
  match s with
  | EmptyString => false
  | String c r =>
      Ascii.eqb c LF || Ascii.eqb c CR ||
      (Ascii.eqb c (ascii_of_nat 226) &&
       match r with
       | String c1 (String c2 _) =>
           Ascii.eqb c1 (ascii_of_nat 128) &&
           (Ascii.eqb c2 (ascii_of_nat 168) || Ascii.eqb c2 (ascii_of_nat 169))
       | _ => false
       end) ||
      hasLineTerminator r
  end.

(** The longest prefix of decimal digits, and what follows it. *)
Fixpoint takeDigits (s : string) : string * string :=
  match s with
  | EmptyString => (EmptyString, EmptyString)
  | String c r =>
      if isDigit c then let '(d, r') := takeDigits r in (String c d, r')
      else (EmptyString, s)
  end.

(** [parseInt(d, 10)] on a string of decimal digits: the number the digits
    write. (The code's result is the nearest double, the same number up to
    2^53.) *)
Definition parseInt (d : string) : Z :=
  fold_left (fun acc c => 10 * acc + (Z.of_nat (nat_of_ascii c) - 48))
            (list_ascii_of_string d) 0.

(** Drop [p] from the front of [s], when it is there. *)
Fixpoint dropPrefix (p s : string) : option string :=
  match p with
  | EmptyString => Some s
  | String a p' =>
      match s with
      | String b s' => if Ascii.eqb a b then dropPrefix p' s' else None
      | EmptyString => None
      end
  end.

(** The first occurrence of [pat] in [s]: what is before it and what is
    after it. *)
Fixpoint splitAt (pat s : string) : option (string * string) :=
  match dropPrefix pat s with
  | Some rest => Some (EmptyString, rest)
  | None =>
      match s with
      | EmptyString => None
      | String c r =>
          match splitAt pat r with
          | Some (pre, post) => Some (String c pre, post)
          | None => None
          end
      end
  end.

(** [s.replace(pat, rep)] with a string pattern and a replacement free of
    [$]: only the first occurrence is replaced. *)
Definition replaceFirst (s pat rep : string) : string :=
  match splitAt pat s with
  | Some (pre, post) => pre +:+ rep +:+ post
  | None => s
  end.

End Js.

(** ** Diff anchor resolver *)

(** [line.match(/^\+\+\+ b\/(.+)$/)]: the captured path. Without the
    multiline flag [$] is the end of the string, so a line that holds a line
    terminator (a CR of a CRLF diff, say) does not match. *)
Definition fileMatch (line : string) : option string :=
  match Js.dropPrefix "+++ b/" line with
  | Some p =>
      if String.eqb p "" then None
      else if Js.hasLineTerminator p then None
      else Some p
  | None => None
  end.

(** [(?:,\d+)?]: skipped when no comma and digit follow. *)
Definition optCommaDigits (s : string) : string :=
  match s with
  | String c r =>
      if Ascii.eqb c "," then
        match Js.takeDigits r with
        | (EmptyString, _) => s
        | (_, r') => r'
        end
      else s
  | EmptyString => s
  end.

(** [\d+]: at least one digit. *)
Definition digits1 (s : string) : option (string * string) :=
  match Js.takeDigits s with
  | (EmptyString, _) => None
  | (d, r) => Some (d, r)
  end.

(** [line.match(/^@@ -\d+(?:,\d+)? \+(\d+)(?:,\d+)? @@/)]: the captured
    new-side start, as written. *)
Definition hunkMatch (line : string) : option string :=
  r0 ← Js.dropPrefix "@@ -" line;
  '(_, r1) ← digits1 r0;
  r2 ← Js.dropPrefix " +" (optCommaDigits r1);
  '(d, r3) ← digits1 r2;
  _ ← Js.dropPrefix " @@" (optCommaDigits r3);
  Some d.

(** The loop variables of [parseDiffForValidLines]. *)
Record ParseState : Type := mkParseState {
  validLines : gmap string (gset Z);
  currentFile : option string;
  newLineNum : Z
}.

Definition initState : ParseState :=
  {| validLines := ∅; currentFile := None; newLineNum := 0 |}.

(** [newLineNum++; validLines.get(currentFile).add(newLineNum)]: a missing
    entry would make [.add] throw. (The increment is exact while the counter
    stays below 2^53.) *)
Definition addAnchor (st : ParseState) : result ParseState :=
  let n := newLineNum st + 1 in
  match currentFile st with
  | Some f =>
      match validLines st !! f with
      | Some s =>
          Ok {| validLines := <[f := {[n]} ∪ s]> (validLines st);
                currentFile := currentFile st;
                newLineNum := n |}
      | None => Throw "Cannot read properties of undefined (reading 'add')"
      end
  | None => Throw "Cannot read properties of undefined (reading 'add')"
  end.

(** One iteration of the loop over the lines of the diff. *)
Definition parseLine (st : ParseState) (line : string) : result ParseState :=
  match fileMatch line with
  | Some f =>
      Ok {| validLines :=
              match validLines st !! f with
              | Some _ => validLines st
              | None => <[f := ∅]> (validLines st)
              end;
            currentFile := Some f;
            newLineNum := newLineNum st |}
  | None =>
      match hunkMatch line with
      | Some d =>
          Ok {| validLines := validLines st;
                currentFile := currentFile st;
                newLineNum := Js.parseInt d - 1 |}
      | None =>
          if negb (Js.truthy (currentFile st)) then Ok st
          else if Js.startsWith line "+" && negb (Js.startsWith line "+++")
          then addAnchor st
          else if Js.startsWith line " " then addAnchor st
          else Ok st
      end
  end.

Fixpoint parseLines (st : ParseState) (lines : list string) : result ParseState :=
  match lines with
  | [] => Ok st
  | l :: ls => try! st' := parseLine st l in parseLines st' ls
  end.

Definition parseDiffForValidLines (diff : string) : result (gmap string (gset Z)) :=
  try! st := parseLines initState (Js.split_lines diff) in Ok (validLines st).

(** [validLines.get(path)] followed by [fileLines && fileLines.has(line)]. *)
Definition isValidAnchor (vl : gmap string (gset Z)) (path : string) (line : Z) : bool :=
  match vl !! path with
  | Some s => bool_decide (line ∈ s)
  | None => false
  end.

(** ** Findings, threads and the parsed analysis *)

Module Finding.
(** One entry of [findings], [persisting] or [new_findings]. *)
Record t : Type := mk {
  priority : string;
  title : string;
  path : string;
  line : Z;
  body : option string;
  bump_message : option string
}.
End Finding.

Module Thread.
Record reply : Type := mkReply {
  author : string;
  replyBody : string;
  createdAt : string
}.

(** One element of the array returned by [getReviewThreads]: an open
    thread whose first comment is the checker's. *)
Record t : Type := mk {
  threadId : string;
  firstCommentId : Z;
  path : string;
  line : option Z;
  botTitle : string;
  botBody : string;
  userReplies : list reply
}.
End Thread.

(** The object read from the model's JSON block. Every member is optional
    ("Omit empty arrays from the output"). *)
Record AnalysisData : Type := mkAnalysisData {
  status : option string;
  summary : option string;
  findings : option (list Finding.t);
  persisting : option (list Finding.t);
  new_findings : option (list Finding.t);
  resolved : option (list string);
  accepted_explanations : option (list string);
  general_notes : option (list string)
}.

(** [arr || []] *)
Definition orNil {A : Type} (o : option (list A)) : list A := default [] o.

(** [arr?.length] used as a condition: an absent or empty array is falsy. *)
Definition hasItems {A : Type} (o : option (list A)) : bool :=
  match o with
  | Some (_ :: _) => true
  | _ => false
  end.

(** ** Thread matcher *)

(** [s.toLowerCase()], as far as the following [replace] can tell: besides
    A-Z the only characters whose lower-case form holds a character of
    [a-z0-9] are U+0130 (C4 B0, lower-cased to "i" and U+0307) and the Kelvin
    sign U+212A (E2 84 AA, lower-cased to "k"). Any other character outside
    ASCII stays outside ASCII and is left as it is here. *)
Fixpoint toLowerCase (s : string) : string :=
  match s with
  | EmptyString => EmptyString
  | String c r =>
      if Js.isUpperAZ c
      then String (ascii_of_nat (nat_of_ascii c + 32)) (toLowerCase r)
      else
        match r with
        | String c1 r1 =>
            if Ascii.eqb c (ascii_of_nat 196) && Ascii.eqb c1 (ascii_of_nat 176)
            then String "i" (String (ascii_of_nat 204) (String (ascii_of_nat 135)
                   (toLowerCase r1)))
            else
              match r1 with
              | String c2 r2 =>
                  if Ascii.eqb c (ascii_of_nat 226) && Ascii.eqb c1 (ascii_of_nat 132)
                     && Ascii.eqb c2 (ascii_of_nat 170)
                  then String "k" (toLowerCase r2)
                  else String c (toLowerCase r)
              | EmptyString => String c (toLowerCase r)
              end
        | EmptyString => String c (toLowerCase r)
        end
  end.

(** [s.replace(/[^a-z0-9]/g, '')] *)
Fixpoint stripNonAlnum (s : string) : string :=
  match s with
  | EmptyString => EmptyString
  | String c r =>
      if Js.isLowerAZ c || Js.isDigit c then String c (stripNonAlnum r)
      else stripNonAlnum r
  end.

(** [const norm = s => s.toLowerCase().replace(/[^a-z0-9]/g, '')] *)
Definition norm (s : string) : string := stripNonAlnum (toLowerCase s).

(** The three predicates handed to [threads.find]. *)
Definition exactMatch (normTitle : string) (t : Thread.t) : bool :=
  String.eqb (norm (Thread.botTitle t)) normTitle.

Definition substringMatch (normTitle : string) (t : Thread.t) : bool :=
  let nt := norm (Thread.botTitle t) in
  Js.includes nt normTitle || Js.includes normTitle nt.

Definition pathMatch (filePath : string) (t : Thread.t) : bool :=
  String.eqb (Thread.path t) filePath.

Definition findMatchingThread (threads : list Thread.t) (title : string)
    (filePath : option string) : option Thread.t :=
  let normTitle := norm title in
  match List.find (exactMatch normTitle) threads with
  | Some t => Some t
  | None =>
      match List.find (substringMatch normTitle) threads with
      | Some t => Some t
      | None =>
          match filePath with
          | Some fp =>
              if Js.truthy filePath then List.find (pathMatch fp) threads
              else None
          | None => None
          end
      end
  end.

(** ** Counting *)

Record IssueCounts : Type := mkIssueCounts {
  highPriorityCount : nat;
  mediumPriorityCount : nat;
  lowPriorityCount : nat;
  totalIssues : nat;
  shouldBlock : bool
}.

Definition hasPriority (p : string) (f : Finding.t) : bool :=
  String.eqb (Finding.priority f) p.

(** The array [all] of [countIssues]. *)
Definition allFindings (data : AnalysisData) : list Finding.t :=
  orNil (findings data) ++ orNil (persisting data) ++ orNil (new_findings data).

Definition countIssues (data : AnalysisData) : IssueCounts :=
  let all := allFindings data in
  {| highPriorityCount := length (List.filter (hasPriority "must_fix") all);
     mediumPriorityCount := length (List.filter (hasPriority "other") all);
     lowPriorityCount := 0;
     totalIssues := length all;
     shouldBlock :=
       match status data with
       | Some s => String.eqb s "BLOCK_MERGE"
       | None => false
       end |}.

(** ** The review body *)

Definition nl : string := String Js.LF EmptyString.

(** [p === 'must_fix' ? ... : ...], also used for the inline and bump icons. *)
Definition priorityIcon (p : string) : string :=
  if String.eqb p "must_fix" then "🔴" else "🟡".

(** [(`path:line`)] *)
Definition location (f : Finding.t) : string :=
  "(`" +:+ Finding.path f +:+ ":" +:+ Js.numToString (Finding.line f) +:+ "`)".

Definition concatMap {A : Type} (g : A -> string) (l : list A) : string :=
  fold_right (fun a acc => g a +:+ acc) "" l.

Definition newIssueLine (f : Finding.t) : string :=
  priorityIcon (Finding.priority f) +:+ " **" +:+ Finding.title f +:+ "** "
  +:+ location f +:+ nl.

Definition bulletLine (r : string) : string := "- " +:+ r +:+ nl.

Definition groupLine (f : Finding.t) : string :=
  "- **" +:+ Finding.title f +:+ "** " +:+ location f +:+ nl.

(** One pass of the loop over [['Must Fix', ...], ['Other', ...]]. *)
Definition groupSection (data : AnalysisData) (label icon p : string) : string :=
  let group := List.filter (hasPriority p) (orNil (findings data)) in
  match group with
  | [] => ""
  | _ :: _ => "## " +:+ icon +:+ " " +:+ label +:+ nl +:+ nl
              +:+ concatMap groupLine group +:+ nl
  end.

(** The entry of one finding under "Additional Findings": heading, then
    [f.body || f.title]. *)
Definition unplaceableEntry (f : Finding.t) : string :=
  "### " +:+ priorityIcon (Finding.priority f) +:+ " " +:+ Finding.title f +:+ " "
  +:+ location f +:+ nl +:+ nl
  +:+ Js.orElse (Finding.body f) (Finding.title f) +:+ nl +:+ nl.

Definition unplaceableSection (unplaceable : list Finding.t) : string :=
  match unplaceable with
  | [] => ""
  | _ :: _ => "## ⚠️ Additional Findings (lines not in diff)" +:+ nl +:+ nl
              +:+ concatMap unplaceableEntry unplaceable
  end.

(** What a template prints for the member [s] that an object literal
    inherits from [Object.prototype]: the prototype itself for [__proto__],
    a built-in function for the others (as Node prints them). *)
Definition inheritedMember (s : string) : option string :=
  if String.eqb s "__proto__" then Some "[object Object]"
  else if String.eqb s "constructor" then Some "function Object() { [native code] }"
  else if existsb (String.eqb s)
            ["__defineGetter__"; "__defineSetter__"; "hasOwnProperty";
             "__lookupGetter__"; "__lookupSetter__"; "isPrototypeOf";
             "propertyIsEnumerable"; "toString"; "valueOf"; "toLocaleString"]
  then Some ("function " +:+ s +:+ "() { [native code] }")
  else None.

(** [{ BLOCK_MERGE: '🚫', APPROVED: '✅' }[data.status] || '❓']. The lookup
    also finds the members the literal inherits, which are all truthy. *)
Definition statusEmoji (st : option string) : string :=
  match st with
  | Some s =>
      if String.eqb s "BLOCK_MERGE" then "🚫"
      else if String.eqb s "APPROVED" then "✅"
      else match inheritedMember s with
           | Some member => member
           | None => "❓"
           end
  | None => "❓"
  end.

Definition reReviewSections (data : AnalysisData) : string :=
  let persistingCount := length (orNil (persisting data)) in
  (if (0 <? persistingCount)%nat
   then "> ⏳ **" +:+ Js.numToString (Z.of_nat persistingCount)
        +:+ " issue(s) from the previous review are still open** — see the existing inline comments above."
        +:+ nl +:+ nl
   else "")
  +:+ (if hasItems (new_findings data)
       then "## 🆕 New Issues" +:+ nl +:+ nl
            +:+ concatMap newIssueLine (orNil (new_findings data)) +:+ nl
       else "")
  +:+ (if hasItems (resolved data)
       then "## ✅ Resolved" +:+ nl +:+ nl
            +:+ concatMap bulletLine (orNil (resolved data)) +:+ nl
       else "")
  +:+ (if hasItems (accepted_explanations data)
       then "## 💬 Accepted Explanations" +:+ nl +:+ nl
            +:+ concatMap bulletLine (orNil (accepted_explanations data)) +:+ nl
       else "").

Definition firstReviewSections (data : AnalysisData) : string :=
  groupSection data "Must Fix" "🔴" "must_fix"
  +:+ groupSection data "Other" "🟡" "other".

Definition reviewFooter (data : AnalysisData) (modelId : string) : string :=
  "**Status:** " +:+ statusEmoji (status data) +:+ " "
  +:+ Js.replaceFirst (Js.orElse (status data) "UNKNOWN") "_" " " +:+ nl +:+ nl
  +:+ "> Detailed findings are posted as inline comments on the relevant lines."
  +:+ nl +:+ nl
  +:+ "*🤖 Automated review using AI. Model: " +:+ modelId
  +:+ ". Human review still required for final approval.*".

Definition buildReviewBody (data : AnalysisData) (isReReview : bool)
    (modelId : string) (unplaceable : list Finding.t) : string :=
  (if isReReview then "# 🔍 PR Standards Check (Re-review)" +:+ nl +:+ nl
   else "# 🔍 PR Standards Check" +:+ nl +:+ nl)
  +:+ (if Js.truthy (summary data) then Js.tpl (summary data) +:+ nl +:+ nl else "")
  +:+ (if isReReview then reReviewSections data else firstReviewSections data)
  +:+ unplaceableSection unplaceable
  +:+ reviewFooter data modelId.

(** ** Remote calls *)

Record InlineComment : Type := mkInlineComment {
  ic_path : string;
  ic_line : Z;
  ic_side : string;
  ic_body : string
}.

Inductive Effect : Type :=
| PostReview (body : string) (event : string) (comments : list InlineComment)
    (* POST repos/.../pulls/N/reviews *)
| ReplyToReviewComment (commentId : Z) (body : string)
    (* POST repos/.../pulls/N/comments/ID/replies *)
| ResolveReviewThread (threadId : string)
    (* mutation resolveReviewThread *)
| PostComment (body : string)
    (* gh pr comment *)
| AddNoncompliantLabel
| RemoveLabel.

(** What a piece of the run has done: the calls issued so far, and its
    value or the exception that stopped it. *)
Definition Run (A : Type) : Type := (list Effect * result A)%type.

Definition ret {A : Type} (a : A) : Run A := ([], Ok a).
Definition emit (e : Effect) : Run unit := ([e], Ok tt).
Definition throw {A : Type} (msg : string) : Run A := ([], Throw msg).
Definition lift {A : Type} (r : result A) : Run A := ([], r).

Definition andThen {A B : Type} (m : Run A) (k : A -> Run B) : Run B :=
  match m with
  | (es, Ok a) => let '(es', r) := k a in (es ++ es', r)
  | (es, Throw msg) => (es, Throw msg)
  end.

Notation "'run!' x := m 'in' k" := (andThen m (fun x => k))
  (at level 10, x name, m at level 100, k at level 200).
Notation "m ;;; k" := (andThen m (fun _ => k))
  (at level 100, k at level 200, right associativity).

(** All of a list of calls, in order. *)
Definition emitAll (es : list Effect) : Run unit := (es, Ok tt).

(** ** Posting the review *)

(** The object pushed on [inlineComments]. *)
Definition inlineCommentOf (f : Finding.t) : InlineComment :=
  {| ic_path := Finding.path f;
     ic_line := Finding.line f;
     ic_side := "RIGHT";
     ic_body := priorityIcon (Finding.priority f) +:+ " **" +:+ Finding.title f
                +:+ "**" +:+ nl +:+ nl +:+ Js.tpl (Finding.body f) |}.

(** The loop that fills [inlineComments] and [unplaceable]. *)
Fixpoint placeFindings (vl : gmap string (gset Z)) (fs : list Finding.t)
    (inlineComments : list InlineComment) (unplaceable : list Finding.t)
  : list InlineComment * list Finding.t :=
  match fs with
  | [] => (inlineComments, unplaceable)
  | f :: fs' =>
      if isValidAnchor vl (Finding.path f) (Finding.line f)
      then placeFindings vl fs' (inlineComments ++ [inlineCommentOf f]) unplaceable
      else placeFindings vl fs' inlineComments (unplaceable ++ [f])
  end.

Definition findingsForInline (data : AnalysisData) (isReReview : bool) : list Finding.t :=
  if isReReview then orNil (new_findings data) else orNil (findings data).

Definition bumpBody (f : Finding.t) : string :=
  if Js.truthy (Finding.bump_message f)
  then priorityIcon (Finding.priority f) +:+ " **Still open.** "
       +:+ Js.tpl (Finding.bump_message f)
  else priorityIcon (Finding.priority f)
       +:+ " **Still open.** This issue has not been resolved yet.".

(** One pass of the loop over [data.persisting]. *)
Definition bumpOne (threads : list Thread.t) (f : Finding.t) : list Effect :=
  match findMatchingThread threads (Finding.title f) (Some (Finding.path f)) with
  | Some t => [ReplyToReviewComment (Thread.firstCommentId t) (bumpBody f)]
  | None => []
  end.

(** One pass of the loop over [data.resolved]. *)
Definition resolveOne (threads : list Thread.t) (title : string) : list Effect :=
  match findMatchingThread threads title None with
  | Some t => [ResolveReviewThread (Thread.threadId t)]
  | None => []
  end.

(** One pass of the loop over [data.accepted_explanations]. *)
Definition acceptOne (threads : list Thread.t) (title : string) : list Effect :=
  match findMatchingThread threads title None with
  | Some t =>
      [ReplyToReviewComment (Thread.firstCommentId t)
         "✅ Explanation accepted. Resolving this comment.";
       ResolveReviewThread (Thread.threadId t)]
  | None => []
  end.

(** What follows the review on a re-review. *)
Definition threadUpdates (data : AnalysisData) (threads : list Thread.t) : list Effect :=
  flat_map (bumpOne threads) (orNil (persisting data))
  ++ flat_map (resolveOne threads) (orNil (resolved data))
  ++ flat_map (acceptOne threads) (orNil (accepted_explanations data)).

Definition postReview (data : AnalysisData) (diff modelId : string)
    (isReReview : bool) (reviewThreads : list Thread.t) : Run unit :=
  run! vl := lift (parseDiffForValidLines diff) in
  let '(inlineComments, unplaceable) :=
    placeFindings vl (findingsForInline data isReReview) [] [] in
  let reviewBody := buildReviewBody data isReReview modelId unplaceable in
  emit (PostReview reviewBody "COMMENT" inlineComments) ;;;
  if negb isReReview then ret tt
  else emitAll (threadUpdates data reviewThreads).

(** ** Conversation comments *)

(** [postComment(comment, modelId)] *)
Definition postComment (comment : string) (modelId : option string) : Run unit :=
  emit (PostComment
          (Js.replaceFirst comment "[Model ID will be shown]"
             (Js.orElse modelId "Unknown"))).

Definition aiFooter (modelId : string) : string :=
  "*🤖 Automated review using AI. Model: " +:+ modelId
  +:+ ". Human review still required for final approval.*".

Definition postGeneralNotes (notes : option (list string)) (modelId : string) : Run unit :=
  if negb (hasItems notes) then ret tt
  else postComment
         ("## 📋 PR Standards — General Notes" +:+ nl +:+ nl
          +:+ concatMap bulletLine (orNil notes)
          +:+ nl +:+ aiFooter modelId)
         None.

Definition postSuccessComment (prNumber modelId : string) : Run unit :=
  postComment
    ("# ✅ PR Standards Check Passed" +:+ nl +:+ nl
     +:+ "PR #" +:+ prNumber +:+ " meets all team standards. No issues found."
     +:+ nl +:+ nl +:+ aiFooter modelId)
    None.

(** The notice posted from the [catch] of [main]. *)
Definition fallbackNotice (msg : string) : string :=
  "## PR Standards Check" +:+ nl +:+ nl
  +:+ "⚠️ The automated PR standards check encountered an error and could not complete."
  +:+ nl +:+ nl
  +:+ "Please ensure a human reviewer checks this PR against our [team standards](.github/PR_STANDARDS.md)."
  +:+ nl +:+ nl
  +:+ "Error: " +:+ msg.

(** ** Reading the model's answer and running the check *)

(** The environment of the process. *)
Record Env : Type := mkEnv {
  GITHUB_TOKEN : option string;
  BEDROCK_AWS_ACCESS_KEY_ID : option string;
  BEDROCK_AWS_SECRET_ACCESS_KEY : option string;
  FAILURE_MODE : string;
  PR_NUMBER : string
}.

(** What the gathering steps of [main] hand to the rest of it. *)
Record Context : Type := mkContext {
  reviewThreads : list Thread.t;
  modelId : string;
  diff : string;
  rawAnalysis : string
}.

(** How the process ends. *)
Record Outcome : Type := mkOutcome {
  effects : list Effect;
  exitCode : Z
}.

Section Analysis.

(** [JSON.parse], read at the types of the schema: [None] when it throws
    or yields [null], the object otherwise. *)
Variable JSON_parse : string -> option AnalysisData.

(** The capture of [/```json\n([\s\S]*?)\n```/]: what lies between the
    first opening fence and the first closing fence after it. *)
Definition jsonBlock (rawText : string) : option string :=
  '(_, rest) ← Js.splitAt ("```json" +:+ nl) rawText;
  '(block, _) ← Js.splitAt (nl +:+ "```") rest;
  Some block.

Definition parseAnalysisJSON (rawText : string) : option AnalysisData :=
  match jsonBlock rawText with
  | None => None
  | Some block => JSON_parse block
  end.

(** The [try] block of [main], from the parse on, when every remote call
    succeeds ([checkW] below is the block when calls may fail). The value is
    the exit code when the block itself ends the process or runs to its
    end. *)
Definition check (env : Env) (ctx : Context) : Run Z :=
  match parseAnalysisJSON (rawAnalysis ctx) with
  | None => throw "Analysis did not return a parseable JSON response"
  | Some analysisData =>
      let isReReview := (0 <? length (reviewThreads ctx))%nat in
      postReview analysisData (diff ctx) (modelId ctx) isReReview (reviewThreads ctx) ;;;
      (if hasItems (general_notes analysisData)
       then postGeneralNotes (general_notes analysisData) (modelId ctx)
       else ret tt) ;;;
      let c := countIssues analysisData in
      if (0 <? totalIssues c)%nat || shouldBlock c then
        if String.eqb (FAILURE_MODE env) "label"
        then emit AddNoncompliantLabel ;;; ret 0
        else ret 1
      else
        postSuccessComment (PR_NUMBER env) (modelId ctx) ;;;
        emit RemoveLabel ;;;
        ret 0
  end.

(** [main], when every remote call succeeds. [fetched] is the outcome of
    the gathering steps (threads, model, diff, the model's answer): a value,
    or the exception one of them threw. *)
Definition main (env : Env) (fetched : result Context) : Outcome :=
  if negb (Js.truthy (GITHUB_TOKEN env)) then {| effects := []; exitCode := 1 |}
  else if negb (Js.truthy (BEDROCK_AWS_ACCESS_KEY_ID env))
          || negb (Js.truthy (BEDROCK_AWS_SECRET_ACCESS_KEY env))
  then {| effects := []; exitCode := 1 |}
  else
    match (run! ctx := lift fetched in check env ctx) with
    | (es, Ok code) => {| effects := es; exitCode := code |}
    | (es, Throw msg) =>
        let '(es', _) := postComment (fallbackNotice msg) None in
        {| effects := es ++ es'; exitCode := 1 |}
    end.

End Analysis.

(** ** Remote calls that fail

    The calls of a run are numbered from 0 in the order they are attempted.
    A world tells how each of them turns out; the calls listed for a run are
    then the calls attempted, whether they succeeded or not. *)

(** [w k] is [None] when call number [k] succeeds, and [Some msg] when it
    throws an error of message [msg]. *)
Definition World : Type := nat -> option string.

Definition allCallsSucceed : World := fun _ => None.

(** A piece of the run, in a world, from a call number on. *)
Definition RunW (A : Type) : Type := World -> nat -> Run A.

Definition retW {A : Type} (a : A) : RunW A := fun _ _ => ret a.
Definition throwW {A : Type} (msg : string) : RunW A := fun _ _ => throw msg.
Definition liftW {A : Type} (r : result A) : RunW A := fun _ _ => lift r.

Definition andThenW {A B : Type} (m : RunW A) (k : A -> RunW B) : RunW B :=
  fun w n =>
    match m w n with
    | (es, Ok a) => let '(es', r) := k a w (n + length es)%nat in (es ++ es', r)
    | (es, Throw msg) => (es, Throw msg)
    end.

Notation "'runW!' x := m 'in' k" := (andThenW m (fun x => k))
  (at level 10, x name, m at level 100, k at level 200).
Notation "m ;;;; k" := (andThenW m (fun _ => k))
  (at level 100, k at level 200, right associativity).

(** A call in a [try] whose [catch] cleans up and throws the error on
    ([postReview], [postComment]). *)
Definition attempt (e : Effect) : RunW unit :=
  fun w n =>
    ([e], match w n with
          | None => Ok tt
          | Some msg => Throw msg
          end).

(** A call in a [try] whose [catch] logs the error and goes on
    ([replyToReviewComment], [resolveReviewThread], [addNoncompliantLabel],
    whose two commands count as one call, [removeLabelIfPresent]). *)
Definition attemptCaught (e : Effect) : RunW unit := fun _ _ => ([e], Ok tt).

(** A row of such calls. *)
Definition attemptAllCaught (es : list Effect) : RunW unit := fun _ _ => (es, Ok tt).

Definition postReviewW (data : AnalysisData) (diff modelId : string)
    (isReReview : bool) (reviewThreads : list Thread.t) : RunW unit :=
  runW! vl := liftW (parseDiffForValidLines diff) in
  let '(inlineComments, unplaceable) :=
    placeFindings vl (findingsForInline data isReReview) [] [] in
  let reviewBody := buildReviewBody data isReReview modelId unplaceable in
  attempt (PostReview reviewBody "COMMENT" inlineComments) ;;;;
  if negb isReReview then retW tt
  else attemptAllCaught (threadUpdates data reviewThreads).

Definition postCommentW (comment : string) (modelId : option string) : RunW unit :=
  attempt (PostComment
             (Js.replaceFirst comment "[Model ID will be shown]"
                (Js.orElse modelId "Unknown"))).

Definition postGeneralNotesW (notes : option (list string)) (modelId : string)
  : RunW unit :=
  if negb (hasItems notes) then retW tt
  else postCommentW
         ("## 📋 PR Standards — General Notes" +:+ nl +:+ nl
          +:+ concatMap bulletLine (orNil notes)
          +:+ nl +:+ aiFooter modelId)
         None.

Definition postSuccessCommentW (prNumber modelId : string) : RunW unit :=
  postCommentW
    ("# ✅ PR Standards Check Passed" +:+ nl +:+ nl
     +:+ "PR #" +:+ prNumber +:+ " meets all team standards. No issues found."
     +:+ nl +:+ nl +:+ aiFooter modelId)
    None.

Section AnalysisW.

Variable JSON_parse : string -> option AnalysisData.

(** The [try] block of [main], from the parse on. *)
Definition checkW (env : Env) (ctx : Context) : RunW Z :=
  match parseAnalysisJSON JSON_parse (rawAnalysis ctx) with
  | None => throwW "Analysis did not return a parseable JSON response"
  | Some analysisData =>
      let isReReview := (0 <? length (reviewThreads ctx))%nat in
      postReviewW analysisData (diff ctx) (modelId ctx) isReReview (reviewThreads ctx) ;;;;
      (if hasItems (general_notes analysisData)
       then postGeneralNotesW (general_notes analysisData) (modelId ctx)
       else retW tt) ;;;;
      let c := countIssues analysisData in
      if (0 <? totalIssues c)%nat || shouldBlock c then
        if String.eqb (FAILURE_MODE env) "label"
        then attemptCaught AddNoncompliantLabel ;;;; retW 0
        else retW 1
      else
        postSuccessCommentW (PR_NUMBER env) (modelId ctx) ;;;;
        attemptCaught RemoveLabel ;;;;
        retW 0
  end.

(** [main]. An exception of the [try] block ends in the [catch]: the
    fallback notice is attempted, its own error is logged, and the process
    exits with code 1. *)
Definition mainW (env : Env) (fetched : result Context) (w : World) : Outcome :=
  if negb (Js.truthy (GITHUB_TOKEN env)) then {| effects := []; exitCode := 1 |}
  else if negb (Js.truthy (BEDROCK_AWS_ACCESS_KEY_ID env))
          || negb (Js.truthy (BEDROCK_AWS_SECRET_ACCESS_KEY env))
  then {| effects := []; exitCode := 1 |}
  else
    match (runW! ctx := liftW fetched in checkW env ctx) w 0%nat with
    | (es, Ok code) => {| effects := es; exitCode := code |}
    | (es, Throw msg) =>
        let '(es', _) := postCommentW (fallbackNotice msg) None w (length es) in
        {| effects := es ++ es'; exitCode := 1 |}
    end.

End AnalysisW.

(** ** Ignored sections of a file *)

(** The ignore configuration ([IGNORE_CONFIG]). A configuration file
    without [ignoreComment] leaves it undefined, which the templates and
    [includes] read as the text "undefined". *)
Record IgnoreConfig : Type := mkIgnoreConfig {
  ignorePatterns : list string;
  ignoreComment : string
}.

(** The configuration used when no file is given. *)
Definition defaultIgnoreConfig : IgnoreConfig :=
  {| ignorePatterns := ["node_modules/**"; "dist/**"; "build/**"; "*.min.js"];
     ignoreComment := "standards-checker-ignore" |}.

(** An element of [ignoredRanges]: [end] is absent until an end marker
    sets it. *)
Record IgnoredRange : Type := mkIgnoredRange {
  rangeStart : nat;
  rangeEnd : option nat
}.

(** The loop variables of [filterIgnoredContent]. *)
Record FilterState : Type := mkFilterState {
  filteredLines : list string;
  ignoring : bool;
  ignoredRanges : list IgnoredRange
}.

Definition initFilterState : FilterState :=
  {| filteredLines := []; ignoring := false; ignoredRanges := [] |}.

(** [`// Line ${i + 1} ignored by standards checker`], for the line number
    [n = i + 1]. *)
Definition ignoredPlaceholder (n : nat) : string :=
  "// Line " +:+ Js.numToString (Z.of_nat n) +:+ " ignored by standards checker".

(** [ignoredRanges[ignoredRanges.length - 1].end = n], when there is a
    range. *)
Fixpoint setLastEnd (ranges : list IgnoredRange) (n : nat) : list IgnoredRange :=
  match ranges with
  | [] => []
  | [r] => [{| rangeStart := rangeStart r; rangeEnd := Some n |}]
  | r :: rs => r :: setLastEnd rs n
  end.

(** One iteration of the loop, on the line of index [i]. *)
Definition filterStep (ignoreComment : string) (i : nat) (line : string)
    (st : FilterState) : FilterState :=
  if Js.includes line (ignoreComment +:+ "-start") then
    {| filteredLines := filteredLines st;
       ignoring := true;
       ignoredRanges := ignoredRanges st ++ [{| rangeStart := (i + 1)%nat; rangeEnd := None |}] |}
  else if Js.includes line (ignoreComment +:+ "-end") then
    {| filteredLines := filteredLines st;
       ignoring := false;
       ignoredRanges := setLastEnd (ignoredRanges st) (i + 1)%nat |}
  else if Js.includes line ignoreComment
          && negb (Js.includes line (ignoreComment +:+ "-start"))
          && negb (Js.includes line (ignoreComment +:+ "-end")) then
    {| filteredLines := filteredLines st ++ [ignoredPlaceholder (i + 1)%nat];
       ignoring := ignoring st;
       ignoredRanges :=
         ignoredRanges st ++ [{| rangeStart := (i + 1)%nat; rangeEnd := Some (i + 1)%nat |}] |}
  else if negb (ignoring st) then
    {| filteredLines := filteredLines st ++ [line];
       ignoring := ignoring st;
       ignoredRanges := ignoredRanges st |}
  else
    {| filteredLines := filteredLines st ++ [ignoredPlaceholder (i + 1)%nat];
       ignoring := ignoring st;
       ignoredRanges := ignoredRanges st |}.

(** The loop from index [i] on. *)
Fixpoint filterLoop (ignoreComment : string) (i : nat) (lines : list string)
    (st : FilterState) : FilterState :=
  match lines with
  | [] => st
  | l :: ls => filterLoop ignoreComment (S i) ls (filterStep ignoreComment i l st)
  end.

(** [arr.join('\n')] *)
Definition joinNl (ls : list string) : string :=
  match ls with
  | [] => ""
  | l :: ls' => fold_left (fun acc x => acc +:+ String Js.LF EmptyString +:+ x) ls' l
  end.

(** What [filterIgnoredContent] returns. *)
Record Filtered : Type := mkFiltered {
  filteredContent : string;
  filteredRanges : option (list IgnoredRange)
}.

Definition filterIgnoredContent (cfg : IgnoreConfig) (content filePath : string)
  : Filtered :=
  let st := filterLoop (ignoreComment cfg) 0 (Js.split_lines content) initFilterState in
  {| filteredContent := joinNl (filteredLines st);
     filteredRanges :=
       match ignoredRanges st with
       | [] => None
       | _ :: _ => Some (ignoredRanges st)
       end |}.

(** * Vocabulary of the properties and sample inputs *)

(** The anchors recorded for a file, none when the file has no entry. *)
Definition anchorsOf (vl : gmap string (gset Z)) (f : string) : gset Z :=
  default ∅ (vl !! f).

(** The invariant of the loop: the current file has an entry. *)
Definition entryPresent (st : ParseState) : Prop :=
  forall f, currentFile st = Some f -> is_Some (validLines st !! f).

(** The lines of a text, joined by line feeds. *)
Definition joinLines (ls : list string) : string :=
  match ls with
  | [] => ""
  | l :: ls' => fold_left (fun acc x => acc +:+ nl +:+ x) ls' l
  end.

Definition hunk10 : string :=
  joinLines ["diff --git a/src/a.ts b/src/a.ts"; "--- a/src/a.ts"; "+++ b/src/a.ts";
             "@@ -10,3 +10,4 @@"; " ctxA"; "+added1"; "+added2"; " ctxB"].

(** The result when no title matches, exactly or as a substring. *)
Definition pathFallback (threads : list Thread.t) (filePath : option string)
  : option Thread.t :=
  match filePath with
  | Some fp => if String.eqb fp "" then None else List.find (pathMatch fp) threads
  | None => None
  end.

(** Threads used in the examples. *)
Definition thrInjection : Thread.t :=
  Thread.mk "PRRT_a" 101 "src/db.ts" (Some 40) "Injection" "🟡 **Injection**" [].
Definition thrSql : Thread.t :=
  Thread.mk "PRRT_b" 102 "src/db.ts" (Some 42) "SQL Injection Risk"
    "🔴 **SQL Injection Risk**" [].
Definition thrCjk : Thread.t :=
  Thread.mk "PRRT_c" 103 "src/auth.ts" (Some 7) "硬编码密码" "🔴 **硬编码密码**" [].

Definition placeable (vl : gmap string (gset Z)) (f : Finding.t) : bool :=
  isValidAnchor vl (Finding.path f) (Finding.line f).

(** The inline comments of a review: the findings whose line is an anchor,
    in their order. *)
Definition inlineOf (vl : gmap string (gset Z)) (fs : list Finding.t)
  : list InlineComment :=
  map inlineCommentOf (List.filter (placeable vl) fs).

(** The findings that go to the review body. *)
Definition unplaceableOf (vl : gmap string (gset Z)) (fs : list Finding.t)
  : list Finding.t :=
  List.filter (fun f => negb (placeable vl f)) fs.

(** The end of the [try] block: the decision on the counts. *)
Definition conclude (env : Env) (ctx : Context) (data : AnalysisData) : Run Z :=
  let c := countIssues data in
  if (0 <? totalIssues c)%nat || shouldBlock c then
    if String.eqb (FAILURE_MODE env) "label"
    then ([AddNoncompliantLabel], Ok 0)
    else ([], Ok 1)
  else
    (fst (postSuccessComment (PR_NUMBER env) (modelId ctx)) ++ [RemoveLabel], Ok 0).

Definition notesOf (data : AnalysisData) (ctx : Context) : list Effect :=
  if hasItems (general_notes data)
  then fst (postGeneralNotes (general_notes data) (modelId ctx))
  else [].

Definition isReReviewOf (ctx : Context) : bool := (0 <? length (reviewThreads ctx))%nat.

(** The credentials [main] asks for before anything else. *)
Definition credentialsPresent (env : Env) : Prop :=
  Js.truthy (GITHUB_TOKEN env) = true
  /\ Js.truthy (BEDROCK_AWS_ACCESS_KEY_ID env) = true
  /\ Js.truthy (BEDROCK_AWS_SECRET_ACCESS_KEY env) = true.

(** [sub] occurs in [s], as one piece. *)
Definition occursIn (sub s : string) : Prop :=
  exists pre post, s = pre +:+ sub +:+ post.

Definition isSummary (e : Effect) : bool :=
  match e with
  | PostReview _ _ _ => true
  | _ => false
  end.

(** A bump or acknowledgement reply, or a thread resolution. *)
Definition isThreadUpdate (e : Effect) : bool :=
  match e with
  | ReplyToReviewComment _ _ | ResolveReviewThread _ => true
  | _ => false
  end.

(** Every thread update of the list stands before every summary of it. *)
Definition updatesBeforeSummary (es : list Effect) : Prop :=
  forall (i j : nat) (e1 e2 : Effect),
    es !! i = Some e1 -> es !! j = Some e2 ->
    isThreadUpdate e1 = true -> isSummary e2 = true -> (i < j)%nat.

(** Every summary of the list stands before every thread update of it. *)
Definition summaryBeforeUpdates (es : list Effect) : Prop :=
  forall (i j : nat) (e1 e2 : Effect),
    es !! i = Some e1 -> es !! j = Some e2 ->
    isSummary e1 = true -> isThreadUpdate e2 = true -> (i < j)%nat.

Module Sample.

Definition dq : string := String (ascii_of_nat 34) EmptyString.
Definition str (s : string) : string := dq +:+ s +:+ dq.
Definition field (k v : string) : string := str k +:+ ":" +:+ v.
Definition optField (k : string) (v : option string) : list string :=
  match v with
  | Some x => [field k x]
  | None => []
  end.
Definition obj (fields : list string) : string := "{" +:+ String.concat "," fields +:+ "}".
Definition arr (items : list string) : string := "[" +:+ String.concat "," items +:+ "]".

(** The JSON text of a finding and of an analysis (the strings of the
    samples need no escaping). *)
Definition ofFinding (f : Finding.t) : string :=
  obj ([field "priority" (str (Finding.priority f));
        field "title" (str (Finding.title f));
        field "path" (str (Finding.path f));
        field "line" (Js.numToString (Finding.line f))]
       ++ optField "body" (str <$> Finding.body f)
       ++ optField "bump_message" (str <$> Finding.bump_message f)).

Definition ofFindings (fs : list Finding.t) : string := arr (map ofFinding fs).
Definition ofTitles (ts : list string) : string := arr (map str ts).

Definition ofData (d : AnalysisData) : string :=
  obj (optField "status" (str <$> status d)
       ++ optField "summary" (str <$> summary d)
       ++ optField "findings" (ofFindings <$> findings d)
       ++ optField "persisting" (ofFindings <$> persisting d)
       ++ optField "new_findings" (ofFindings <$> new_findings d)
       ++ optField "resolved" (ofTitles <$> resolved d)
       ++ optField "accepted_explanations" (ofTitles <$> accepted_explanations d)
       ++ optField "general_notes" (ofTitles <$> general_notes d)).

(** The answer of the model that carries [d]. *)
Definition answer (d : AnalysisData) : string :=
  "```json" +:+ nl +:+ ofData d +:+ nl +:+ "```".

(** A [JSON.parse] that reads the text of [d]. *)
Definition reads (d : AnalysisData) : string -> option AnalysisData :=
  fun s => if String.eqb s (ofData d) then Some d else None.

Definition envFail : Env :=
  mkEnv (Some "ghs_token") (Some "AKIAEXAMPLE") (Some "secret") "fail" "17".
Definition envLabel : Env :=
  mkEnv (Some "ghs_token") (Some "AKIAEXAMPLE") (Some "secret") "label" "17".

(** A diff of [src/db.ts] whose new lines 40 to 43 are anchors. *)
Definition diffDb : string :=
  joinLines ["diff --git a/src/db.ts b/src/db.ts"; "--- a/src/db.ts"; "+++ b/src/db.ts";
             "@@ -40,3 +40,4 @@"; " const q ="; "+  base +"; "+  userInput;"; " run(q);"].

(** First review: one finding of priority [other], status APPROVED. *)
Definition fOther : Finding.t :=
  Finding.mk "other" "Use logger instead of console.log" "src/a.ts" 11
    (Some "Replace console.log with the logger.") None.
Definition dataOther : AnalysisData :=
  mkAnalysisData (Some "APPROVED") (Some "One minor issue.") (Some [fOther])
    None None None None None.
Definition ctxOther : Context := mkContext [] "opus" hunk10 (answer dataOther).

(** First review: a must-fix finding under status APPROVED. *)
Definition fMust : Finding.t :=
  Finding.mk "must_fix" "SQL Injection Risk" "src/a.ts" 12
    (Some "Build the query with parameters.") None.
Definition dataMustApproved : AnalysisData :=
  mkAnalysisData (Some "APPROVED") None (Some [fMust]) None None None None None.

(** First review: no finding under status BLOCK_MERGE. *)
Definition dataBlockEmpty : AnalysisData :=
  mkAnalysisData (Some "BLOCK_MERGE") None None None None None None None.

End Sample.

Module Sample2.
Import Sample.

(** First review: a finding whose priority is not in the schema. *)
Definition fCritical : Finding.t :=
  Finding.mk "critical" "Race condition in cache" "src/a.ts" 12
    (Some "Guard the cache with a lock.") None.
Definition dataCritical : AnalysisData :=
  mkAnalysisData (Some "BLOCK_MERGE") None (Some [fCritical]) None None None None None.
Definition ctxCritical : Context := mkContext [] "opus" hunk10 (answer dataCritical).

(** A diff of [src/a.ts] whose new lines 1 to 50 are anchors. *)
Definition diff50 : string :=
  joinLines (["--- a/src/a.ts"; "+++ b/src/a.ts"; "@@ -1,50 +1,50 @@"]
             ++ repeat " unchanged" 50).

(** First review: a must-fix finding on line 999, status APPROVED. *)
Definition fFar : Finding.t :=
  Finding.mk "must_fix" "SQL Injection Risk" "src/a.ts" 999
    (Some "Build the query with parameters.") None.
Definition dataFar : AnalysisData :=
  mkAnalysisData (Some "APPROVED") None (Some [fFar]) None None None None None.
Definition ctxFar : Context := mkContext [] "opus" diff50 (answer dataFar).

(** An answer without a JSON block, on a re-review. *)
Definition ctxProse : Context :=
  mkContext [thrSql] "opus" diffDb "I could not review this pull request.".

(** Re-review: a new finding that names the open thread [thrSql]. *)
Definition fDup : Finding.t :=
  Finding.mk "must_fix" "Sql injection risk!" "src/db.ts" 42
    (Some "Build the query with parameters.") None.
Definition dataDup : AnalysisData :=
  mkAnalysisData (Some "BLOCK_MERGE") None None None (Some [fDup]) None None None.
Definition ctxDup : Context := mkContext [thrSql] "opus" diffDb (answer dataDup).

(** Re-review: one persisting finding and one resolved title. *)
Definition fPersist : Finding.t :=
  Finding.mk "must_fix" "SQL Injection Risk" "src/db.ts" 42 None
    (Some "The query is still built by concatenation.").
Definition dataBump : AnalysisData :=
  mkAnalysisData (Some "BLOCK_MERGE") None None (Some [fPersist]) None
    (Some ["Injection"]) None None.
Definition ctxBump : Context :=
  mkContext [thrInjection; thrSql] "opus" diffDb (answer dataBump).
End Sample2.

Definition stateAt11 : ParseState :=
  {| validLines := {[ "src/a.ts" := {[10; 11]} ]};
     currentFile := Some "src/a.ts";
     newLineNum := 11 |}.

(** The diff of a pull request that adds a patch file of five lines. The
    second line of the new file is [+++ b/x], shown in the diff as
    [++++ b/x]. *)
Definition diffAddsPatch : string :=
  joinLines ["diff --git a/fix.patch b/fix.patch"; "new file mode 100644";
             "--- /dev/null"; "+++ b/fix.patch"; "@@ -0,0 +1,5 @@";
             "+--- a/x"; "++++ b/x"; "+@@ -1 +1 @@"; "+-old"; "++new"].

(** A line that carries a start or an end marker of an ignored block. *)
Definition isBlockMarker (ignoreComment line : string) : bool :=
  Js.includes line (ignoreComment +:+ "-start")
  || Js.includes line (ignoreComment +:+ "-end").

(** The lines of a text without block markers, as the filter leaves them:
    a line that mentions the ignore comment gives way to the placeholder of
    its number, the first line having the number [i + 1]. *)
Fixpoint maskLines (ignoreComment : string) (i : nat) (lines : list string)
  : list string :=
  match lines with
  | [] => []
  | l :: ls =>
      (if Js.includes l ignoreComment then ignoredPlaceholder (i + 1)%nat else l)
      :: maskLines ignoreComment (S i) ls
  end.

(** The ranges are in the order of their starts, and every range lies
    within the lines 1 to [n], its end not before its start. *)
Definition rangesWellFormed (n : nat) (rs : list IgnoredRange) : Prop :=
  StronglySorted lt (map rangeStart rs)
  /\ Forall (fun r => (1 <= rangeStart r <= n)%nat
                      /\ forall e, rangeEnd r = Some e -> (rangeStart r <= e <= n)%nat) rs.

(** A text with an ignored block of two lines. *)
Definition textWithBlock : string :=
  joinNl ["const a = 1;"; "// standards-checker-ignore-start"; "const secret = 2;";
          "legacy(); // standards-checker-ignore"; "// standards-checker-ignore-end";
          "const b = 3;"].

(** A line of the body of a hunk: context, added (and not opening with
    [+++]) or deleted. *)
Definition hunkBodyLine (l : string) : bool :=
  Js.startsWith l " "
  || (Js.startsWith l "+" && negb (Js.startsWith l "+++"))
  || Js.startsWith l "-".

(** The lines of a hunk body that exist in the new file. *)
Definition countedLines (body : list string) : nat :=
  length (List.filter (fun l => negb (Js.startsWith l "-")) body).

(** A hunk header as [diff] prints it, the counts being optional. *)
Definition optCount (o : option nat) : string :=
  match o with
  | Some k => "," +:+ Js.numToString (Z.of_nat k)
  | None => ""
  end.

Definition hunkHeader (a : nat) (b : option nat) (c : nat) (d : option nat) : string :=
  "@@ -" +:+ Js.numToString (Z.of_nat a) +:+ optCount b
  +:+ " +" +:+ Js.numToString (Z.of_nat c) +:+ optCount d +:+ " @@".

Fixpoint allDigits (s : string) : bool :=
  match s with
  | EmptyString => true
  | String c r => Js.isDigit c && allDigits r
  end.

(** [r] does not open with a digit. *)
Definition noDigitAhead (r : string) : Prop :=
  match r with
  | EmptyString => True
  | String c _ => Js.isDigit c = false
  end.

(** A diff of one added line whose lines end in CR LF. *)
Definition crlfDiff : string :=
  "+++ b/a.ts" +:+ String Js.CR (String Js.LF EmptyString)
  +:+ "@@ -0,0 +1 @@" +:+ String Js.CR (String Js.LF EmptyString)
  +:+ "+let a = 1;" +:+ String Js.CR (String Js.LF EmptyString).

(** The fences of the JSON block in the model's answer. *)
Definition openFence : string := "```json" +:+ nl.
Definition closeFence : string := nl +:+ "```".

(** Every character of [s] is one of [a-z0-9]. *)
Fixpoint allAlnum (s : string) : bool :=
  match s with
  | EmptyString => true
  | String c r => (Js.isLowerAZ c || Js.isDigit c) && allAlnum r
  end.

(** The members of an answer that belong to the first-review schema, and
    those that belong to the re-review schema. *)
Definition firstReviewPart (data : AnalysisData) : AnalysisData :=
  {| status := status data; summary := summary data; findings := findings data;
     persisting := None; new_findings := None; resolved := None;
     accepted_explanations := None; general_notes := general_notes data |}.

Definition reReviewPart (data : AnalysisData) : AnalysisData :=
  {| status := status data; summary := summary data; findings := None;
     persisting := persisting data; new_findings := new_findings data;
     resolved := resolved data; accepted_explanations := accepted_explanations data;
     general_notes := general_notes data |}.

(** The call [e] is a reply on, or the resolution of, the thread [t]. *)
Definition targets (e : Effect) (t : Thread.t) : Prop :=
  (exists body, e = ReplyToReviewComment (Thread.firstCommentId t) body)
  \/ e = ResolveReviewThread (Thread.threadId t).

(** Neither [must_fix] nor [other]. *)
Definition offSchema (f : Finding.t) : bool :=
  negb (hasPriority "must_fix" f) && negb (hasPriority "other" f).

(** The thread updates of a run: those of a re-review. *)
Definition updatesOf (data : AnalysisData) (ctx : Context) : list Effect :=
  if isReReviewOf ctx then threadUpdates data (reviewThreads ctx) else [].

(** The calls of a run before the decision on the counts: the review, the
    thread updates of a re-review, the comment of the general notes. *)
Definition callsBeforeDecision (data : AnalysisData) (ctx : Context) : list Effect :=
  fst (postReview data (diff ctx) (modelId ctx) (isReReviewOf ctx) (reviewThreads ctx))
  ++ notesOf data ctx.

(** The run gets as far as the decision: the review (call 0) is posted and,
    when there are general notes, so is their comment (the call after the
    thread updates). The errors of the calls in between are caught. *)
Definition decisionReached (w : World) (data : AnalysisData) (ctx : Context) : Prop :=
  w 0%nat = None
  /\ (hasItems (general_notes data) = true ->
      w (S (length (updatesOf data ctx))) = None).

(** The success comment of a passing run. *)
Definition successComment (env : Env) (ctx : Context) : Effect :=
  PostComment
    (Js.replaceFirst
       ("# ✅ PR Standards Check Passed" +:+ nl +:+ nl
        +:+ "PR #" +:+ PR_NUMBER env +:+ " meets all team standards. No issues found."
        +:+ nl +:+ nl +:+ aiFooter (modelId ctx))
       "[Model ID will be shown]" "Unknown").

(** The notice as [postComment] sends it. *)
Definition noticeComment (msg : string) : Effect :=
  PostComment (Js.replaceFirst (fallbackNotice msg) "[Model ID will be shown]" "Unknown").

(** The world in which call number [k] alone fails, with message [msg]. *)
Definition failsAt (k : nat) (msg : string) : World :=
  fun n => if Nat.eqb n k then Some msg else None.

Module Sample3.
Import Sample.

(** Re-review: nothing left to fix, one resolved title, one general note. *)
Definition dataClean : AnalysisData :=
  mkAnalysisData (Some "APPROVED") (Some "All findings are fixed.") None None None
    (Some ["Injection"]) None (Some ["The title could name the ticket."]).
Definition ctxClean : Context :=
  mkContext [thrInjection] "opus" diffDb (answer dataClean).
End Sample3.

(** * Properties *)

(** ** Strings *)

Lemma startsWith_spec (p s : string) :
  Js.startsWith s p = true <-> exists r, s = p +:+ r.
Proof.
  unfold Js.startsWith. revert s.
  induction p as [|a p IH]; intros s; simpl.
  - split; [intros _; exists s; reflexivity | intros _; destruct s; reflexivity ].
  - destruct s as [|b s]; simpl.
    + split; [discriminate | intros [r Hr]; discriminate].
    + destruct (ascii_dec a b) as [->|Hne].
      * rewrite IH. split; intros [r Hr]; exists r.
        -- simpl. now rewrite Hr.
        -- simpl in Hr. now injection Hr.
      * split; [discriminate|]. intros [r Hr]. simpl in Hr.
        injection Hr as Hab _. congruence.
Qed.

Lemma dropPrefix_spec (p s r : string) :
  Js.dropPrefix p s = Some r <-> s = p +:+ r.
Proof.
  revert s. induction p as [|a p IH]; intros s; simpl.
  - split; [intros [= ->]; reflexivity | intros ->; reflexivity].
  - destruct s as [|b s]; [split; discriminate|].
    destruct (Ascii.eqb a b) eqn:E.
    + apply Ascii.eqb_eq in E as ->. rewrite IH.
      split; [intros ->; reflexivity | intros [= ->]; reflexivity].
    + apply Ascii.eqb_neq in E. split; [discriminate|].
      intros [= Hab _]. congruence.
Qed.

Lemma startsWith_dropPrefix (p s : string) :
  Js.startsWith s p = false -> Js.dropPrefix p s = None.
Proof.
  intros H. destruct (Js.dropPrefix p s) as [r|] eqn:E; [|reflexivity].
  apply dropPrefix_spec in E.
  assert (Js.startsWith s p = true) by (apply startsWith_spec; eauto).
  congruence.
Qed.

(** A line that opens with [c] does not open with a string that opens with
    another character. *)
Lemma startsWith_other (c d : ascii) (p r : string) :
  c <> d -> Js.startsWith (String c r) (String d p) = false.
Proof.
  intros Hne. unfold Js.startsWith. simpl.
  destruct (ascii_dec d c); [congruence | reflexivity].
Qed.

Lemma startsWith_head (c : ascii) (s : string) :
  Js.startsWith s (String c EmptyString) = true -> exists r, s = String c r.
Proof. intros H. apply startsWith_spec in H as [r ->]. eauto. Qed.

(** ** The diff anchor resolver *)

Lemma entryPresent_init : entryPresent initState.
Proof. intros f. discriminate. Qed.

Lemma hunkMatch_at (line : string) :
  Js.startsWith line "@" = false -> hunkMatch line = None.
Proof.
  intros H. unfold hunkMatch.
  destruct (Js.dropPrefix "@@ -" line) as [r|] eqn:E; [|reflexivity].
  apply dropPrefix_spec in E. subst line. discriminate.
Qed.

Lemma fileMatch_plus (line : string) :
  Js.startsWith line "+" = false -> fileMatch line = None.
Proof.
  intros H. unfold fileMatch.
  destruct (Js.dropPrefix "+++ b/" line) as [r|] eqn:E; [|reflexivity].
  apply dropPrefix_spec in E. subst line. discriminate.
Qed.

Lemma addAnchor_ok (st : ParseState) (f : string) :
  entryPresent st -> currentFile st = Some f ->
  addAnchor st =
    Ok {| validLines := <[f := {[newLineNum st + 1]} ∪ anchorsOf (validLines st) f]>
                          (validLines st);
          currentFile := Some f;
          newLineNum := newLineNum st + 1 |}.
Proof.
  intros Hinv Hf. unfold addAnchor, anchorsOf. rewrite Hf.
  destruct (Hinv f Hf) as [s Hs]. rewrite Hs. reflexivity.
Qed.

Lemma addAnchor_entryPresent (st st' : ParseState) :
  entryPresent st -> addAnchor st = Ok st' -> entryPresent st'.
Proof.
  intros Hinv H. unfold addAnchor in H.
  destruct (currentFile st) as [f|] eqn:Hf; [|discriminate].
  destruct (validLines st !! f) as [s|] eqn:Hs; [|discriminate].
  injection H as <-. intros g Hg. simpl in *. injection Hg as <-.
  rewrite lookup_insert_eq. eauto.
Qed.

Lemma truthy_Some (o : option string) :
  Js.truthy o = true -> exists f, o = Some f.
Proof. destruct o; [eauto | discriminate]. Qed.

(** One iteration never throws from a state that satisfies the invariant,
    and re-establishes it. *)
Lemma parseLine_ok (st : ParseState) (line : string) :
  entryPresent st ->
  exists st', parseLine st line = Ok st' /\ entryPresent st'.
Proof.
  intros Hinv. unfold parseLine.
  destruct (fileMatch line) as [f|].
  - eexists; split; [reflexivity|]. intros g [= <-]. simpl.
    destruct (validLines st !! f) eqn:E; [rewrite E; eauto|].
    rewrite lookup_insert_eq. eauto.
  - destruct (hunkMatch line).
    + eexists; split; [reflexivity|]. exact Hinv.
    + destruct (Js.truthy (currentFile st)) eqn:Ht; simpl; [|eauto].
      apply truthy_Some in Ht as [f Hf].
      pose proof (addAnchor_ok st f Hinv Hf) as Hadd.
      assert (Hst : exists st', addAnchor st = Ok st' /\ entryPresent st').
      { eexists; split; [exact Hadd|]. eapply addAnchor_entryPresent; eauto. }
      destruct (Js.startsWith line "+" && negb (Js.startsWith line "+++"));
        [exact Hst|].
      destruct (Js.startsWith line " "); [exact Hst | eauto].
Qed.

Lemma parseLines_ok (lines : list string) (st : ParseState) :
  entryPresent st ->
  exists st', parseLines st lines = Ok st' /\ entryPresent st'.
Proof.
  revert st. induction lines as [|l ls IH]; intros st Hinv; simpl.
  - eauto.
  - destruct (parseLine_ok st l Hinv) as (st1 & -> & Hinv1). simpl.
    apply IH, Hinv1.
Qed.

(** The resolver returns a map for every text. *)
Lemma parseDiffForValidLines_total (diff : string) :
  exists vl, parseDiffForValidLines diff = Ok vl.
Proof.
  unfold parseDiffForValidLines.
  destruct (parseLines_ok (Js.split_lines diff) initState entryPresent_init)
    as (st & -> & _).
  simpl. eauto.
Qed.

Lemma anchorsOf_fresh_entry (vl : gmap string (gset Z)) (f g : string) :
  vl !! f = None -> anchorsOf (<[f := ∅]> vl) g = anchorsOf vl g.
Proof.
  intros Hf. unfold anchorsOf.
  destruct (decide (f = g)) as [->|Hne].
  - rewrite lookup_insert_eq, Hf. reflexivity.
  - rewrite lookup_insert_ne by exact Hne. reflexivity.
Qed.

(** A line that opens with [+++] leaves the counter and every anchor set as
    they are, whether or not it is taken for a file header. *)
Lemma parseLine_plus3 (st : ParseState) (hdr : string) :
  Js.startsWith hdr "+++" = true ->
  exists st', parseLine st hdr = Ok st'
              /\ newLineNum st' = newLineNum st
              /\ forall f, anchorsOf (validLines st') f = anchorsOf (validLines st) f.
Proof.
  intros H3. unfold parseLine.
  destruct (fileMatch hdr) as [f|].
  - eexists; split; [reflexivity|]. simpl. split; [reflexivity|]. intros g.
    destruct (validLines st !! f) eqn:E; [reflexivity|].
    now apply anchorsOf_fresh_entry.
  - apply startsWith_spec in H3 as [r ->].
    rewrite hunkMatch_at by reflexivity.
    change (Js.startsWith ("+++" +:+ r) "+++") with
      (Js.startsWith (String "+" (String "+" (String "+" r))) "+++").
    assert (E3 : Js.startsWith (String "+" (String "+" (String "+" r))) "+++" = true)
      by (apply startsWith_spec; exists r; reflexivity).
    rewrite E3. rewrite andb_false_r.
    change ("+++" +:+ r) with (String "+" (String "+" (String "+" r))).
    rewrite (startsWith_other "+" " " "" _) by discriminate.
    exists st. destruct (negb (Js.truthy (currentFile st))); auto.
Qed.

(** The header of a deleted file changes nothing at all. *)
Lemma parseLine_dev_null (st : ParseState) :
  parseLine st "+++ /dev/null" = Ok st.
Proof.
  unfold parseLine.
  change (fileMatch "+++ /dev/null") with (@None string).
  change (hunkMatch "+++ /dev/null") with (@None string).
  destruct (negb (Js.truthy (currentFile st))); reflexivity.
Qed.

(** Before the first file header nothing is recorded. *)
Lemma parseLines_before_header (before : list string) (st : ParseState) :
  Forall (fun l => fileMatch l = None) before ->
  validLines st = ∅ -> currentFile st = None ->
  exists st', parseLines st before = Ok st'
              /\ validLines st' = ∅ /\ currentFile st' = None.
Proof.
  intros Hall. revert st.
  induction Hall as [|l ls Hl _ IH]; intros st Hvl Hcf; simpl.
  - eauto.
  - unfold parseLine. rewrite Hl.
    destruct (hunkMatch l); simpl.
    + apply IH; assumption.
    + rewrite Hcf. simpl. apply IH; assumption.
Qed.

(** Every state the loop reaches satisfies the invariant. *)
Lemma parseLines_entryPresent (lines : list string) (st : ParseState) :
  parseLines initState lines = Ok st -> entryPresent st.
Proof.
  intros H.
  destruct (parseLines_ok lines initState entryPresent_init) as (st' & E & Hinv).
  rewrite E in H. injection H as <-. exact Hinv.
Qed.

(** What each kind of line does. *)

Lemma parseLine_hunk (st : ParseState) (line d : string) :
  hunkMatch line = Some d ->
  parseLine st line =
    Ok {| validLines := validLines st;
          currentFile := currentFile st;
          newLineNum := Js.parseInt d - 1 |}.
Proof.
  intros H. unfold parseLine.
  destruct (Js.startsWith line "+") eqn:E.
  - apply startsWith_head in E as [r ->]. discriminate.
  - rewrite (fileMatch_plus line E), H. reflexivity.
Qed.

Lemma parseLine_added (st : ParseState) (f line : string) :
  entryPresent st -> currentFile st = Some f -> f <> "" ->
  Js.startsWith line "+" = true -> Js.startsWith line "+++" = false ->
  parseLine st line =
    Ok {| validLines := <[f := {[newLineNum st + 1]} ∪ anchorsOf (validLines st) f]>
                          (validLines st);
          currentFile := Some f;
          newLineNum := newLineNum st + 1 |}.
Proof.
  intros Hinv Hf Hne Hp Hp3. unfold parseLine.
  assert (fileMatch line = None) as ->.
  { unfold fileMatch.
    destruct (Js.dropPrefix "+++ b/" line) as [r|] eqn:E; [|reflexivity].
    apply dropPrefix_spec in E. subst line. discriminate. }
  apply startsWith_head in Hp as Hr. destruct Hr as [r ->].
  rewrite hunkMatch_at by reflexivity.
  rewrite Hf, Hp, Hp3. simpl.
  destruct (String.eqb f "") eqn:E; [apply String.eqb_eq in E; contradiction|].
  simpl. now apply addAnchor_ok.
Qed.

Lemma parseLine_context (st : ParseState) (f line : string) :
  entryPresent st -> currentFile st = Some f -> f <> "" ->
  Js.startsWith line " " = true ->
  parseLine st line =
    Ok {| validLines := <[f := {[newLineNum st + 1]} ∪ anchorsOf (validLines st) f]>
                          (validLines st);
          currentFile := Some f;
          newLineNum := newLineNum st + 1 |}.
Proof.
  intros Hinv Hf Hne Hp. unfold parseLine.
  apply startsWith_head in Hp as Hr. destruct Hr as [r ->].
  rewrite fileMatch_plus by reflexivity.
  rewrite hunkMatch_at by reflexivity.
  rewrite Hf, Hp. simpl.
  destruct (String.eqb f "") eqn:E; [apply String.eqb_eq in E; contradiction|].
  simpl. now apply addAnchor_ok.
Qed.

Lemma parseLine_deleted (st : ParseState) (line : string) :
  Js.startsWith line "-" = true -> parseLine st line = Ok st.
Proof.
  intros Hp. unfold parseLine.
  apply startsWith_head in Hp as [r ->].
  rewrite fileMatch_plus by reflexivity.
  rewrite hunkMatch_at by reflexivity.
  rewrite (startsWith_other "-" "+" "" r) by discriminate.
  rewrite (startsWith_other "-" " " "" r) by discriminate.
  destruct (negb (Js.truthy (currentFile st))); reflexivity.
Qed.

(** The hunk [@@ -10,3 +10,4 @@] with a context line, two added lines and a
    context line gives the anchors 10 to 13. *)
Example hunk10_anchors :
  exists vl, parseDiffForValidLines hunk10 = Ok vl
             /\ vl !! "src/a.ts" = Some ({[10; 11; 12; 13]} : gset Z)
             /\ dom vl = {["src/a.ts"]}.
Proof. eexists. split; [vm_compute; reflexivity|]. split; vm_compute; reflexivity. Qed.

(** ** The thread matcher *)

Section Find.
Context {A : Type} (p : A -> bool).

(** [arr.find(p)] returns the first element that satisfies [p]. *)
Lemma find_first (l : list A) (x : A) :
  List.find p l = Some x ->
  exists before after,
    l = before ++ x :: after /\ p x = true
    /\ Forall (fun y => p y = false) before.
Proof.
  induction l as [|a l IH]; simpl; [discriminate|].
  destruct (p a) eqn:E.
  - intros [= ->]. exists [], l. auto.
  - intros H. destruct (IH H) as (b & c & -> & Hx & Hb).
    exists (a :: b), c. auto.
Qed.

Lemma find_is_Some (l : list A) :
  (exists x, In x l /\ p x = true) -> exists y, List.find p l = Some y.
Proof.
  intros (x & Hin & Hx).
  destruct (List.find p l) as [y|] eqn:E; [eauto|].
  pose proof (find_none p l E x Hin). congruence.
Qed.

Lemma find_all_false (l : list A) :
  (forall x, In x l -> p x = false) -> List.find p l = None.
Proof.
  intros H. destruct (List.find p l) as [y|] eqn:E; [|reflexivity].
  apply find_some in E as [Hin Hy]. rewrite (H y Hin) in Hy. discriminate.
Qed.
End Find.

Lemma exactMatch_true (nt : string) (t : Thread.t) :
  exactMatch nt t = true <-> norm (Thread.botTitle t) = nt.
Proof. unfold exactMatch. apply String.eqb_eq. Qed.

Lemma exactMatch_false (nt : string) (t : Thread.t) :
  exactMatch nt t = false <-> norm (Thread.botTitle t) <> nt.
Proof. unfold exactMatch. apply String.eqb_neq. Qed.

Lemma includes_empty (s : string) : Js.includes s "" = true.
Proof. destruct s; reflexivity. Qed.

Lemma findMatchingThread_tiers (threads : list Thread.t) (title : string)
    (filePath : option string) :
  findMatchingThread threads title filePath =
    match List.find (exactMatch (norm title)) threads with
    | Some t => Some t
    | None =>
        match List.find (substringMatch (norm title)) threads with
        | Some t => Some t
        | None => pathFallback threads filePath
        end
    end.
Proof.
  unfold findMatchingThread, pathFallback.
  destruct (List.find (exactMatch (norm title)) threads); [reflexivity|].
  destruct (List.find (substringMatch (norm title)) threads); [reflexivity|].
  destruct filePath as [fp|]; [|reflexivity]. simpl.
  destruct (String.eqb fp ""); reflexivity.
Qed.

(** C6. When some open thread's normalised title equals the finding's
    normalised title, the matcher returns such a thread (the first one in
    the list), whatever substring or same-path matches stand before it.
    When no thread matches by title, exactly or as a substring, the result
    is the path fallback, which needs a non-empty path. Whenever the thread
    returned is not a title match, no thread of the list matches by title
    and a path was supplied, which is the thread's path. *)
Theorem exact_title_match_has_precedence
    (threads : list Thread.t) (title : string) (filePath : option string) :
  ((exists t, In t threads /\ norm (Thread.botTitle t) = norm title) ->
   exists t before after,
     findMatchingThread threads title filePath = Some t
     /\ threads = before ++ t :: after
     /\ norm (Thread.botTitle t) = norm title
     /\ Forall (fun u => norm (Thread.botTitle u) <> norm title) before)
  /\ ((forall u, In u threads ->
         exactMatch (norm title) u = false /\ substringMatch (norm title) u = false) ->
      findMatchingThread threads title filePath = pathFallback threads filePath)
  /\ (forall t, findMatchingThread threads title filePath = Some t ->
        exactMatch (norm title) t = false ->
        substringMatch (norm title) t = false ->
        (forall u, In u threads ->
           exactMatch (norm title) u = false /\ substringMatch (norm title) u = false)
        /\ exists fp, filePath = Some fp /\ fp <> "" /\ Thread.path t = fp).
Proof.
  rewrite findMatchingThread_tiers. split; [|split].
  - intros (t & Hin & Ht).
    destruct (find_is_Some (exactMatch (norm title)) threads) as [y Hy].
    { exists t. split; [exact Hin|]. now apply exactMatch_true. }
    rewrite Hy. apply find_first in Hy as (b & a & -> & Hy & Hb).
    exists y, b, a. split; [reflexivity|]. split; [reflexivity|].
    split; [now apply exactMatch_true|].
    eapply List.Forall_impl; [|exact Hb]. intros u Hu. now apply exactMatch_false.
  - intros Hnone.
    rewrite (find_all_false (exactMatch (norm title)) threads)
      by (intros x Hx; apply (Hnone x Hx)).
    rewrite (find_all_false (substringMatch (norm title)) threads)
      by (intros x Hx; apply (Hnone x Hx)).
    reflexivity.
  - intros t H Hex Hsub.
    destruct (List.find (exactMatch (norm title)) threads) as [y|] eqn:E1.
    { apply find_some in E1 as [_ Hy]. injection H as <-. congruence. }
    destruct (List.find (substringMatch (norm title)) threads) as [y|] eqn:E2.
    { apply find_some in E2 as [_ Hy]. injection H as <-. congruence. }
    split.
    + intros u Hu. split; eapply find_none; eauto.
    + unfold pathFallback in H. destruct filePath as [fp|]; [|discriminate].
      destruct (String.eqb fp "") eqn:Efp; [discriminate|].
      apply find_some in H as [_ Hp].
      exists fp. split; [reflexivity|]. split.
      * now apply String.eqb_neq.
      * now apply String.eqb_eq.
Qed.

Lemma exact_title_match_has_precedence_witness :
  (exists t, In t [thrInjection; thrSql]
             /\ norm (Thread.botTitle t) = norm "Sql injection risk!")
  /\ exists t before after,
       findMatchingThread [thrInjection; thrSql] "Sql injection risk!"
         (Some "src/db.ts") = Some t
       /\ [thrInjection; thrSql] = before ++ t :: after
       /\ norm (Thread.botTitle t) = norm "Sql injection risk!"
       /\ Forall (fun u => norm (Thread.botTitle u) <> norm "Sql injection risk!") before.
Proof.
  assert (H : exists t, In t [thrInjection; thrSql]
                        /\ norm (Thread.botTitle t) = norm "Sql injection risk!").
  { exists thrSql. split; [right; left; reflexivity | vm_compute; reflexivity]. }
  split; [exact H|].
  exact (proj1 (exact_title_match_has_precedence [thrInjection; thrSql]
                  "Sql injection risk!" (Some "src/db.ts")) H).
Defined.

(** The exact match is returned although the thread before it in the list
    matches as a substring and lies on the same path. *)
Example exact_beats_substring_and_path :
  findMatchingThread [thrInjection; thrSql] "Sql injection risk!" (Some "src/db.ts")
  = Some thrSql
  /\ substringMatch (norm "Sql injection risk!") thrInjection = true
  /\ pathMatch "src/db.ts" thrInjection = true.
Proof. vm_compute. auto. Qed.

(** C9, as the code has it. A finding whose normalised title is empty is
    matched with the first thread whose own normalised title is empty, when
    there is one (exact match), and with the first thread of the list
    otherwise (the empty string is a substring of every title); the path
    plays no part. *)
Theorem empty_title_match
    (threads : list Thread.t) (title : string) (filePath : option string) :
  norm title = "" -> threads <> [] ->
  findMatchingThread threads title filePath =
    match List.find (exactMatch "") threads with
    | Some t => Some t
    | None => head threads
    end.
Proof.
  intros Hn Hne. rewrite findMatchingThread_tiers, Hn.
  destruct (List.find (exactMatch "") threads); [reflexivity|].
  destruct threads as [|t ts]; [contradiction|]. simpl.
  unfold substringMatch at 1. rewrite includes_empty. reflexivity.
Qed.

Lemma empty_title_match_witness :
  norm "!!!" = "" /\ [thrSql; thrInjection] <> []
  /\ findMatchingThread [thrSql; thrInjection] "!!!" (Some "src/none.ts") =
       match List.find (exactMatch "") [thrSql; thrInjection] with
       | Some t => Some t
       | None => head [thrSql; thrInjection]
       end.
Proof.
  assert (H1 : norm "!!!" = "") by reflexivity.
  assert (H2 : [thrSql; thrInjection] <> []) by discriminate.
  split; [exact H1|]. split; [exact H2|].
  exact (empty_title_match [thrSql; thrInjection] "!!!" (Some "src/none.ts") H1 H2).
Defined.

(** C9 as stated fails: the title has no character of [a-z0-9], the list
    is not empty, and the thread returned is the second one, by the exact
    match of two empty normalised titles. *)
Lemma empty_title_not_first_thread :
  norm "缺少输入验证" = ""
  /\ head [thrSql; thrCjk] = Some thrSql
  /\ findMatchingThread [thrSql; thrCjk] "缺少输入验证" (Some "src/db.ts") = Some thrCjk
  /\ thrCjk <> thrSql.
Proof.
  split; [vm_compute; reflexivity|]. split; [reflexivity|].
  split; [vm_compute; reflexivity | discriminate].
Qed.

(** ** Posting the review *)

Lemma placeFindings_split (vl : gmap string (gset Z)) (fs : list Finding.t)
    (ics : list InlineComment) (ups : list Finding.t) :
  placeFindings vl fs ics ups = (ics ++ inlineOf vl fs, ups ++ unplaceableOf vl fs).
Proof.
  revert ics ups. unfold inlineOf, unplaceableOf.
  induction fs as [|f fs IH]; intros ics ups; simpl.
  - now rewrite !app_nil_r.
  - unfold placeable in *.
    destruct (isValidAnchor vl (Finding.path f) (Finding.line f)); simpl;
      rewrite IH, <- app_assoc; reflexivity.
Qed.

(** The calls of [postReview]: the review first, then, on a re-review, the
    replies and resolutions. *)
Lemma postReview_run (data : AnalysisData) (diff modelId : string)
    (isReReview : bool) (threads : list Thread.t) (vl : gmap string (gset Z)) :
  parseDiffForValidLines diff = Ok vl ->
  postReview data diff modelId isReReview threads =
    (PostReview
       (buildReviewBody data isReReview modelId
          (unplaceableOf vl (findingsForInline data isReReview)))
       "COMMENT"
       (inlineOf vl (findingsForInline data isReReview))
     :: (if isReReview then threadUpdates data threads else []),
     Ok tt).
Proof.
  intros Hvl. unfold postReview. rewrite Hvl. simpl.
  rewrite placeFindings_split. simpl.
  destruct isReReview; reflexivity.
Qed.

Lemma check_run (JSON_parse : string -> option AnalysisData) (env : Env)
    (ctx : Context) (data : AnalysisData) (vl : gmap string (gset Z)) :
  parseAnalysisJSON JSON_parse (rawAnalysis ctx) = Some data ->
  parseDiffForValidLines (diff ctx) = Ok vl ->
  check JSON_parse env ctx =
    (PostReview
       (buildReviewBody data (isReReviewOf ctx) (modelId ctx)
          (unplaceableOf vl (findingsForInline data (isReReviewOf ctx))))
       "COMMENT"
       (inlineOf vl (findingsForInline data (isReReviewOf ctx)))
     :: (if isReReviewOf ctx then threadUpdates data (reviewThreads ctx) else [])
        ++ notesOf data ctx ++ fst (conclude env ctx data),
     snd (conclude env ctx data)).
Proof.
  intros Hp Hvl. unfold check. rewrite Hp.
  rewrite (postReview_run _ _ _ _ _ vl Hvl).
  fold (isReReviewOf ctx).
  unfold notesOf, conclude.
  set (viol := (0 <? totalIssues (countIssues data))%nat || shouldBlock (countIssues data)).
  set (lab := String.eqb (FAILURE_MODE env) "label").
  set (upd := if isReReviewOf ctx then threadUpdates data (reviewThreads ctx) else []).
  destruct (hasItems (general_notes data)) eqn:Hn; unfold postGeneralNotes;
    rewrite ?Hn; destruct viol; destruct lab;
    cbn [andThen emit ret postComment postSuccessComment fst snd negb app];
    rewrite ?app_nil_r; reflexivity.
Qed.

Lemma main_of_check (JSON_parse : string -> option AnalysisData) (env : Env)
    (ctx : Context) (es : list Effect) (code : Z) :
  credentialsPresent env ->
  check JSON_parse env ctx = (es, Ok code) ->
  main JSON_parse env (Ok ctx) = {| effects := es; exitCode := code |}.
Proof.
  intros (H1 & H2 & H3) Hc. unfold main. rewrite H1, H2, H3. simpl.
  rewrite Hc. reflexivity.
Qed.

Lemma conclude_ok (env : Env) (ctx : Context) (data : AnalysisData) :
  exists code, snd (conclude env ctx data) = Ok code.
Proof.
  unfold conclude.
  destruct ((0 <? totalIssues (countIssues data))%nat || shouldBlock (countIssues data));
    [destruct (String.eqb (FAILURE_MODE env) "label")|]; simpl; eauto.
Qed.

(** ** Text of the review body *)

Lemma append_assoc (a b c : string) : (a +:+ b) +:+ c = a +:+ b +:+ c.
Proof.
  induction a as [|x a IH]; [reflexivity|].
  change (String x ((a +:+ b) +:+ c) = String x (a +:+ b +:+ c)).
  now rewrite IH.
Qed.

Lemma append_nil_r (a : string) : a +:+ "" = a.
Proof.
  induction a as [|x a IH]; [reflexivity|].
  change (String x (a +:+ "") = String x a). now rewrite IH.
Qed.

Lemma occursIn_refl (s : string) : occursIn s s.
Proof. exists "", "". simpl. now rewrite append_nil_r. Qed.

Lemma occursIn_app_l (sub s t : string) : occursIn sub s -> occursIn sub (s +:+ t).
Proof.
  intros (pre & post & ->). exists pre, (post +:+ t).
  now rewrite !append_assoc.
Qed.

Lemma occursIn_app_r (sub s t : string) : occursIn sub t -> occursIn sub (s +:+ t).
Proof.
  intros (pre & post & ->). exists (s +:+ pre), post.
  now rewrite !append_assoc.
Qed.

Lemma occursIn_trans (a b c : string) : occursIn a b -> occursIn b c -> occursIn a c.
Proof.
  intros (p1 & q1 & ->) (p2 & q2 & ->).
  exists (p2 +:+ p1), (q1 +:+ q2). now rewrite !append_assoc.
Qed.

Lemma concatMap_occurs {A : Type} (g : A -> string) (l : list A) (a : A) :
  In a l -> occursIn (g a) (concatMap g l).
Proof.
  induction l as [|x l IH]; simpl; [contradiction|].
  intros [->|Hin].
  - apply occursIn_app_l, occursIn_refl.
  - apply occursIn_app_r, IH, Hin.
Qed.

Lemma unplaceableSection_occurs (ups : list Finding.t) (f : Finding.t) :
  In f ups -> occursIn (unplaceableEntry f) (unplaceableSection ups).
Proof.
  intros Hin. unfold unplaceableSection.
  destruct ups as [|u ups]; [contradiction|].
  do 3 apply occursIn_app_r. now apply concatMap_occurs.
Qed.

(** Every finding handed over as unplaceable has its entry in the body. *)
Lemma buildReviewBody_unplaceable (data : AnalysisData) (isReReview : bool)
    (modelId : string) (ups : list Finding.t) (f : Finding.t) :
  In f ups ->
  occursIn (unplaceableEntry f) (buildReviewBody data isReReview modelId ups).
Proof.
  intros Hin. unfold buildReviewBody.
  do 3 apply occursIn_app_r. apply occursIn_app_l.
  now apply unplaceableSection_occurs.
Qed.

Lemma unplaceableEntry_body (f : Finding.t) :
  occursIn (Js.orElse (Finding.body f) (Finding.title f)) (unplaceableEntry f).
Proof.
  unfold unplaceableEntry.
  do 8 apply occursIn_app_r. apply occursIn_app_l, occursIn_refl.
Qed.

Lemma findingsForInline_all (data : AnalysisData) (isReReview : bool) (f : Finding.t) :
  In f (findingsForInline data isReReview) -> In f (allFindings data).
Proof.
  unfold findingsForInline, allFindings. rewrite !in_app_iff.
  destruct isReReview; auto.
Qed.

Lemma count_must_fix (data : AnalysisData) (f : Finding.t) :
  In f (allFindings data) -> Finding.priority f = "must_fix" ->
  (1 <= highPriorityCount (countIssues data))%nat
  /\ (1 <= totalIssues (countIssues data))%nat.
Proof.
  intros Hin Hp. simpl. split.
  - assert (H : In f (List.filter (hasPriority "must_fix") (allFindings data))).
    { apply filter_In. split; [exact Hin|]. unfold hasPriority. now rewrite Hp. }
    destruct (List.filter (hasPriority "must_fix") (allFindings data));
      [contradiction | simpl; lia].
  - destruct (allFindings data); [contradiction | simpl; lia].
Qed.

Lemma shouldBlock_status (data : AnalysisData) :
  shouldBlock (countIssues data) = true <-> status data = Some "BLOCK_MERGE".
Proof.
  simpl. destruct (status data) as [s|].
  - rewrite String.eqb_eq. split; [intros ->; reflexivity | intros [= ->]; reflexivity].
  - split; discriminate.
Qed.

(** ** The run as a whole *)

Lemma threadUpdates_all (data : AnalysisData) (threads : list Thread.t) :
  Forall (fun e => isThreadUpdate e = true) (threadUpdates data threads).
Proof.
  unfold threadUpdates. rewrite !Forall_app. repeat split;
    apply Forall_flat_map, List.Forall_forall; intros x _.
  - unfold bumpOne. destruct (findMatchingThread _ _ _); repeat constructor.
  - unfold resolveOne. destruct (findMatchingThread _ _ _); repeat constructor.
  - unfold acceptOne. destruct (findMatchingThread _ _ _); repeat constructor.
Qed.

Lemma notesOf_no_summary (data : AnalysisData) (ctx : Context) :
  Forall (fun e => isSummary e = false) (notesOf data ctx).
Proof.
  unfold notesOf, postGeneralNotes.
  destruct (hasItems (general_notes data)); simpl; repeat constructor.
Qed.

Lemma conclude_no_summary (env : Env) (ctx : Context) (data : AnalysisData) :
  Forall (fun e => isSummary e = false) (fst (conclude env ctx data)).
Proof.
  unfold conclude.
  destruct ((0 <? totalIssues (countIssues data))%nat || shouldBlock (countIssues data));
    [destruct (String.eqb (FAILURE_MODE env) "label")|]; simpl; repeat constructor.
Qed.

(** The whole run when the answer parses: the review, then the thread
    updates of a re-review, then the general notes, then the decision. *)
Lemma main_run (JSON_parse : string -> option AnalysisData) (env : Env)
    (ctx : Context) (data : AnalysisData) :
  credentialsPresent env ->
  parseAnalysisJSON JSON_parse (rawAnalysis ctx) = Some data ->
  exists vl code,
    parseDiffForValidLines (diff ctx) = Ok vl
    /\ snd (conclude env ctx data) = Ok code
    /\ check JSON_parse env ctx =
         (PostReview
            (buildReviewBody data (isReReviewOf ctx) (modelId ctx)
               (unplaceableOf vl (findingsForInline data (isReReviewOf ctx))))
            "COMMENT"
            (inlineOf vl (findingsForInline data (isReReviewOf ctx)))
          :: (if isReReviewOf ctx then threadUpdates data (reviewThreads ctx) else [])
             ++ notesOf data ctx ++ fst (conclude env ctx data),
          Ok code)
    /\ main JSON_parse env (Ok ctx) =
         {| effects :=
              PostReview
                (buildReviewBody data (isReReviewOf ctx) (modelId ctx)
                   (unplaceableOf vl (findingsForInline data (isReReviewOf ctx))))
                "COMMENT"
                (inlineOf vl (findingsForInline data (isReReviewOf ctx)))
              :: (if isReReviewOf ctx then threadUpdates data (reviewThreads ctx) else [])
                 ++ notesOf data ctx ++ fst (conclude env ctx data);
            exitCode := code |}.
Proof.
  intros Hc Hp.
  destruct (parseDiffForValidLines_total (diff ctx)) as [vl Hvl].
  destruct (conclude_ok env ctx data) as [code Hcode].
  exists vl, code. split; [exact Hvl|]. split; [exact Hcode|].
  pose proof (check_run JSON_parse env ctx data vl Hp Hvl) as Hrun.
  rewrite Hcode in Hrun. split; [exact Hrun|].
  now apply main_of_check.
Qed.

Lemma violation_iff (data : AnalysisData) :
  (0 <? totalIssues (countIssues data))%nat || shouldBlock (countIssues data) = true
  <-> allFindings data <> [] \/ status data = Some "BLOCK_MERGE".
Proof.
  rewrite orb_true_iff, shouldBlock_status. simpl.
  rewrite Nat.ltb_lt. destruct (allFindings data); simpl.
  - split; intros [H|H]; auto; [lia | contradiction].
  - split; intros _; left; [discriminate | lia].
Qed.

(** The three ways the decision can go. *)
Lemma conclude_cases (env : Env) (ctx : Context) (data : AnalysisData) :
  ((allFindings data <> [] \/ status data = Some "BLOCK_MERGE") ->
   (FAILURE_MODE env = "label" -> conclude env ctx data = ([AddNoncompliantLabel], Ok 0))
   /\ (FAILURE_MODE env <> "label" -> conclude env ctx data = ([], Ok 1)))
  /\ (allFindings data = [] -> status data <> Some "BLOCK_MERGE" ->
      conclude env ctx data =
        (fst (postSuccessComment (PR_NUMBER env) (modelId ctx)) ++ [RemoveLabel], Ok 0)).
Proof.
  unfold conclude. split.
  - intros Hv. apply violation_iff in Hv. rewrite Hv. split; intros Hl.
    + rewrite Hl. reflexivity.
    + apply String.eqb_neq in Hl. rewrite Hl. reflexivity.
  - intros He Hs.
    destruct ((0 <? totalIssues (countIssues data))%nat || shouldBlock (countIssues data))
      eqn:Hv; [|reflexivity].
    apply violation_iff in Hv as [Hv|Hv]; contradiction.
Qed.

(** ** Runs in which calls fail *)

Lemma postReviewW_run (data : AnalysisData) (diff modelId : string)
    (isReReview : bool) (threads : list Thread.t) (vl : gmap string (gset Z))
    (w : World) (n : nat) :
  parseDiffForValidLines diff = Ok vl ->
  postReviewW data diff modelId isReReview threads w n =
    match w n with
    | None => postReview data diff modelId isReReview threads
    | Some msg =>
        ([PostReview
            (buildReviewBody data isReReview modelId
               (unplaceableOf vl (findingsForInline data isReReview)))
            "COMMENT"
            (inlineOf vl (findingsForInline data isReReview))],
         Throw msg)
    end.
Proof.
  intros Hvl. rewrite (postReview_run _ _ _ _ _ vl Hvl).
  unfold postReviewW, andThenW, liftW, lift. rewrite Hvl.
  rewrite placeFindings_split. cbn [length app attempt].
  rewrite Nat.add_0_r.
  destruct (w n); [reflexivity|].
  destruct isReReview; reflexivity.
Qed.

(** With every call succeeding the run is the one of [check] and [main]. *)
Lemma checkW_allCallsSucceed (JSON_parse : string -> option AnalysisData) (env : Env)
    (ctx : Context) (n : nat) :
  checkW JSON_parse env ctx allCallsSucceed n = check JSON_parse env ctx.
Proof.
  unfold checkW, check.
  destruct (parseAnalysisJSON JSON_parse (rawAnalysis ctx)) as [data|]; [|reflexivity].
  destruct (parseDiffForValidLines_total (diff ctx)) as [vl Hvl].
  unfold andThenW at 1. unfold andThen at 1.
  rewrite (postReviewW_run _ _ _ _ _ vl _ _ Hvl). cbn [allCallsSucceed].
  rewrite (postReview_run _ _ _ _ _ vl Hvl).
  destruct (hasItems (general_notes data)) eqn:Hn;
    unfold postGeneralNotesW, postGeneralNotes; rewrite ?Hn;
    destruct ((0 <? totalIssues (countIssues data))%nat || shouldBlock (countIssues data));
    destruct (String.eqb (FAILURE_MODE env) "label");
    reflexivity.
Qed.

Lemma mainW_allCallsSucceed (JSON_parse : string -> option AnalysisData) (env : Env)
    (fetched : result Context) :
  mainW JSON_parse env fetched allCallsSucceed = main JSON_parse env fetched.
Proof.
  unfold mainW, main.
  destruct (negb (Js.truthy (GITHUB_TOKEN env))); [reflexivity|].
  destruct (negb (Js.truthy (BEDROCK_AWS_ACCESS_KEY_ID env))
            || negb (Js.truthy (BEDROCK_AWS_SECRET_ACCESS_KEY env))); [reflexivity|].
  destruct fetched as [ctx|msg]; [|reflexivity].
  unfold andThenW, andThen, liftW, lift. cbn [length app].
  rewrite checkW_allCallsSucceed.
  destruct (check JSON_parse env ctx) as [es [code|msg]]; reflexivity.
Qed.

Lemma callsBeforeDecision_eq (data : AnalysisData) (ctx : Context)
    (vl : gmap string (gset Z)) :
  parseDiffForValidLines (diff ctx) = Ok vl ->
  callsBeforeDecision data ctx =
    PostReview
      (buildReviewBody data (isReReviewOf ctx) (modelId ctx)
         (unplaceableOf vl (findingsForInline data (isReReviewOf ctx))))
      "COMMENT"
      (inlineOf vl (findingsForInline data (isReReviewOf ctx)))
    :: updatesOf data ctx ++ notesOf data ctx.
Proof.
  intros Hvl. unfold callsBeforeDecision.
  rewrite (postReview_run _ _ _ _ _ vl Hvl). reflexivity.
Qed.

(** The block once the decision is reached. *)
Lemma checkW_decided (JSON_parse : string -> option AnalysisData) (env : Env)
    (ctx : Context) (data : AnalysisData) (w : World) :
  parseAnalysisJSON JSON_parse (rawAnalysis ctx) = Some data ->
  decisionReached w data ctx ->
  checkW JSON_parse env ctx w 0%nat =
    if (0 <? totalIssues (countIssues data))%nat || shouldBlock (countIssues data) then
      if String.eqb (FAILURE_MODE env) "label"
      then (callsBeforeDecision data ctx ++ [AddNoncompliantLabel], Ok 0)
      else (callsBeforeDecision data ctx, Ok 1)
    else
      match w (length (callsBeforeDecision data ctx)) with
      | None => (callsBeforeDecision data ctx ++ [successComment env ctx; RemoveLabel], Ok 0)
      | Some msg => (callsBeforeDecision data ctx ++ [successComment env ctx], Throw msg)
      end.
Proof.
  intros Hp [H0 Hn]. unfold checkW. rewrite Hp.
  destruct (parseDiffForValidLines_total (diff ctx)) as [vl Hvl].
  unfold callsBeforeDecision, notesOf, updatesOf in *.
  fold (isReReviewOf ctx).
  unfold andThenW at 1.
  rewrite (postReviewW_run _ _ _ _ _ vl _ _ Hvl), H0.
  rewrite (postReview_run _ _ _ _ _ vl Hvl).
  cbn [fst length Nat.add].
  set (R := PostReview _ _ _).
  set (U := if isReReviewOf ctx then threadUpdates data (reviewThreads ctx) else []) in *.
  set (viol := (0 <? totalIssues (countIssues data))%nat || shouldBlock (countIssues data)).
  set (lab := String.eqb (FAILURE_MODE env) "label").
  assert (Hlen : forall N : list Effect,
             length ((R :: U) ++ N) = (S (length U) + length N)%nat).
  { intros N. rewrite length_app. reflexivity. }
  rewrite Hlen.
  destruct (hasItems (general_notes data)) eqn:HN.
  - pose proof (Hn eq_refl) as Hn'.
    destruct viol, lab;
      cbv beta iota zeta delta [andThenW postGeneralNotesW postGeneralNotes
        postSuccessCommentW postSuccessComment postCommentW postComment attempt
        attemptCaught retW ret emit successComment negb fst];
      rewrite ?HN; cbv beta iota delta [negb]; rewrite ?Hn';
      try match goal with |- context [w ?k] => destruct (w k) end;
      rewrite <- ?app_assoc; reflexivity.
  - destruct viol, lab;
      cbv beta iota zeta delta [andThenW postSuccessCommentW postSuccessComment
        postCommentW postComment attempt attemptCaught retW ret emit
        successComment negb fst];
      try match goal with |- context [w ?k] => destruct (w k) end;
      rewrite <- ?app_assoc; reflexivity.
Qed.

(** The review call fails: the block stops there. *)
Lemma checkW_review_fails (JSON_parse : string -> option AnalysisData) (env : Env)
    (ctx : Context) (data : AnalysisData) (w : World) (msg : string) :
  parseAnalysisJSON JSON_parse (rawAnalysis ctx) = Some data ->
  w 0%nat = Some msg ->
  checkW JSON_parse env ctx w 0%nat = (firstn 1 (callsBeforeDecision data ctx), Throw msg).
Proof.
  intros Hp H0. unfold checkW. rewrite Hp.
  destruct (parseDiffForValidLines_total (diff ctx)) as [vl Hvl].
  rewrite (callsBeforeDecision_eq _ _ vl Hvl).
  fold (isReReviewOf ctx). unfold andThenW at 1.
  rewrite (postReviewW_run _ _ _ _ _ vl _ _ Hvl), H0. reflexivity.
Qed.

(** The comment of the general notes fails: the block stops there. *)
Lemma checkW_notes_fail (JSON_parse : string -> option AnalysisData) (env : Env)
    (ctx : Context) (data : AnalysisData) (w : World) (msg : string) :
  parseAnalysisJSON JSON_parse (rawAnalysis ctx) = Some data ->
  w 0%nat = None ->
  hasItems (general_notes data) = true ->
  w (S (length (updatesOf data ctx))) = Some msg ->
  checkW JSON_parse env ctx w 0%nat = (callsBeforeDecision data ctx, Throw msg).
Proof.
  intros Hp H0 HN Hn. unfold checkW. rewrite Hp.
  destruct (parseDiffForValidLines_total (diff ctx)) as [vl Hvl].
  rewrite (callsBeforeDecision_eq _ _ vl Hvl).
  unfold notesOf, updatesOf in *.
  fold (isReReviewOf ctx). unfold andThenW at 1.
  rewrite (postReviewW_run _ _ _ _ _ vl _ _ Hvl), H0.
  rewrite (postReview_run _ _ _ _ _ vl Hvl).
  cbn [fst length Nat.add].
  set (R := PostReview _ _ _).
  set (U := if isReReviewOf ctx then threadUpdates data (reviewThreads ctx) else []) in *.
  cbv beta iota zeta delta [andThenW postGeneralNotesW postGeneralNotes postCommentW
    postComment attempt retW ret emit negb fst].
  rewrite HN. cbv beta iota delta [negb]. rewrite Hn. reflexivity.
Qed.

Lemma decisionReached_dec (w : World) (data : AnalysisData) (ctx : Context) :
  decisionReached w data ctx
  \/ (exists msg, w 0%nat = Some msg)
  \/ (w 0%nat = None /\ hasItems (general_notes data) = true
      /\ exists msg, w (S (length (updatesOf data ctx))) = Some msg).
Proof.
  unfold decisionReached.
  destruct (w 0%nat) as [msg|] eqn:H0; [right; left; eauto|].
  destruct (hasItems (general_notes data)) eqn:HN.
  - destruct (w (S (length (updatesOf data ctx)))) as [msg|] eqn:Hn.
    + right. right. eauto.
    + left. auto.
  - left. split; [reflexivity | discriminate].
Qed.

Lemma mainW_no_credentials (JSON_parse : string -> option AnalysisData) (env : Env)
    (fetched : result Context) (w : World) :
  negb (Js.truthy (GITHUB_TOKEN env))
  || (negb (Js.truthy (BEDROCK_AWS_ACCESS_KEY_ID env))
      || negb (Js.truthy (BEDROCK_AWS_SECRET_ACCESS_KEY env))) = true ->
  mainW JSON_parse env fetched w = {| effects := []; exitCode := 1 |}.
Proof.
  intros H. unfold mainW.
  destruct (negb (Js.truthy (GITHUB_TOKEN env))); [reflexivity|].
  simpl in H. rewrite H. reflexivity.
Qed.

Lemma mainW_fetch_error (JSON_parse : string -> option AnalysisData) (env : Env)
    (msg : string) (w : World) :
  credentialsPresent env ->
  mainW JSON_parse env (Throw msg) w
  = {| effects := [noticeComment msg]; exitCode := 1 |}.
Proof.
  intros (H1 & H2 & H3). unfold mainW. rewrite H1, H2, H3. reflexivity.
Qed.

Lemma mainW_of_checkW (JSON_parse : string -> option AnalysisData) (env : Env)
    (ctx : Context) (w : World) (es : list Effect) (code : Z) :
  credentialsPresent env ->
  checkW JSON_parse env ctx w 0%nat = (es, Ok code) ->
  mainW JSON_parse env (Ok ctx) w = {| effects := es; exitCode := code |}.
Proof.
  intros (H1 & H2 & H3) Hc. unfold mainW. rewrite H1, H2, H3.
  cbn [negb orb]. unfold andThenW, liftW, lift. cbn [length Nat.add app].
  rewrite Hc. reflexivity.
Qed.

Lemma mainW_of_throw (JSON_parse : string -> option AnalysisData) (env : Env)
    (ctx : Context) (w : World) (es : list Effect) (msg : string) :
  credentialsPresent env ->
  checkW JSON_parse env ctx w 0%nat = (es, Throw msg) ->
  mainW JSON_parse env (Ok ctx) w
  = {| effects := es ++ [noticeComment msg]; exitCode := 1 |}.
Proof.
  intros (H1 & H2 & H3) Hc. unfold mainW. rewrite H1, H2, H3.
  cbn [negb orb]. unfold andThenW, liftW, lift. cbn [length Nat.add app].
  rewrite Hc. reflexivity.
Qed.

Lemma checkW_unparseable (JSON_parse : string -> option AnalysisData) (env : Env)
    (ctx : Context) (w : World) (n : nat) :
  parseAnalysisJSON JSON_parse (rawAnalysis ctx) = None ->
  checkW JSON_parse env ctx w n
  = ([], Throw "Analysis did not return a parseable JSON response").
Proof. intros H. unfold checkW. rewrite H. reflexivity. Qed.

(** No label is touched before the decision. *)
Lemma callsBeforeDecision_no_label (data : AnalysisData) (ctx : Context) :
  ~ In AddNoncompliantLabel (callsBeforeDecision data ctx)
  /\ ~ In RemoveLabel (callsBeforeDecision data ctx).
Proof.
  destruct (parseDiffForValidLines_total (diff ctx)) as [vl Hvl].
  rewrite (callsBeforeDecision_eq _ _ vl Hvl).
  assert (Hu : Forall (fun e => isThreadUpdate e = true) (updatesOf data ctx)).
  { unfold updatesOf. destruct (isReReviewOf ctx); [apply threadUpdates_all | constructor]. }
  assert (Hn : Forall (fun e => isThreadUpdate e = false -> isSummary e = false
                                -> exists b, e = PostComment b) (notesOf data ctx)).
  { unfold notesOf, postGeneralNotes.
    destruct (hasItems (general_notes data)); simpl; repeat constructor; eauto. }
  rewrite List.Forall_forall in Hu, Hn.
  split; intros [H|H]; try discriminate;
    apply in_app_iff in H as [H|H];
    try (apply Hu in H; discriminate);
    apply Hn in H; try reflexivity; destruct H as [b H]; discriminate.
Qed.

(** ** The verdict *)

(** C1, as the code has it. The block flag is the [status] member of the
    parsed answer compared with BLOCK_MERGE; it is not computed from the
    findings. Once the review and the comment of the general notes are
    posted, the run fails (exit code 1, no call added) or, in label mode,
    labels the pull request and exits with 0, as soon as there is any
    finding, of whatever priority, or the flag is set. With no finding and
    the flag unset it attempts the success comment and, that posted,
    removes the label and exits with 0; an error of the success comment
    ends the run with the fallback notice and exit code 1. No call before
    the decision touches the label, so a passing run never adds it. *)
Theorem verdict_is_status_and_any_finding_fails
    (JSON_parse : string -> option AnalysisData) (env : Env) (ctx : Context)
    (data : AnalysisData) (w : World) :
  credentialsPresent env ->
  parseAnalysisJSON JSON_parse (rawAnalysis ctx) = Some data ->
  decisionReached w data ctx ->
  (shouldBlock (countIssues data) = true <-> status data = Some "BLOCK_MERGE")
  /\ (allFindings data <> [] \/ status data = Some "BLOCK_MERGE" ->
      (FAILURE_MODE env <> "label" ->
       mainW JSON_parse env (Ok ctx) w
       = {| effects := callsBeforeDecision data ctx; exitCode := 1 |})
      /\ (FAILURE_MODE env = "label" ->
          mainW JSON_parse env (Ok ctx) w
          = {| effects := callsBeforeDecision data ctx ++ [AddNoncompliantLabel];
               exitCode := 0 |}))
  /\ (allFindings data = [] -> status data <> Some "BLOCK_MERGE" ->
      (w (length (callsBeforeDecision data ctx)) = None ->
       mainW JSON_parse env (Ok ctx) w
       = {| effects := callsBeforeDecision data ctx
                       ++ [successComment env ctx; RemoveLabel];
            exitCode := 0 |})
      /\ (forall msg, w (length (callsBeforeDecision data ctx)) = Some msg ->
          mainW JSON_parse env (Ok ctx) w
          = {| effects := callsBeforeDecision data ctx
                          ++ [successComment env ctx; noticeComment msg];
               exitCode := 1 |}))
  /\ ~ In AddNoncompliantLabel (callsBeforeDecision data ctx)
  /\ ~ In RemoveLabel (callsBeforeDecision data ctx).
Proof.
  intros Hc Hp Hd.
  pose proof (checkW_decided JSON_parse env ctx data w Hp Hd) as Hrun.
  split; [apply shouldBlock_status|]. split; [|split].
  - intros Hv. apply violation_iff in Hv. rewrite Hv in Hrun. split; intros Hl.
    + apply String.eqb_neq in Hl. rewrite Hl in Hrun.
      exact (mainW_of_checkW _ _ _ _ _ _ Hc Hrun).
    + apply String.eqb_eq in Hl. rewrite Hl in Hrun.
      exact (mainW_of_checkW _ _ _ _ _ _ Hc Hrun).
  - intros He Hs.
    destruct ((0 <? totalIssues (countIssues data))%nat || shouldBlock (countIssues data))
      eqn:Hv.
    { apply violation_iff in Hv as [Hv|Hv]; contradiction. }
    split.
    + intros Hw. rewrite Hw in Hrun. exact (mainW_of_checkW _ _ _ _ _ _ Hc Hrun).
    + intros msg Hw. rewrite Hw in Hrun.
      rewrite (mainW_of_throw _ _ _ _ _ _ Hc Hrun), <- app_assoc. reflexivity.
  - apply callsBeforeDecision_no_label.
Qed.

Lemma verdict_is_status_and_any_finding_fails_witness :
  credentialsPresent Sample.envFail
  /\ parseAnalysisJSON (Sample.reads Sample.dataOther) (rawAnalysis Sample.ctxOther)
     = Some Sample.dataOther
  /\ decisionReached allCallsSucceed Sample.dataOther Sample.ctxOther
  /\ (shouldBlock (countIssues Sample.dataOther) = true
      <-> status Sample.dataOther = Some "BLOCK_MERGE")
  /\ mainW (Sample.reads Sample.dataOther) Sample.envFail (Ok Sample.ctxOther)
       allCallsSucceed
     = {| effects := callsBeforeDecision Sample.dataOther Sample.ctxOther;
          exitCode := 1 |}.
Proof.
  assert (Hc : credentialsPresent Sample.envFail) by (repeat split).
  assert (Hp : parseAnalysisJSON (Sample.reads Sample.dataOther)
                 (rawAnalysis Sample.ctxOther) = Some Sample.dataOther)
    by (vm_compute; reflexivity).
  assert (Hd : decisionReached allCallsSucceed Sample.dataOther Sample.ctxOther)
    by (split; [reflexivity | intros _; reflexivity]).
  assert (Hv : allFindings Sample.dataOther <> []
               \/ status Sample.dataOther = Some "BLOCK_MERGE")
    by (left; discriminate).
  assert (Hl : FAILURE_MODE Sample.envFail <> "label") by discriminate.
  split; [exact Hc|]. split; [exact Hp|]. split; [exact Hd|].
  destruct (verdict_is_status_and_any_finding_fails
              (Sample.reads Sample.dataOther) Sample.envFail Sample.ctxOther
              Sample.dataOther allCallsSucceed Hc Hp Hd) as (Hflag & Hviol & _).
  split; [exact Hflag|].
  exact (proj1 (Hviol Hv) Hl).
Defined.

(** C1 as stated fails. With one finding of priority [other], no must-fix
    finding and status APPROVED, the flag is unset and yet the run fails;
    a must-fix finding under status APPROVED leaves the flag unset; status
    BLOCK_MERGE without any finding sets it. *)
Lemma verdict_not_from_findings :
  (parseAnalysisJSON (Sample.reads Sample.dataOther) (rawAnalysis Sample.ctxOther)
   = Some Sample.dataOther
   /\ allFindings Sample.dataOther = [Sample.fOther]
   /\ Finding.priority Sample.fOther = "other"
   /\ shouldBlock (countIssues Sample.dataOther) = false
   /\ exitCode (main (Sample.reads Sample.dataOther) Sample.envFail (Ok Sample.ctxOther)) = 1)
  /\ (allFindings Sample.dataMustApproved = [Sample.fMust]
      /\ Finding.priority Sample.fMust = "must_fix"
      /\ shouldBlock (countIssues Sample.dataMustApproved) = false)
  /\ (allFindings Sample.dataBlockEmpty = []
      /\ shouldBlock (countIssues Sample.dataBlockEmpty) = true).
Proof.
  split; [|split].
  - split; [vm_compute; reflexivity|]. split; [reflexivity|].
    split; [reflexivity|]. split; [reflexivity|]. vm_compute. reflexivity.
  - split; [reflexivity|]. split; reflexivity.
  - split; reflexivity.
Qed.

(** In label mode the same answer labels the pull request and the process
    ends normally. *)
Example label_mode_labels_and_continues :
  exists body comments,
    main (Sample.reads Sample.dataOther) Sample.envLabel (Ok Sample.ctxOther) =
      {| effects := [PostReview body "COMMENT" comments; AddNoncompliantLabel];
         exitCode := 0 |}.
Proof. do 2 eexists. vm_compute. reflexivity. Qed.

(** ** Priorities outside the schema *)

Lemma filter_two_lengths {A : Type} (p q : A -> bool) (l : list A) (a : A) :
  (forall x, p x = true -> q x = false) ->
  In a l -> p a = false -> q a = false ->
  (length (List.filter p l) + length (List.filter q l) < length l)%nat.
Proof.
  intros Hdisj.
  assert (Hle : forall l', (length (List.filter p l') + length (List.filter q l')
                            <= length l')%nat).
  { induction l' as [|x l' IH]; simpl; [lia|].
    destruct (p x) eqn:Ep; [rewrite (Hdisj x Ep)|destruct (q x)]; simpl; lia. }
  induction l as [|x l IH]; simpl; [contradiction|].
  intros [->|Hin] Hp Hq.
  - rewrite Hp, Hq. specialize (Hle l). lia.
  - specialize (IH Hin Hp Hq).
    destruct (p x) eqn:Ep; [rewrite (Hdisj x Ep)|destruct (q x)]; simpl; lia.
Qed.

(** C5, as the code has it. A finding whose priority is neither
    [must_fix] nor [other] raises no error: the [try] block of the run ends
    without an exception and the review is posted. The finding is counted in
    the total and in neither priority count, and it is shown with the icon
    of priority [other]. *)
Theorem unknown_priority_is_accepted
    (JSON_parse : string -> option AnalysisData) (env : Env) (ctx : Context)
    (data : AnalysisData) (f : Finding.t) :
  credentialsPresent env ->
  parseAnalysisJSON JSON_parse (rawAnalysis ctx) = Some data ->
  In f (allFindings data) ->
  Finding.priority f <> "must_fix" -> Finding.priority f <> "other" ->
  (exists body comments rest code,
     check JSON_parse env ctx = (PostReview body "COMMENT" comments :: rest, Ok code)
     /\ main JSON_parse env (Ok ctx) =
          {| effects := PostReview body "COMMENT" comments :: rest; exitCode := code |})
  /\ (highPriorityCount (countIssues data) + mediumPriorityCount (countIssues data)
      < totalIssues (countIssues data))%nat
  /\ priorityIcon (Finding.priority f) = "🟡".
Proof.
  intros Hc Hp Hin Hm Ho. split; [|split].
  - destruct (main_run JSON_parse env ctx data Hc Hp) as (vl & code & _ & _ & H1 & H2).
    eauto 10.
  - simpl. apply (filter_two_lengths _ _ _ f); auto.
    + unfold hasPriority. intros x Hx. apply String.eqb_eq in Hx. now rewrite Hx.
    + now apply String.eqb_neq.
    + now apply String.eqb_neq.
  - unfold priorityIcon. apply String.eqb_neq in Hm. now rewrite Hm.
Qed.

Lemma unknown_priority_is_accepted_witness :
  credentialsPresent Sample.envFail
  /\ parseAnalysisJSON (Sample.reads Sample2.dataCritical) (rawAnalysis Sample2.ctxCritical)
     = Some Sample2.dataCritical
  /\ In Sample2.fCritical (allFindings Sample2.dataCritical)
  /\ Finding.priority Sample2.fCritical <> "must_fix"
  /\ Finding.priority Sample2.fCritical <> "other"
  /\ (highPriorityCount (countIssues Sample2.dataCritical)
      + mediumPriorityCount (countIssues Sample2.dataCritical)
      < totalIssues (countIssues Sample2.dataCritical))%nat
  /\ priorityIcon (Finding.priority Sample2.fCritical) = "🟡".
Proof.
  assert (Hc : credentialsPresent Sample.envFail) by (repeat split).
  assert (Hp : parseAnalysisJSON (Sample.reads Sample2.dataCritical)
                 (rawAnalysis Sample2.ctxCritical) = Some Sample2.dataCritical)
    by (vm_compute; reflexivity).
  assert (Hin : In Sample2.fCritical (allFindings Sample2.dataCritical))
    by (left; reflexivity).
  assert (Hm : Finding.priority Sample2.fCritical <> "must_fix") by discriminate.
  assert (Ho : Finding.priority Sample2.fCritical <> "other") by discriminate.
  repeat (split; [assumption|]).
  exact (proj2 (unknown_priority_is_accepted (Sample.reads Sample2.dataCritical)
                  Sample.envFail Sample2.ctxCritical Sample2.dataCritical
                  Sample2.fCritical Hc Hp Hin Hm Ho)).
Defined.

(** C5 as stated fails. The priority "critical" is outside the schema; the
    answer parses, the run throws nothing, the finding is posted as an
    inline comment with the icon of [other] and is counted in the total,
    while both priority counts are zero. *)
Lemma unknown_priority_not_rejected :
  Finding.priority Sample2.fCritical = "critical"
  /\ parseAnalysisJSON (Sample.reads Sample2.dataCritical) (rawAnalysis Sample2.ctxCritical)
     = Some Sample2.dataCritical
  /\ (exists body,
        check (Sample.reads Sample2.dataCritical) Sample.envFail Sample2.ctxCritical
        = ([PostReview body "COMMENT" [inlineCommentOf Sample2.fCritical]], Ok 1))
  /\ Js.startsWith (ic_body (inlineCommentOf Sample2.fCritical)) "🟡 **Race condition" = true
  /\ totalIssues (countIssues Sample2.dataCritical) = 1%nat
  /\ highPriorityCount (countIssues Sample2.dataCritical) = 0%nat
  /\ mediumPriorityCount (countIssues Sample2.dataCritical) = 0%nat.
Proof.
  split; [reflexivity|]. split; [vm_compute; reflexivity|].
  split; [eexists; vm_compute; reflexivity|].
  repeat split.
Qed.

(** ** An answer that does not parse *)

(** C8. When no JSON block can be read from the model's answer, the run
    issues one call only, the fallback notice, and exits with code 1: no
    review, no inline comment, no reply and no resolution. *)
Theorem unparseable_answer_is_fatal
    (JSON_parse : string -> option AnalysisData) (env : Env) (ctx : Context) :
  credentialsPresent env ->
  parseAnalysisJSON JSON_parse (rawAnalysis ctx) = None ->
  main JSON_parse env (Ok ctx) =
    {| effects :=
         [PostComment
            (fallbackNotice "Analysis did not return a parseable JSON response")];
       exitCode := 1 |}.
Proof.
  intros (H1 & H2 & H3) Hp. unfold main. rewrite H1, H2, H3.
  cbn [negb orb lift andThen]. unfold check. rewrite Hp.
  vm_compute. reflexivity.
Qed.

Lemma unparseable_answer_is_fatal_witness :
  credentialsPresent Sample.envFail
  /\ parseAnalysisJSON (Sample.reads Sample.dataOther) (rawAnalysis Sample2.ctxProse) = None
  /\ main (Sample.reads Sample.dataOther) Sample.envFail (Ok Sample2.ctxProse) =
       {| effects :=
            [PostComment
               (fallbackNotice "Analysis did not return a parseable JSON response")];
          exitCode := 1 |}.
Proof.
  assert (Hc : credentialsPresent Sample.envFail) by (repeat split).
  assert (Hp : parseAnalysisJSON (Sample.reads Sample.dataOther)
                 (rawAnalysis Sample2.ctxProse) = None) by reflexivity.
  split; [exact Hc|]. split; [exact Hp|].
  exact (unparseable_answer_is_fatal (Sample.reads Sample.dataOther) Sample.envFail
           Sample2.ctxProse Hc Hp).
Defined.

(** A block that is fenced but is not JSON is as fatal as no block. *)
Example broken_block_is_fatal :
  jsonBlock ("```json" +:+ nl +:+ "{status: oops" +:+ nl +:+ "```") = Some "{status: oops"
  /\ effects (main (fun _ => None) Sample.envFail
                (Ok (mkContext [thrSql] "opus" Sample.diffDb
                       ("```json" +:+ nl +:+ "{status: oops" +:+ nl +:+ "```"))))
     = [PostComment (fallbackNotice "Analysis did not return a parseable JSON response")].
Proof. split; vm_compute; reflexivity. Qed.

(** ** Findings that cannot be placed on a line *)

(** C7, as the code has it. A finding offered for an inline comment (an
    entry of [findings] on a first review, of [new_findings] on a
    re-review) whose line is not an anchor raises no error and is not
    dropped: the review is posted and its body holds the finding's entry,
    with [body || title] in full. A must-fix finding routed this way is
    still counted (must-fix count and total), so the run fails or labels the
    pull request. The block flag is the [status] member and owes nothing to
    the finding. *)
Theorem unplaceable_finding_goes_to_review_body
    (JSON_parse : string -> option AnalysisData) (env : Env) (ctx : Context)
    (data : AnalysisData) (vl : gmap string (gset Z)) (f : Finding.t) :
  credentialsPresent env ->
  parseAnalysisJSON JSON_parse (rawAnalysis ctx) = Some data ->
  parseDiffForValidLines (diff ctx) = Ok vl ->
  In f (findingsForInline data (isReReviewOf ctx)) ->
  isValidAnchor vl (Finding.path f) (Finding.line f) = false ->
  exists body comments rest code,
    check JSON_parse env ctx = (PostReview body "COMMENT" comments :: rest, Ok code)
    /\ main JSON_parse env (Ok ctx) =
         {| effects := PostReview body "COMMENT" comments :: rest; exitCode := code |}
    /\ occursIn (unplaceableEntry f) body
    /\ occursIn (Js.orElse (Finding.body f) (Finding.title f)) body
    /\ (Finding.priority f = "must_fix" ->
        (1 <= highPriorityCount (countIssues data))%nat
        /\ (1 <= totalIssues (countIssues data))%nat
        /\ (FAILURE_MODE env <> "label" -> code = 1)
        /\ (FAILURE_MODE env = "label" -> In AddNoncompliantLabel rest))
    /\ (shouldBlock (countIssues data) = true <-> status data = Some "BLOCK_MERGE").
Proof.
  intros Hc Hp Hvl Hin Hbad.
  destruct (main_run JSON_parse env ctx data Hc Hp) as (vl' & code & Hvl' & Hcode & H1 & H2).
  assert (vl' = vl) as -> by congruence.
  do 4 eexists. split; [exact H1|]. split; [exact H2|].
  assert (Hentry : occursIn (unplaceableEntry f)
            (buildReviewBody data (isReReviewOf ctx) (modelId ctx)
               (unplaceableOf vl (findingsForInline data (isReReviewOf ctx))))).
  { apply buildReviewBody_unplaceable. unfold unplaceableOf. apply filter_In.
    split; [exact Hin|]. unfold placeable. now rewrite Hbad. }
  split; [exact Hentry|].
  split; [eapply occursIn_trans; [apply unplaceableEntry_body | exact Hentry]|].
  split; [|apply shouldBlock_status].
  intros Hm.
  pose proof (findingsForInline_all _ _ _ Hin) as Hall.
  destruct (count_must_fix data f Hall Hm) as [Hh Ht].
  split; [exact Hh|]. split; [exact Ht|].
  assert (Hv : allFindings data <> [] \/ status data = Some "BLOCK_MERGE").
  { left. intros E. rewrite E in Hall. contradiction. }
  destruct (proj1 (conclude_cases env ctx data) Hv) as [Hlab Hfail]. split.
  - intros Hl. rewrite (Hfail Hl) in Hcode. simpl in Hcode. congruence.
  - intros Hl. rewrite (Hlab Hl). rewrite !in_app_iff. right. right. simpl. auto.
Qed.

Lemma diff50_anchors :
  exists vl, parseDiffForValidLines Sample2.diff50 = Ok vl
             /\ isValidAnchor vl "src/a.ts" 1 = true
             /\ isValidAnchor vl "src/a.ts" 50 = true
             /\ isValidAnchor vl "src/a.ts" 51 = false
             /\ isValidAnchor vl "src/a.ts" 999 = false.
Proof. eexists. split; [vm_compute; reflexivity|]. repeat split. Qed.

Lemma unplaceable_finding_goes_to_review_body_witness :
  exists vl,
    credentialsPresent Sample.envFail
    /\ parseAnalysisJSON (Sample.reads Sample2.dataFar) (rawAnalysis Sample2.ctxFar)
       = Some Sample2.dataFar
    /\ parseDiffForValidLines (diff Sample2.ctxFar) = Ok vl
    /\ In Sample2.fFar (findingsForInline Sample2.dataFar (isReReviewOf Sample2.ctxFar))
    /\ isValidAnchor vl (Finding.path Sample2.fFar) (Finding.line Sample2.fFar) = false
    /\ exists body comments rest code,
         main (Sample.reads Sample2.dataFar) Sample.envFail (Ok Sample2.ctxFar) =
           {| effects := PostReview body "COMMENT" comments :: rest; exitCode := code |}
         /\ occursIn (unplaceableEntry Sample2.fFar) body.
Proof.
  destruct diff50_anchors as (vl & Hvl & _ & _ & _ & Hbad).
  exists vl.
  assert (Hc : credentialsPresent Sample.envFail) by (repeat split).
  assert (Hp : parseAnalysisJSON (Sample.reads Sample2.dataFar)
                 (rawAnalysis Sample2.ctxFar) = Some Sample2.dataFar)
    by (vm_compute; reflexivity).
  assert (Hin : In Sample2.fFar
                  (findingsForInline Sample2.dataFar (isReReviewOf Sample2.ctxFar)))
    by (left; reflexivity).
  repeat (split; [assumption|]).
  destruct (unplaceable_finding_goes_to_review_body
              (Sample.reads Sample2.dataFar) Sample.envFail Sample2.ctxFar
              Sample2.dataFar vl Sample2.fFar Hc Hp Hvl Hin Hbad)
    as (body & comments & rest & code & _ & Hmain & Hocc & _).
  exists body, comments, rest, code. split; [exact Hmain | exact Hocc].
Defined.

(** C7 as stated fails in its last part. The must-fix finding on line 999
    (anchors 1 to 50) reaches the review body in full, but with status
    APPROVED the block flag stays unset: the finding does not count towards
    it. The run fails all the same, as it does for any finding. *)
Lemma unplaceable_must_fix_not_in_flag :
  exists vl body,
    parseDiffForValidLines (diff Sample2.ctxFar) = Ok vl
    /\ isValidAnchor vl "src/a.ts" 999 = false
    /\ Finding.priority Sample2.fFar = "must_fix"
    /\ main (Sample.reads Sample2.dataFar) Sample.envFail (Ok Sample2.ctxFar) =
         {| effects := [PostReview body "COMMENT" []]; exitCode := 1 |}
    /\ Js.includes body (unplaceableEntry Sample2.fFar) = true
    /\ Js.includes body "**Status:** ✅ APPROVED" = true
    /\ shouldBlock (countIssues Sample2.dataFar) = false.
Proof.
  do 2 eexists. split; [vm_compute; reflexivity|].
  split; [vm_compute; reflexivity|]. split; [reflexivity|].
  split; [vm_compute; reflexivity|].
  split; [vm_compute; reflexivity|]. split; [vm_compute; reflexivity | reflexivity].
Qed.

(** ** Re-reviews: inline comments and thread updates *)

Lemma bump_in_updates (data : AnalysisData) (threads : list Thread.t)
    (f : Finding.t) (t : Thread.t) :
  In f (orNil (persisting data)) ->
  findMatchingThread threads (Finding.title f) (Some (Finding.path f)) = Some t ->
  In (ReplyToReviewComment (Thread.firstCommentId t) (bumpBody f))
     (threadUpdates data threads).
Proof.
  intros Hin Hm. unfold threadUpdates. rewrite in_app_iff. left.
  apply in_flat_map. exists f. split; [exact Hin|].
  unfold bumpOne. rewrite Hm. left. reflexivity.
Qed.

Lemma inlineOf_in (vl : gmap string (gset Z)) (fs : list Finding.t) (f : Finding.t) :
  In f fs -> isValidAnchor vl (Finding.path f) (Finding.line f) = true ->
  In (inlineCommentOf f) (inlineOf vl fs).
Proof.
  intros Hin Hv. unfold inlineOf. apply in_map, filter_In. auto.
Qed.

(** C2, as the code has it. On a re-review the inline comments of the
    review are made from [new_findings] alone, one for every entry whose
    line is an anchor, whether or not an open thread matches the entry. The
    entries of [persisting] give no inline comment: each one that matches a
    thread gives a bump reply on that thread, issued after the review. *)
Theorem rereview_inline_comments_from_new_findings
    (JSON_parse : string -> option AnalysisData) (env : Env) (ctx : Context)
    (data : AnalysisData) (vl : gmap string (gset Z)) :
  credentialsPresent env ->
  parseAnalysisJSON JSON_parse (rawAnalysis ctx) = Some data ->
  parseDiffForValidLines (diff ctx) = Ok vl ->
  reviewThreads ctx <> [] ->
  exists body rest,
    effects (main JSON_parse env (Ok ctx)) =
      PostReview body "COMMENT" (inlineOf vl (orNil (new_findings data)))
      :: threadUpdates data (reviewThreads ctx) ++ rest
    /\ Forall (fun e => isSummary e = false) rest
    /\ (forall f, In f (orNil (new_findings data)) ->
          isValidAnchor vl (Finding.path f) (Finding.line f) = true ->
          In (inlineCommentOf f) (inlineOf vl (orNil (new_findings data))))
    /\ (forall f t, In f (orNil (persisting data)) ->
          findMatchingThread (reviewThreads ctx) (Finding.title f)
            (Some (Finding.path f)) = Some t ->
          In (ReplyToReviewComment (Thread.firstCommentId t) (bumpBody f))
             (threadUpdates data (reviewThreads ctx))).
Proof.
  intros Hc Hp Hvl Hne.
  destruct (main_run JSON_parse env ctx data Hc Hp) as (vl' & code & Hvl' & _ & _ & ->).
  assert (vl' = vl) as -> by congruence.
  assert (Hre : isReReviewOf ctx = true).
  { unfold isReReviewOf. destruct (reviewThreads ctx); [contradiction | reflexivity]. }
  rewrite Hre. simpl. do 2 eexists. split; [reflexivity|]. split.
  - apply Forall_app. split; [apply notesOf_no_summary | apply conclude_no_summary].
  - split; [intros f; apply inlineOf_in | intros f t; apply bump_in_updates].
Qed.

Lemma diffDb_anchors :
  exists vl, parseDiffForValidLines Sample.diffDb = Ok vl
             /\ vl !! "src/db.ts" = Some ({[40; 41; 42; 43]} : gset Z)
             /\ isValidAnchor vl "src/db.ts" 42 = true.
Proof. eexists. split; [vm_compute; reflexivity|]. split; vm_compute; reflexivity. Qed.

Lemma rereview_inline_comments_from_new_findings_witness :
  exists vl,
    credentialsPresent Sample.envFail
    /\ parseAnalysisJSON (Sample.reads Sample2.dataBump) (rawAnalysis Sample2.ctxBump)
       = Some Sample2.dataBump
    /\ parseDiffForValidLines (diff Sample2.ctxBump) = Ok vl
    /\ reviewThreads Sample2.ctxBump <> []
    /\ exists body rest,
         effects (main (Sample.reads Sample2.dataBump) Sample.envFail (Ok Sample2.ctxBump)) =
           PostReview body "COMMENT" (inlineOf vl (orNil (new_findings Sample2.dataBump)))
           :: threadUpdates Sample2.dataBump (reviewThreads Sample2.ctxBump) ++ rest
         /\ Forall (fun e => isSummary e = false) rest.
Proof.
  destruct diffDb_anchors as (vl & Hvl & _).
  exists vl.
  assert (Hc : credentialsPresent Sample.envFail) by (repeat split).
  assert (Hp : parseAnalysisJSON (Sample.reads Sample2.dataBump)
                 (rawAnalysis Sample2.ctxBump) = Some Sample2.dataBump)
    by (vm_compute; reflexivity).
  assert (Hne : reviewThreads Sample2.ctxBump <> []) by discriminate.
  repeat (split; [assumption|]).
  destruct (rereview_inline_comments_from_new_findings
              (Sample.reads Sample2.dataBump) Sample.envFail Sample2.ctxBump
              Sample2.dataBump vl Hc Hp Hvl Hne)
    as (body & rest & Heff & Hrest & _).
  exists body, rest. split; [exact Heff | exact Hrest].
Defined.

(** C2 as stated fails. The new finding and the open thread [thrSql] have
    the same normalised title and the same path, the matcher returns that
    thread for the finding, and the run still posts the finding as a new
    inline comment on line 42; no reply and no resolution is issued. *)
Lemma matched_new_finding_is_posted_inline :
  norm (Finding.title Sample2.fDup) = norm (Thread.botTitle thrSql)
  /\ Finding.path Sample2.fDup = Thread.path thrSql
  /\ findMatchingThread (reviewThreads Sample2.ctxDup) (Finding.title Sample2.fDup)
       (Some (Finding.path Sample2.fDup)) = Some thrSql
  /\ exists body,
       main (Sample.reads Sample2.dataDup) Sample.envFail (Ok Sample2.ctxDup) =
         {| effects := [PostReview body "COMMENT" [inlineCommentOf Sample2.fDup]];
            exitCode := 1 |}.
Proof.
  split; [vm_compute; reflexivity|]. split; [reflexivity|].
  split; [vm_compute; reflexivity|].
  eexists. vm_compute. reflexivity.
Qed.

(** ** Order of the calls *)

(** C3, as the code has it. The review, whose body is the summary, is the
    first call of the run; every bump reply, acknowledgement and resolution
    comes after it. The body is built from the parsed answer and the diff
    before any thread is touched. *)
Theorem summary_precedes_thread_updates
    (JSON_parse : string -> option AnalysisData) (env : Env) (ctx : Context)
    (data : AnalysisData) :
  credentialsPresent env ->
  parseAnalysisJSON JSON_parse (rawAnalysis ctx) = Some data ->
  summaryBeforeUpdates (effects (main JSON_parse env (Ok ctx)))
  /\ exists vl comments rest,
       parseDiffForValidLines (diff ctx) = Ok vl
       /\ effects (main JSON_parse env (Ok ctx)) =
            PostReview
              (buildReviewBody data (isReReviewOf ctx) (modelId ctx)
                 (unplaceableOf vl (findingsForInline data (isReReviewOf ctx))))
              "COMMENT" comments
            :: rest
       /\ Forall (fun e => isSummary e = false) rest.
Proof.
  intros Hc Hp.
  destruct (main_run JSON_parse env ctx data Hc Hp) as (vl & code & Hvl & _ & _ & ->).
  simpl.
  assert (Hrest : Forall (fun e => isSummary e = false)
            ((if isReReviewOf ctx then threadUpdates data (reviewThreads ctx) else [])
             ++ notesOf data ctx ++ fst (conclude env ctx data))).
  { rewrite !Forall_app. split; [|split].
    - destruct (isReReviewOf ctx); [|constructor].
      eapply List.Forall_impl; [|apply threadUpdates_all].
      intros e He. destruct e; simpl in *; congruence.
    - apply notesOf_no_summary.
    - apply conclude_no_summary. }
  split.
  - intros i j e1 e2 Hi Hj Hs Hu.
    destruct i as [|i].
    + destruct j as [|j]; [|lia].
      simpl in Hj. injection Hj as <-. discriminate.
    + simpl in Hi. apply list_elem_of_lookup_2, list_elem_of_In in Hi.
      rewrite List.Forall_forall in Hrest. rewrite (Hrest e1 Hi) in Hs. discriminate.
  - exists vl. do 2 eexists. split; [exact Hvl|]. split; [reflexivity | exact Hrest].
Qed.

Lemma summary_precedes_thread_updates_witness :
  credentialsPresent Sample.envFail
  /\ parseAnalysisJSON (Sample.reads Sample2.dataBump) (rawAnalysis Sample2.ctxBump)
     = Some Sample2.dataBump
  /\ summaryBeforeUpdates
       (effects (main (Sample.reads Sample2.dataBump) Sample.envFail (Ok Sample2.ctxBump))).
Proof.
  assert (Hc : credentialsPresent Sample.envFail) by (repeat split).
  assert (Hp : parseAnalysisJSON (Sample.reads Sample2.dataBump)
                 (rawAnalysis Sample2.ctxBump) = Some Sample2.dataBump)
    by (vm_compute; reflexivity).
  split; [exact Hc|]. split; [exact Hp|].
  exact (proj1 (summary_precedes_thread_updates (Sample.reads Sample2.dataBump)
                  Sample.envFail Sample2.ctxBump Sample2.dataBump Hc Hp)).
Defined.

(** C3 as stated fails. In this re-review the calls are the review, then
    the bump reply on [thrSql], then the resolution of [thrInjection]: the
    thread updates stand after the summary, not before it. *)
Lemma thread_updates_follow_summary :
  (exists body,
     effects (main (Sample.reads Sample2.dataBump) Sample.envFail (Ok Sample2.ctxBump)) =
       [PostReview body "COMMENT" [];
        ReplyToReviewComment 102
          "🔴 **Still open.** The query is still built by concatenation.";
        ResolveReviewThread "PRRT_a"])
  /\ ~ updatesBeforeSummary
         (effects (main (Sample.reads Sample2.dataBump) Sample.envFail (Ok Sample2.ctxBump))).
Proof.
  assert (H : exists body,
     effects (main (Sample.reads Sample2.dataBump) Sample.envFail (Ok Sample2.ctxBump)) =
       [PostReview body "COMMENT" [];
        ReplyToReviewComment 102
          "🔴 **Still open.** The query is still built by concatenation.";
        ResolveReviewThread "PRRT_a"])
    by (eexists; vm_compute; reflexivity).
  split; [exact H|].
  destruct H as [body ->]. intros Hord.
  specialize (Hord 1%nat 0%nat _ _ eq_refl eq_refl eq_refl eq_refl). lia.
Qed.

(** ** The resolver on arbitrary text *)

(** C10. The resolver returns a map for every text. Lines before the
    first file header leave the map empty and no file current. In every
    state the loop reaches, the current file has its set in the map, so the
    lookup made when a line is recorded finds it. A line that opens with
    [+++] changes neither the counter nor any anchor set, and the header of
    a deleted file changes nothing. *)
Theorem resolver_total_and_headers_inert :
  (forall diff : string, exists vl, parseDiffForValidLines diff = Ok vl)
  /\ (forall before : list string,
        Forall (fun l => fileMatch l = None) before ->
        exists st, parseLines initState before = Ok st
                   /\ validLines st = ∅ /\ currentFile st = None)
  /\ (forall (lines : list string) (st : ParseState),
        parseLines initState lines = Ok st ->
        (forall f, currentFile st = Some f -> is_Some (validLines st !! f))
        /\ (Js.truthy (currentFile st) = true -> exists st', addAnchor st = Ok st'))
  /\ (forall (st : ParseState) (hdr : string),
        Js.startsWith hdr "+++" = true ->
        exists st', parseLine st hdr = Ok st'
                    /\ newLineNum st' = newLineNum st
                    /\ forall f, anchorsOf (validLines st') f = anchorsOf (validLines st) f)
  /\ (forall st : ParseState, parseLine st "+++ /dev/null" = Ok st).
Proof.
  split; [exact parseDiffForValidLines_total|].
  split; [intros before Hb; now apply parseLines_before_header|].
  split.
  - intros lines st H. pose proof (parseLines_entryPresent lines st H) as Hinv.
    split; [exact Hinv|].
    intros Ht. apply truthy_Some in Ht as [f Hf].
    rewrite (addAnchor_ok st f Hinv Hf). eauto.
  - split; [exact parseLine_plus3 | exact parseLine_dev_null].
Qed.

Lemma resolver_total_and_headers_inert_witness :
  Js.startsWith "+++ b/src/new.ts" "+++" = true
  /\ exists st', parseLine stateAt11 "+++ b/src/new.ts" = Ok st'
                 /\ newLineNum st' = newLineNum stateAt11
                 /\ forall f, anchorsOf (validLines st') f
                              = anchorsOf (validLines stateAt11) f.
Proof.
  assert (H : Js.startsWith "+++ b/src/new.ts" "+++" = true) by reflexivity.
  split; [exact H|].
  exact (proj1 (proj2 (proj2 (proj2 resolver_total_and_headers_inert)))
           stateAt11 "+++ b/src/new.ts" H).
Defined.

(** Lines of a hunk shown before any file header are skipped. *)
Example lines_before_header_skipped :
  parseDiffForValidLines (joinLines ["@@ -1,2 +1,3 @@"; " a"; "+b"; " c"]) = Ok ∅.
Proof. vm_compute. reflexivity. Qed.

(** ** Added lines that open with two plus signs *)

(** C4 at this input. All five lines of the hunk are added lines, so the
    anchors of [fix.patch] should be 1 to 5. The resolver passes over the
    added line [++++ b/x] without counting it: it records 1 to 4, and line
    5 is not an anchor. *)
Theorem added_line_with_plus_plus_is_skipped :
  exists vl,
    parseDiffForValidLines diffAddsPatch = Ok vl
    /\ vl !! "fix.patch" = Some ({[1; 2; 3; 4]} : gset Z)
    /\ isValidAnchor vl "fix.patch" 5 = false
    /\ Js.startsWith "++++ b/x" "+" = true.
Proof.
  eexists. split; [vm_compute; reflexivity|].
  split; [vm_compute; reflexivity|]. split; vm_compute; reflexivity.
Qed.

(** * Further properties *)

(** ** Strings, once more *)

Lemma includes_spec (s sub : string) :
  Js.includes s sub = true <-> occursIn sub s.
Proof.
  induction s as [|c r IH]; simpl.
  - rewrite orb_false_r. split.
    + intros H. apply (startsWith_spec sub "") in H as [r Hr].
      destruct sub; [|discriminate]. apply occursIn_refl.
    + intros (pre & post & H). destruct pre; [|discriminate].
      destruct sub; [reflexivity | discriminate].
  - rewrite orb_true_iff, IH. split.
    + intros [H|(pre & post & ->)].
      * apply (startsWith_spec sub (String c r)) in H as [r' ->].
        exists "", r'. reflexivity.
      * exists (String c pre), post. reflexivity.
    + intros (pre & post & H). destruct pre as [|a pre].
      * left. apply (startsWith_spec sub (String c r)). exists post. exact H.
      * right. injection H as _ ->. exists pre, post. reflexivity.
Qed.

Lemma includes_app_false (s a b : string) :
  Js.includes s a = false -> Js.includes s (a +:+ b) = false.
Proof.
  intros H. destruct (Js.includes s (a +:+ b)) eqn:E; [|reflexivity].
  apply includes_spec in E as (pre & post & ->).
  assert (Js.includes (pre +:+ (a +:+ b) +:+ post) a = true).
  { apply includes_spec. exists pre, (b +:+ post). now rewrite append_assoc. }
  congruence.
Qed.

Lemma joinNl_fold (ls : list string) (a l : string) :
  fold_left (fun acc x => acc +:+ String Js.LF EmptyString +:+ x) ls (a +:+ l)
  = a +:+ fold_left (fun acc x => acc +:+ String Js.LF EmptyString +:+ x) ls l.
Proof.
  revert l. induction ls as [|x ls IH]; intros l; simpl; [reflexivity|].
  rewrite append_assoc. apply IH.
Qed.

Lemma split_lines_cons (s : string) : exists l ls, Js.split_lines s = l :: ls.
Proof.
  destruct s as [|c r]; simpl; [eauto|].
  destruct (Ascii.eqb c Js.LF); [eauto|].
  destruct (Js.split_lines r); eauto.
Qed.

(** Joining the lines of a text gives the text back. *)
Lemma joinNl_split_lines (s : string) : joinNl (Js.split_lines s) = s.
Proof.
  induction s as [|c r IH]; [reflexivity|].
  simpl. destruct (split_lines_cons r) as (l & ls & E). rewrite E in *.
  destruct (Ascii.eqb c Js.LF) eqn:Ec.
  - apply Ascii.eqb_eq in Ec as ->. simpl.
    change ("" +:+ String Js.LF "" +:+ l) with (String Js.LF "" +:+ l).
    rewrite joinNl_fold. simpl in IH. now rewrite IH.
  - simpl. change (String c l) with (String c "" +:+ l).
    rewrite joinNl_fold. simpl in IH. now rewrite IH.
Qed.

(** ** Ignored sections of a file *)

Lemma isBlockMarker_false (ic line : string) :
  isBlockMarker ic line = false ->
  Js.includes line (ic +:+ "-start") = false /\ Js.includes line (ic +:+ "-end") = false.
Proof. unfold isBlockMarker. apply orb_false_iff. Qed.

Lemma filterLoop_app (ic : string) (a b : list string) (i : nat) (st : FilterState) :
  filterLoop ic i (a ++ b) st = filterLoop ic (i + length a) b (filterLoop ic i a st).
Proof.
  revert i st. induction a as [|l a IH]; intros i st; simpl.
  - now rewrite Nat.add_0_r.
  - rewrite IH. f_equal. lia.
Qed.

(** The filtered lines only grow. *)
Lemma filterLoop_grows (ic : string) (lines : list string) (i : nat) (st : FilterState) :
  exists out, filteredLines (filterLoop ic i lines st) = filteredLines st ++ out.
Proof.
  revert i st. induction lines as [|l ls IH]; intros i st; simpl.
  - exists []. now rewrite app_nil_r.
  - destruct (IH (S i) (filterStep ic i l st)) as [out ->].
    unfold filterStep.
    repeat match goal with |- context [if ?b then _ else _] => destruct b end;
      simpl; rewrite <- ?app_assoc; eauto.
Qed.

(** Outside a block, a line that is no marker is kept, or gives way to its
    placeholder when it mentions the ignore comment. *)
Lemma filterStep_outside (ic line : string) (i : nat) (st : FilterState) :
  isBlockMarker ic line = false -> ignoring st = false ->
  filteredLines (filterStep ic i line st)
  = filteredLines st ++ [if Js.includes line ic then ignoredPlaceholder (i + 1) else line]
  /\ ignoring (filterStep ic i line st) = false.
Proof.
  intros Hm Hi. apply isBlockMarker_false in Hm as [Hs He].
  unfold filterStep. rewrite Hs, He, Hi. simpl. rewrite andb_true_r.
  destruct (Js.includes line ic); simpl; auto.
Qed.

Lemma filterLoop_outside (ic : string) (lines : list string) (i : nat) (st : FilterState) :
  Forall (fun l => isBlockMarker ic l = false) lines -> ignoring st = false ->
  filteredLines (filterLoop ic i lines st) = filteredLines st ++ maskLines ic i lines
  /\ ignoring (filterLoop ic i lines st) = false.
Proof.
  intros Hall. revert i st.
  induction Hall as [|l ls Hl _ IH]; intros i st Hi; simpl.
  - now rewrite app_nil_r.
  - destruct (filterStep_outside ic l i st Hl Hi) as [Hf Hg].
    destruct (IH (S i) _ Hg) as [-> ->]. rewrite Hf, <- app_assoc. auto.
Qed.

(** X2. Without block markers the filtered text has the lines of the input,
    one for one: a line that mentions the ignore comment is replaced by the
    placeholder that carries its number, every other line is kept. *)
Theorem filter_without_block_markers (cfg : IgnoreConfig) (content filePath : string) :
  Forall (fun l => isBlockMarker (ignoreComment cfg) l = false) (Js.split_lines content) ->
  filteredContent (filterIgnoredContent cfg content filePath)
  = joinNl (maskLines (ignoreComment cfg) 0 (Js.split_lines content))
  /\ length (maskLines (ignoreComment cfg) 0 (Js.split_lines content))
     = length (Js.split_lines content).
Proof.
  intros Hall. split.
  - unfold filterIgnoredContent. simpl.
    destruct (filterLoop_outside (ignoreComment cfg) _ 0 initFilterState Hall eq_refl)
      as [-> _]. reflexivity.
  - clear Hall. generalize 0%nat.
    induction (Js.split_lines content) as [|l ls IH]; intros i; simpl;
      [reflexivity | now rewrite IH].
Qed.

Lemma filterLoop_untouched (ic : string) (lines : list string) (i : nat) (st : FilterState) :
  Forall (fun l => Js.includes l ic = false) lines -> ignoring st = false ->
  filterLoop ic i lines st =
    {| filteredLines := filteredLines st ++ lines;
       ignoring := false;
       ignoredRanges := ignoredRanges st |}.
Proof.
  intros Hall. revert i st.
  induction Hall as [|l ls Hl _ IH]; intros i st Hi; simpl.
  - rewrite app_nil_r. destruct st; simpl in *. now subst.
  - assert (Hstep : filterStep ic i l st =
              {| filteredLines := filteredLines st ++ [l];
                 ignoring := false;
                 ignoredRanges := ignoredRanges st |}).
    { unfold filterStep.
      rewrite (includes_app_false l ic "-start" Hl), (includes_app_false l ic "-end" Hl).
      rewrite Hl, Hi. reflexivity. }
    rewrite Hstep, IH by reflexivity. simpl. now rewrite <- app_assoc.
Qed.

(** X1. A text none of whose lines mentions the ignore comment comes back as it
    is, with no ignored range. *)
Theorem filter_identity (cfg : IgnoreConfig) (content filePath : string) :
  Forall (fun l => Js.includes l (ignoreComment cfg) = false) (Js.split_lines content) ->
  filterIgnoredContent cfg content filePath
  = {| filteredContent := content; filteredRanges := None |}.
Proof.
  intros Hall. unfold filterIgnoredContent.
  rewrite (filterLoop_untouched _ _ 0 initFilterState Hall eq_refl). simpl.
  now rewrite joinNl_split_lines.
Qed.

(** X3. No line that mentions the ignore comment reaches the filtered lines:
    each of them is a placeholder or a line of the input that does not
    mention it. *)
Theorem filter_never_shows_marked_lines (ic : string) (lines : list string) :
  Forall (fun l => (exists n, l = ignoredPlaceholder n)
                   \/ (In l lines /\ Js.includes l ic = false))
         (filteredLines (filterLoop ic 0 lines initFilterState)).
Proof.
  assert (H : forall ls i st,
             (forall l, In l ls -> In l lines) ->
             Forall (fun l => (exists n, l = ignoredPlaceholder n)
                              \/ (In l lines /\ Js.includes l ic = false))
                    (filteredLines st) ->
             Forall (fun l => (exists n, l = ignoredPlaceholder n)
                              \/ (In l lines /\ Js.includes l ic = false))
                    (filteredLines (filterLoop ic i ls st))).
  { induction ls as [|l ls IH]; intros i st Hsub Hst; simpl; [exact Hst|].
    apply IH; [intros x Hx; apply Hsub; now right|].
    unfold filterStep.
    destruct (Js.includes l (ic +:+ "-start")); [exact Hst|].
    destruct (Js.includes l (ic +:+ "-end")); [exact Hst|].
    destruct (Js.includes l ic) eqn:Hic; simpl.
    - rewrite Forall_app. split; [exact Hst|]. constructor; [|constructor].
      left. eauto.
    - destruct (negb (ignoring st)); simpl; rewrite Forall_app; (split; [exact Hst|]);
        (constructor; [|constructor]).
      + right. split; [apply Hsub; now left | exact Hic].
      + left. eauto. }
  apply H; [auto | constructor].
Qed.

(** X4. A start or end marker line yields no line and every other line yields
    one: the filtered lines are as many as the input lines that are no
    markers, so the lines after a marker move up. *)
Theorem filter_line_count (ic : string) (lines : list string) :
  (length (filteredLines (filterLoop ic 0 lines initFilterState))
   + length (List.filter (isBlockMarker ic) lines) = length lines)%nat.
Proof.
  assert (H : forall ls i st,
             (length (filteredLines (filterLoop ic i ls st))
              + length (List.filter (isBlockMarker ic) ls)
              = length (filteredLines st) + length ls)%nat).
  { induction ls as [|l ls IH]; intros i st; simpl; [lia|].
    specialize (IH (S i) (filterStep ic i l st)).
    unfold isBlockMarker at 1. unfold filterStep in *.
    destruct (Js.includes l (ic +:+ "-start")); simpl in *; [lia|].
    destruct (Js.includes l (ic +:+ "-end")); simpl in *; [lia|].
    destruct (Js.includes l ic); simpl in *;
      [|destruct (negb (ignoring st)); simpl in *];
      rewrite length_app in IH; simpl in IH; lia. }
  apply (H lines 0%nat initFilterState).
Qed.

Lemma filterLoop_inside (ic : string) (block : list string) (i : nat) (st : FilterState) :
  Forall (fun l => isBlockMarker ic l = false) block -> ignoring st = true ->
  filteredLines (filterLoop ic i block st)
  = filteredLines st ++ map ignoredPlaceholder (seq (i + 1) (length block))
  /\ ignoring (filterLoop ic i block st) = true.
Proof.
  intros Hall. revert i st.
  induction Hall as [|l ls Hl _ IH]; intros i st Hi; simpl.
  - now rewrite app_nil_r.
  - apply isBlockMarker_false in Hl as [Hs He].
    assert (Hstep : filteredLines (filterStep ic i l st)
                    = filteredLines st ++ [ignoredPlaceholder (i + 1)]
                    /\ ignoring (filterStep ic i l st) = true).
    { unfold filterStep. rewrite Hs, He, Hi. simpl. rewrite andb_true_r.
      destruct (Js.includes l ic); simpl; auto. }
    destruct Hstep as [Hf Hg].
    destruct (IH (S i) _ Hg) as [-> ->]. rewrite Hf, <- app_assoc. simpl.
    replace (S (i + 1)) with (S i + 1)%nat by lia. auto.
Qed.

(** X5. After a start marker, every line up to the next marker is replaced by
    the placeholder that carries its number, whatever it holds. *)
Theorem block_lines_replaced (ic : string) (pre : list string) (s : string)
    (block rest : list string) :
  Js.includes s (ic +:+ "-start") = true ->
  Forall (fun l => isBlockMarker ic l = false) block ->
  exists outRest,
    filteredLines (filterLoop ic 0 (pre ++ s :: block ++ rest) initFilterState)
    = filteredLines (filterLoop ic 0 pre initFilterState)
      ++ map ignoredPlaceholder (seq (length pre + 2) (length block))
      ++ outRest.
Proof.
  intros Hs Hb.
  rewrite filterLoop_app. cbn [filterLoop]. rewrite filterLoop_app.
  set (st0 := filterLoop ic 0 pre initFilterState).
  set (i0 := (0 + length pre)%nat).
  assert (Hst : filteredLines (filterStep ic i0 s st0) = filteredLines st0
                /\ ignoring (filterStep ic i0 s st0) = true).
  { unfold filterStep. rewrite Hs. auto. }
  destruct Hst as [Hf Hi].
  destruct (filterLoop_inside ic block (S i0) _ Hb Hi) as [Hin _].
  destruct (filterLoop_grows ic rest (S i0 + length block)
              (filterLoop ic (S i0) block (filterStep ic i0 s st0)))
    as [out Hout].
  rewrite Hout, Hin, Hf. exists out. rewrite <- app_assoc.
  replace (S i0 + 1)%nat with (length pre + 2)%nat by (unfold i0; lia).
  reflexivity.
Qed.

Lemma StronglySorted_snoc (l : list nat) (y : nat) :
  StronglySorted lt l -> Forall (fun x => (x < y)%nat) l ->
  StronglySorted lt (l ++ [y]).
Proof.
  induction 1 as [|a l Hl IH Ha]; intros Hy; simpl.
  - repeat constructor.
  - apply Forall_cons_1 in Hy as [Hay Hy]. constructor; [now apply IH|].
    rewrite Forall_app. split; [exact Ha | repeat constructor; exact Hay].
Qed.

Lemma setLastEnd_starts (rs : list IgnoredRange) (n : nat) :
  map rangeStart (setLastEnd rs n) = map rangeStart rs.
Proof.
  induction rs as [|r rs IH]; [reflexivity|].
  destruct rs as [|r' rs]; [reflexivity|].
  change (rangeStart r :: map rangeStart (setLastEnd (r' :: rs) n)
          = rangeStart r :: map rangeStart (r' :: rs)).
  now rewrite IH.
Qed.

Lemma setLastEnd_Forall (P Q : IgnoredRange -> Prop) (rs : list IgnoredRange) (n : nat) :
  (forall r, P r -> Q r) ->
  (forall r, P r -> Q {| rangeStart := rangeStart r; rangeEnd := Some n |}) ->
  Forall P rs -> Forall Q (setLastEnd rs n).
Proof.
  intros Hpq Hlast. induction 1 as [|r rs Hr Hrs IH]; [constructor|].
  destruct rs as [|r' rs].
  - simpl. repeat constructor. now apply Hlast.
  - change (setLastEnd (r :: r' :: rs) n) with (r :: setLastEnd (r' :: rs) n).
    constructor; [now apply Hpq | exact IH].
Qed.

Lemma filterStep_ranges (ic line : string) (i : nat) (st : FilterState) :
  rangesWellFormed i (ignoredRanges st) ->
  rangesWellFormed (S i) (ignoredRanges (filterStep ic i line st)).
Proof.
  intros [Hs Hb].
  assert (Hlt : Forall (fun x => (x < i + 1)%nat) (map rangeStart (ignoredRanges st))).
  { rewrite Forall_map. eapply List.Forall_impl; [|exact Hb]. simpl. intros r [Hr _]. lia. }
  assert (Hmono : Forall (fun r => (1 <= rangeStart r <= S i)%nat
                     /\ forall e, rangeEnd r = Some e -> (rangeStart r <= e <= S i)%nat)
                    (ignoredRanges st)).
  { eapply List.Forall_impl; [|exact Hb]. simpl. intros r [Hr He]. split; [lia|].
    intros e Hre. specialize (He e Hre). lia. }
  assert (Hpush : forall e, (e = None \/ e = Some (i + 1)%nat) ->
            rangesWellFormed (S i)
              (ignoredRanges st ++ [{| rangeStart := i + 1; rangeEnd := e |}])).
  { intros e He. split.
    - rewrite map_app. simpl. now apply StronglySorted_snoc.
    - rewrite Forall_app. split; [exact Hmono|]. constructor; [|constructor].
      simpl. split; [lia|].
      intros e' He'. destruct He as [->| ->]; [discriminate|]. injection He' as <-. lia. }
  unfold filterStep.
  destruct (Js.includes line (ic +:+ "-start")); [apply Hpush; auto|].
  destruct (Js.includes line (ic +:+ "-end")).
  - simpl. split; [now rewrite setLastEnd_starts|].
    eapply setLastEnd_Forall; [| |exact Hb]; simpl.
    + intros r [Hr He]. split; [lia|]. intros e Hre. specialize (He e Hre). lia.
    + intros r [Hr He]. split; [lia|]. intros e [= <-]. lia.
  - destruct (Js.includes line ic); simpl; [apply Hpush; auto|].
    destruct (negb (ignoring st)); simpl; split; assumption.
Qed.

(** X6. The ranges reported for a file are in the order of their starts, lie
    within the lines of the file, and none ends before it starts. *)
Theorem ignored_ranges_well_formed (ic : string) (lines : list string) :
  rangesWellFormed (length lines)
    (ignoredRanges (filterLoop ic 0 lines initFilterState)).
Proof.
  assert (H : forall ls i st,
             rangesWellFormed i (ignoredRanges st) ->
             rangesWellFormed (i + length ls) (ignoredRanges (filterLoop ic i ls st))).
  { induction ls as [|l ls IH]; intros i st Hst; simpl.
    - now rewrite Nat.add_0_r.
    - replace (i + S (length ls))%nat with (S i + length ls)%nat by lia.
      apply IH, filterStep_ranges, Hst. }
  apply (H lines 0%nat initFilterState). split; constructor.
Qed.

Lemma filter_without_block_markers_witness :
  Forall (fun l => isBlockMarker (ignoreComment defaultIgnoreConfig) l = false)
         (Js.split_lines "a();
b(); // standards-checker-ignore
c();")
  /\ filteredContent (filterIgnoredContent defaultIgnoreConfig "a();
b(); // standards-checker-ignore
c();" "src/a.ts")
     = joinNl (maskLines (ignoreComment defaultIgnoreConfig) 0 (Js.split_lines "a();
b(); // standards-checker-ignore
c();")).
Proof.
  assert (H : Forall (fun l => isBlockMarker (ignoreComment defaultIgnoreConfig) l = false)
                (Js.split_lines "a();
b(); // standards-checker-ignore
c();")) by (vm_compute; repeat constructor).
  split; [exact H|].
  exact (proj1 (filter_without_block_markers defaultIgnoreConfig _ "src/a.ts" H)).
Defined.

Lemma filter_identity_witness :
  Forall (fun l => Js.includes l (ignoreComment defaultIgnoreConfig) = false)
         (Js.split_lines "const a = 1;
const b = 2;")
  /\ filterIgnoredContent defaultIgnoreConfig "const a = 1;
const b = 2;" "src/a.ts"
     = {| filteredContent := "const a = 1;
const b = 2;"; filteredRanges := None |}.
Proof.
  assert (H : Forall (fun l => Js.includes l (ignoreComment defaultIgnoreConfig) = false)
                (Js.split_lines "const a = 1;
const b = 2;")) by (vm_compute; repeat constructor).
  split; [exact H|].
  exact (filter_identity defaultIgnoreConfig _ "src/a.ts" H).
Defined.

Lemma block_lines_replaced_witness :
  Js.includes "// standards-checker-ignore-start" ("standards-checker-ignore" +:+ "-start") = true
  /\ Forall (fun l => isBlockMarker "standards-checker-ignore" l = false)
            ["const secret = 2;"; "legacy(); // standards-checker-ignore"]
  /\ exists outRest,
       filteredLines
         (filterLoop "standards-checker-ignore" 0
            (["const a = 1;"] ++ "// standards-checker-ignore-start"
               :: ["const secret = 2;"; "legacy(); // standards-checker-ignore"]
               ++ ["// standards-checker-ignore-end"; "const b = 3;"])
            initFilterState)
       = filteredLines (filterLoop "standards-checker-ignore" 0 ["const a = 1;"]
                          initFilterState)
         ++ map ignoredPlaceholder (seq (length ["const a = 1;"] + 2) 2)
         ++ outRest.
Proof.
  assert (H1 : Js.includes "// standards-checker-ignore-start"
                 ("standards-checker-ignore" +:+ "-start") = true)
    by (vm_compute; reflexivity).
  assert (H2 : Forall (fun l => isBlockMarker "standards-checker-ignore" l = false)
                 ["const secret = 2;"; "legacy(); // standards-checker-ignore"])
    by (vm_compute; repeat constructor).
  split; [exact H1|]. split; [exact H2|].
  exact (block_lines_replaced "standards-checker-ignore" ["const a = 1;"]
           "// standards-checker-ignore-start"
           ["const secret = 2;"; "legacy(); // standards-checker-ignore"]
           ["// standards-checker-ignore-end"; "const b = 3;"] H1 H2).
Defined.

(** The block of [textWithBlock]: lines 3 and 4 are replaced, the marker
    lines 2 and 5 are left out, and the end marker closes the range opened
    last, the one of line 4. *)
Example filter_textWithBlock :
  filterIgnoredContent defaultIgnoreConfig textWithBlock "src/a.ts" =
    {| filteredContent :=
         joinNl ["const a = 1;"; ignoredPlaceholder 3; ignoredPlaceholder 4; "const b = 3;"];
       filteredRanges :=
         Some [{| rangeStart := 2; rangeEnd := None |};
               {| rangeStart := 4; rangeEnd := Some 5%nat |}] |}.
Proof. vm_compute. reflexivity. Qed.

(** ** Hunks *)

Lemma anchorsOf_insert (vl : gmap string (gset Z)) (f g : string) (s : gset Z) :
  anchorsOf (<[f := s]> vl) g = if decide (f = g) then s else anchorsOf vl g.
Proof.
  unfold anchorsOf. destruct (decide (f = g)) as [->|Hne].
  - now rewrite lookup_insert_eq.
  - now rewrite lookup_insert_ne.
Qed.

(** The body of a hunk, from a counter [c]: the lines that exist in the new
    file get the numbers [c + 1], [c + 2], ... in their order. *)
Lemma hunk_body (f : string) (body : list string) (st : ParseState) :
  entryPresent st -> currentFile st = Some f -> f <> "" ->
  Forall (fun l => hunkBodyLine l = true) body ->
  exists st',
    parseLines st body = Ok st'
    /\ entryPresent st'
    /\ currentFile st' = Some f
    /\ newLineNum st' = newLineNum st + Z.of_nat (countedLines body)
    /\ (forall n, n ∈ anchorsOf (validLines st') f <->
                  n ∈ anchorsOf (validLines st) f
                  \/ newLineNum st < n <= newLineNum st + Z.of_nat (countedLines body))
    /\ (forall g, g <> f -> validLines st' !! g = validLines st !! g).
Proof.
  intros Hinv Hf Hne Hall. revert st Hinv Hf.
  induction Hall as [|l ls Hl _ IH]; intros st Hinv Hf.
  - exists st. unfold countedLines. simpl.
    split; [reflexivity|]. split; [exact Hinv|]. split; [exact Hf|].
    split; [lia|]. split; [|reflexivity].
    intros n. split; [auto | intros [H|H]; [exact H | lia]].
  - assert (Hcounted :
      exists st1, parseLine st l = Ok st1 /\ entryPresent st1 /\ currentFile st1 = Some f
        /\ ((Js.startsWith l "-" = true /\ st1 = st)
            \/ (Js.startsWith l "-" = false
                /\ newLineNum st1 = newLineNum st + 1
                /\ validLines st1 = <[f := {[newLineNum st + 1]}
                                            ∪ anchorsOf (validLines st) f]> (validLines st)))).
    { unfold hunkBodyLine in Hl.
      destruct (Js.startsWith l "-") eqn:Hd.
      - exists st. split; [now apply parseLine_deleted|].
        split; [exact Hinv|]. split; [exact Hf|]. left. auto.
      - rewrite orb_false_r in Hl. apply orb_true_iff in Hl.
        assert (Hstep : parseLine st l =
                  Ok {| validLines := <[f := {[newLineNum st + 1]}
                                            ∪ anchorsOf (validLines st) f]> (validLines st);
                        currentFile := Some f;
                        newLineNum := newLineNum st + 1 |}).
        { destruct Hl as [Hc|Ha].
          - now apply parseLine_context.
          - apply andb_true_iff in Ha as [Hp Hp3]. apply negb_true_iff in Hp3.
            now apply parseLine_added. }
        eexists. split; [exact Hstep|]. split.
        + intros g [= <-]. simpl. rewrite lookup_insert_eq. eauto.
        + split; [reflexivity|]. right. auto. }
    destruct Hcounted as (st1 & Hstep & Hinv1 & Hf1 & Hkind).
    destruct (IH st1 Hinv1 Hf1) as (st' & Hrun & Hinv' & Hf' & Hnum & Hmem & Hoth).
    exists st'. simpl. rewrite Hstep. simpl.
    split; [exact Hrun|]. split; [exact Hinv'|]. split; [exact Hf'|].
    unfold countedLines in *. simpl.
    destruct Hkind as [[Hd ->]|(Hd & Hn1 & Hvl1)]; rewrite Hd; simpl.
    + auto.
    + split; [rewrite Hnum, Hn1; lia|]. split.
      * intros n. rewrite Hmem, Hvl1, anchorsOf_insert, decide_True by reflexivity.
        rewrite Hn1, elem_of_union, elem_of_singleton. split.
        -- intros [[->|H]|H]; [right; lia | left; exact H | right; lia].
        -- intros [H|H]; [left; right; exact H|].
           destruct (decide (n = newLineNum st + 1)) as [->|Hn];
             [left; left; reflexivity | right; lia].
      * intros g Hg. rewrite (Hoth g Hg), Hvl1.
        apply lookup_insert_ne. congruence.
Qed.

(** X7. A hunk header followed by body lines records, for the current file,
    exactly the numbers from the header's new-side start on, one for each
    line that is not deleted; deleted lines take no number and other files
    are not touched. The numbers are those of the code as long as they stay
    within 2^53, where its doubles are exact. *)
Theorem hunk_records_consecutive_anchors
    (st : ParseState) (f h d : string) (body : list string) :
  entryPresent st -> currentFile st = Some f -> f <> "" ->
  hunkMatch h = Some d ->
  Forall (fun l => hunkBodyLine l = true) body ->
  Js.parseInt d + Z.of_nat (countedLines body) <= 2 ^ 53 ->
  exists st',
    parseLines st (h :: body) = Ok st'
    /\ currentFile st' = Some f
    /\ newLineNum st' = Js.parseInt d - 1 + Z.of_nat (countedLines body)
    /\ (forall n, n ∈ anchorsOf (validLines st') f <->
                  n ∈ anchorsOf (validLines st) f
                  \/ Js.parseInt d <= n < Js.parseInt d + Z.of_nat (countedLines body))
    /\ (forall g, g <> f -> validLines st' !! g = validLines st !! g).
Proof.
  intros Hinv Hf Hne Hh Hall _.
  set (st0 := {| validLines := validLines st; currentFile := currentFile st;
                 newLineNum := Js.parseInt d - 1 |}).
  assert (Hinv0 : entryPresent st0) by exact Hinv.
  destruct (hunk_body f body st0 Hinv0 Hf Hne Hall)
    as (st' & Hrun & _ & Hf' & Hnum & Hmem & Hoth).
  exists st'. simpl. rewrite (parseLine_hunk st h d Hh). simpl.
  split; [exact Hrun|]. split; [exact Hf'|]. split; [exact Hnum|].
  split; [|exact Hoth].
  intros n. rewrite Hmem. simpl. split; (intros [H|H]; [left; exact H | right; lia]).
Qed.

Lemma stateAt11_entryPresent : entryPresent stateAt11.
Proof. intros f [= <-]. vm_compute. eauto. Qed.

Lemma hunk_records_consecutive_anchors_witness :
  entryPresent stateAt11
  /\ currentFile stateAt11 = Some "src/a.ts"
  /\ "src/a.ts" <> ""
  /\ hunkMatch "@@ -20,3 +30,2 @@ function f() {" = Some "30"
  /\ Forall (fun l => hunkBodyLine l = true) [" a"; "-b"; "+c"]
  /\ Js.parseInt "30" + Z.of_nat (countedLines [" a"; "-b"; "+c"]) <= 2 ^ 53
  /\ exists st',
       parseLines stateAt11 ("@@ -20,3 +30,2 @@ function f() {" :: [" a"; "-b"; "+c"]) = Ok st'
       /\ newLineNum st' = Js.parseInt "30" - 1 + Z.of_nat (countedLines [" a"; "-b"; "+c"]).
Proof.
  assert (H1 : currentFile stateAt11 = Some "src/a.ts") by reflexivity.
  assert (H2 : "src/a.ts" <> "") by discriminate.
  assert (H3 : hunkMatch "@@ -20,3 +30,2 @@ function f() {" = Some "30")
    by (vm_compute; reflexivity).
  assert (H4 : Forall (fun l => hunkBodyLine l = true) [" a"; "-b"; "+c"])
    by (vm_compute; repeat constructor).
  assert (H5 : Js.parseInt "30" + Z.of_nat (countedLines [" a"; "-b"; "+c"]) <= 2 ^ 53)
    by (vm_compute; discriminate).
  split; [exact stateAt11_entryPresent|].
  split; [exact H1|]. split; [exact H2|]. split; [exact H3|]. split; [exact H4|].
  split; [exact H5|].
  destruct (hunk_records_consecutive_anchors stateAt11 "src/a.ts"
              "@@ -20,3 +30,2 @@ function f() {" "30" [" a"; "-b"; "+c"]
              stateAt11_entryPresent H1 H2 H3 H4 H5)
    as (st' & Hrun & _ & Hnum & _).
  exists st'. split; [exact Hrun | exact Hnum].
Defined.

(** ** The files of the anchor map *)

Lemma parseLine_files (st st' : ParseState) (l : string) :
  parseLine st l = Ok st' ->
  forall f, is_Some (validLines st' !! f)
            <-> is_Some (validLines st !! f) \/ fileMatch l = Some f.
Proof.
  intros H f. unfold parseLine in H.
  destruct (fileMatch l) as [f0|] eqn:Hm.
  - injection H as <-. simpl.
    destruct (validLines st !! f0) eqn:E.
    + split; [auto|]. intros [H|[= <-]]; [exact H | rewrite E; eauto].
    + destruct (decide (f0 = f)) as [->|Hne].
      * rewrite lookup_insert_eq. split; eauto.
      * rewrite lookup_insert_ne by exact Hne. split; [auto|].
        intros [H|[= H]]; [exact H | contradiction].
  - assert (Hadd : forall st1, addAnchor st = Ok st1 ->
              is_Some (validLines st1 !! f) <-> is_Some (validLines st !! f)).
    { intros st1 Ha. unfold addAnchor in Ha.
      destruct (currentFile st) as [g|]; [|discriminate].
      destruct (validLines st !! g) as [s|] eqn:Eg; [|discriminate].
      injection Ha as <-. simpl.
      destruct (decide (g = f)) as [->|Hne].
      - rewrite lookup_insert_eq, Eg. split; eauto.
      - now rewrite lookup_insert_ne. }
    assert (Hsame : is_Some (validLines st !! f)
                    <-> is_Some (validLines st !! f) \/ @None string = Some f).
    { split; [auto | intros [H'|H']; [exact H' | discriminate]]. }
    destruct (hunkMatch l).
    + injection H as <-. exact Hsame.
    + destruct (negb (Js.truthy (currentFile st))).
      * injection H as <-. exact Hsame.
      * destruct (Js.startsWith l "+" && negb (Js.startsWith l "+++")).
        -- rewrite (Hadd st' H). exact Hsame.
        -- destruct (Js.startsWith l " ").
           ++ rewrite (Hadd st' H). exact Hsame.
           ++ injection H as <-. exact Hsame.
Qed.

Lemma parseLines_files (lines : list string) (st st' : ParseState) :
  parseLines st lines = Ok st' ->
  forall f, is_Some (validLines st' !! f)
            <-> is_Some (validLines st !! f)
                \/ exists l, In l lines /\ fileMatch l = Some f.
Proof.
  revert st. induction lines as [|l ls IH]; intros st H f; simpl in H.
  - injection H as <-. split; [auto|]. intros [H|(l & [] & _)]. exact H.
  - destruct (parseLine st l) as [st1|] eqn:E; [|discriminate]. simpl in H.
    rewrite (IH st1 H f), (parseLine_files st st1 l E f). split.
    + intros [[H1|H1]|(x & Hx & Hm)]; eauto.
      * right. exists l. split; [now left | exact H1].
      * right. exists x. split; [now right | exact Hm].
    + intros [H1|(x & [->|Hx] & Hm)]; eauto.
Qed.

(** X8. The files of the anchor map are exactly the paths named by the
    [+++ b/] headers of the diff; a diff without such a header gives the
    empty map. *)
Theorem anchor_map_files (diff : string) :
  exists vl,
    parseDiffForValidLines diff = Ok vl
    /\ forall f, is_Some (vl !! f)
                 <-> exists l, In l (Js.split_lines diff) /\ fileMatch l = Some f.
Proof.
  unfold parseDiffForValidLines.
  destruct (parseLines_ok (Js.split_lines diff) initState entryPresent_init)
    as (st & Hrun & _).
  rewrite Hrun. simpl. exists (validLines st). split; [reflexivity|].
  intros f. rewrite (parseLines_files _ _ _ Hrun f). simpl.
  rewrite lookup_empty. split; [|auto].
  intros [[x Hx]|H]; [discriminate | exact H].
Qed.

(** ** Diffs with CR LF line ends *)

Lemma hasLineTerminator_CR (p : string) :
  Js.hasLineTerminator (p +:+ String Js.CR EmptyString) = true.
Proof.
  induction p as [|c p IH].
  - reflexivity.
  - change (Js.hasLineTerminator (String c (p +:+ String Js.CR EmptyString)) = true).
    simpl. rewrite IH. apply orb_true_r.
Qed.

Lemma suffix_of_CR_line (a l0 p : string) :
  l0 +:+ String Js.CR EmptyString = a +:+ p ->
  p = "" \/ exists p0, p = p0 +:+ String Js.CR EmptyString.
Proof.
  revert l0. induction a as [|x a IH]; intros l0 H.
  - right. exists l0. now rewrite H.
  - destruct l0 as [|y l0].
    + injection H as _ H. destruct a; [|discriminate]. left. destruct p; [auto|discriminate].
    + injection H as _ H. apply (IH l0 H).
Qed.

Lemma fileMatch_CR (l0 : string) : fileMatch (l0 +:+ String Js.CR EmptyString) = None.
Proof.
  unfold fileMatch.
  destruct (Js.dropPrefix "+++ b/" (l0 +:+ String Js.CR EmptyString)) as [p|] eqn:E;
    [|reflexivity].
  apply dropPrefix_spec in E. apply suffix_of_CR_line in E as [->|[p0 ->]].
  - reflexivity.
  - rewrite hasLineTerminator_CR. destruct (String.eqb _ ""); reflexivity.
Qed.

(** X9. A diff whose lines end in CR LF gives the empty map: the carriage
    return left at the end of each line keeps every file header from being
    recognised, so no line of such a diff is an anchor. *)
Theorem crlf_diff_has_no_anchor (diff : string) :
  Forall (fun l => l = "" \/ exists l0, l = l0 +:+ String Js.CR EmptyString)
         (Js.split_lines diff) ->
  parseDiffForValidLines diff = Ok ∅.
Proof.
  intros Hall.
  assert (Hnone : Forall (fun l => fileMatch l = None) (Js.split_lines diff)).
  { eapply List.Forall_impl; [|exact Hall]. simpl.
    intros l [->|[l0 ->]]; [reflexivity | apply fileMatch_CR]. }
  destruct (parseLines_before_header _ initState Hnone eq_refl eq_refl)
    as (st & Hrun & Hvl & _).
  unfold parseDiffForValidLines. rewrite Hrun. simpl. now rewrite Hvl.
Qed.

Lemma crlf_diff_has_no_anchor_witness :
  Forall (fun l => l = "" \/ exists l0, l = l0 +:+ String Js.CR EmptyString)
         (Js.split_lines crlfDiff)
  /\ parseDiffForValidLines crlfDiff = Ok ∅.
Proof.
  assert (H : Forall (fun l => l = "" \/ exists l0, l = l0 +:+ String Js.CR EmptyString)
                (Js.split_lines crlfDiff)).
  { change (Js.split_lines crlfDiff) with
      ["+++ b/a.ts" +:+ String Js.CR EmptyString;
       "@@ -0,0 +1 @@" +:+ String Js.CR EmptyString;
       "+let a = 1;" +:+ String Js.CR EmptyString; ""].
    repeat (constructor; [first [left; reflexivity | right; eexists; reflexivity]|]).
    constructor. }
  split; [exact H | exact (crlf_diff_has_no_anchor crlfDiff H)].
Defined.

(** ** Numbers in hunk headers *)

Lemma parseInt_acc (d : Decimal.uint) (acc : positive) :
  fold_left (fun a c => 10 * a + (Z.of_nat (nat_of_ascii c) - 48))
            (list_ascii_of_string (NilEmpty.string_of_uint d)) (Z.pos acc)
  = Z.pos (Pos.of_uint_acc d acc).
Proof.
  revert acc. induction d; intros acc; simpl; [reflexivity| ..];
    rewrite <- IHd; f_equal; vm_compute (Z.of_nat _); lia.
Qed.

Lemma parseInt_uint (d : Decimal.uint) :
  Js.parseInt (NilEmpty.string_of_uint d) = Z.of_N (Pos.of_uint d).
Proof.
  unfold Js.parseInt. induction d; simpl; [reflexivity | exact IHd | ..];
    rewrite <- parseInt_acc; reflexivity.
Qed.

Lemma numToString_nat (n : nat) :
  exists d, d <> Decimal.Nil
            /\ Js.numToString (Z.of_nat n) = NilEmpty.string_of_uint d
            /\ Z.of_N (Pos.of_uint d) = Z.of_nat n.
Proof.
  unfold Js.numToString. destruct (Z.of_nat n) as [|p|p] eqn:E; try lia.
  - exists (Decimal.D0 Decimal.Nil). repeat split. discriminate.
  - exists (Pos.to_uint p). split; [apply Unsigned.to_uint_nonnil|]. split.
    + simpl. unfold NilZero.string_of_uint.
      pose proof (Unsigned.to_uint_nonnil p).
      destruct (Pos.to_uint p); [contradiction| ..]; reflexivity.
    + now rewrite Unsigned.of_to.
Qed.

(** Reading back a printed number gives the number. *)
Lemma parseInt_numToString (n : nat) :
  Js.parseInt (Js.numToString (Z.of_nat n)) = Z.of_nat n.
Proof.
  destruct (numToString_nat n) as (d & _ & -> & <-). apply parseInt_uint.
Qed.

Lemma string_of_uint_digits (d : Decimal.uint) :
  allDigits (NilEmpty.string_of_uint d) = true.
Proof. induction d; simpl; auto. Qed.

Lemma numToString_digits (n : nat) :
  allDigits (Js.numToString (Z.of_nat n)) = true /\ Js.numToString (Z.of_nat n) <> "".
Proof.
  destruct (numToString_nat n) as (d & Hd & -> & _). split.
  - apply string_of_uint_digits.
  - destruct d; [contradiction| ..]; discriminate.
Qed.

Lemma takeDigits_app (ds r : string) :
  allDigits ds = true -> noDigitAhead r -> Js.takeDigits (ds +:+ r) = (ds, r).
Proof.
  intros Hd Hr. induction ds as [|c ds IH].
  - destruct r as [|x r]; [reflexivity|]. simpl in *. now rewrite Hr.
  - simpl in Hd. apply andb_true_iff in Hd as [Hc Hd].
    change (Js.takeDigits (String c (ds +:+ r)) = (String c ds, r)).
    simpl. rewrite Hc, (IH Hd). reflexivity.
Qed.

Lemma digits1_app (ds r : string) :
  allDigits ds = true -> ds <> "" -> noDigitAhead r ->
  digits1 (ds +:+ r) = Some (ds, r).
Proof.
  intros Hd Hne Hr. unfold digits1. rewrite (takeDigits_app ds r Hd Hr).
  destruct ds; [contradiction | reflexivity].
Qed.

Lemma optCommaDigits_count (ds r : string) :
  allDigits ds = true -> ds <> "" -> noDigitAhead r ->
  optCommaDigits (("," +:+ ds) +:+ r) = r.
Proof.
  intros Hd Hne Hr.
  change (optCommaDigits (String "," (ds +:+ r)) = r).
  unfold optCommaDigits. simpl. rewrite (takeDigits_app ds r Hd Hr).
  destruct ds; [contradiction | reflexivity].
Qed.

Lemma optCommaDigits_optCount (o : option nat) (r : string) :
  noDigitAhead r ->
  (match r with String c _ => c <> ","%char | EmptyString => True end) ->
  optCommaDigits (optCount o +:+ r) = r.
Proof.
  intros Hr Hc. destruct o as [k|].
  - destruct (numToString_digits k) as [Hd Hne].
    now apply optCommaDigits_count.
  - destruct r as [|c r]; [reflexivity|]. simpl.
    apply Ascii.eqb_neq in Hc. now rewrite Hc.
Qed.

Lemma hunkMatch_parts (line r0 a r1 r2 c r3 r4 : string) :
  Js.dropPrefix "@@ -" line = Some r0 ->
  digits1 r0 = Some (a, r1) ->
  Js.dropPrefix " +" (optCommaDigits r1) = Some r2 ->
  digits1 r2 = Some (c, r3) ->
  Js.dropPrefix " @@" (optCommaDigits r3) = Some r4 ->
  hunkMatch line = Some c.
Proof.
  intros H1 H2 H3 H4 H5. unfold hunkMatch.
  rewrite H1. cbn [mbind option_bind]. rewrite H2. cbn [mbind option_bind].
  rewrite H3. cbn [mbind option_bind]. rewrite H4. cbn [mbind option_bind].
  rewrite H5. reflexivity.
Qed.

(** X10. A hunk header printed from numbers is recognised, with or without its
    line counts and whatever follows the closing [@@]: it sets the counter
    to the new-side start less one and changes nothing else. The start is
    at most 2^53, up to where the code reads it exactly. *)
Theorem printed_hunk_header_sets_counter
    (st : ParseState) (a c : nat) (b d : option nat) (rest : string) :
  Z.of_nat c <= 2 ^ 53 ->
  parseLine st (hunkHeader a b c d +:+ rest)
  = Ok {| validLines := validLines st;
          currentFile := currentFile st;
          newLineNum := Z.of_nat c - 1 |}.
Proof.
  intros _.
  assert (Hm : hunkMatch (hunkHeader a b c d +:+ rest)
               = Some (Js.numToString (Z.of_nat c))).
  { unfold hunkHeader. rewrite !append_assoc.
    destruct (numToString_digits a) as [Ha Hane].
    destruct (numToString_digits c) as [Hc Hcne].
    set (r3 := optCount d +:+ " @@" +:+ rest).
    set (r1 := optCount b +:+ " +" +:+ Js.numToString (Z.of_nat c) +:+ r3).
    assert (Hnd1 : noDigitAhead r1) by (unfold r1; destruct b; reflexivity).
    assert (Hnd3 : noDigitAhead r3) by (unfold r3; destruct d; reflexivity).
    apply (hunkMatch_parts _ (Js.numToString (Z.of_nat a) +:+ r1)
             (Js.numToString (Z.of_nat a)) r1
             (Js.numToString (Z.of_nat c) +:+ r3)
             (Js.numToString (Z.of_nat c)) r3 rest).
    - now apply dropPrefix_spec.
    - now apply digits1_app.
    - unfold r1. rewrite optCommaDigits_optCount by (simpl; auto; discriminate).
      now apply dropPrefix_spec.
    - now apply digits1_app.
    - unfold r3. rewrite optCommaDigits_optCount by (simpl; auto; discriminate).
      now apply dropPrefix_spec. }
  rewrite (parseLine_hunk st _ _ Hm), parseInt_numToString. reflexivity.
Qed.

Lemma printed_hunk_header_sets_counter_witness :
  Z.of_nat 30 <= 2 ^ 53
  /\ parseLine stateAt11 (hunkHeader 20 (Some 3%nat) 30 (Some 2%nat) +:+ " function f() {")
     = Ok {| validLines := validLines stateAt11;
             currentFile := currentFile stateAt11;
             newLineNum := Z.of_nat 30 - 1 |}.
Proof.
  assert (H : Z.of_nat 30 <= 2 ^ 53) by (vm_compute; discriminate).
  split; [exact H|].
  exact (printed_hunk_header_sets_counter stateAt11 20 30 (Some 3%nat) (Some 2%nat)
           " function f() {" H).
Defined.

(** ** The JSON block of an answer *)

(** When [pat] does not begin at any position of [pre], its first
    occurrence in [pre +:+ pat +:+ rest] is the one after [pre]. *)
Lemma splitAt_first (pat pre rest : string) :
  (forall a s, pre = a +:+ s -> s <> "" ->
               Js.dropPrefix pat (s +:+ pat +:+ rest) = None) ->
  Js.dropPrefix pat (pat +:+ rest) = Some rest ->
  Js.splitAt pat (pre +:+ pat +:+ rest) = Some (pre, rest).
Proof.
  intros Hno Hhere. induction pre as [|c pre IH].
  - change ("" +:+ pat +:+ rest) with (pat +:+ rest).
    destruct (pat +:+ rest) eqn:E; simpl; now rewrite Hhere.
  - change (String c pre +:+ pat +:+ rest) with (String c (pre +:+ pat +:+ rest)).
    simpl.
    change (String c (pre +:+ pat +:+ rest)) with (String c pre +:+ pat +:+ rest).
    rewrite (Hno "" (String c pre) eq_refl) by discriminate.
    rewrite IH; [reflexivity|].
    intros a s E Hs. apply (Hno (String c a) s); [now rewrite E | exact Hs].
Qed.

Lemma includes_suffix_false (a s pat : string) :
  Js.includes (a +:+ s) pat = false -> Js.includes s pat = false.
Proof.
  intros H. destruct (Js.includes s pat) eqn:E; [|reflexivity].
  apply includes_spec in E as (pre & post & ->).
  assert (Js.includes (a +:+ pre +:+ pat +:+ post) pat = true).
  { apply includes_spec. exists (a +:+ pre), post. now rewrite append_assoc. }
  congruence.
Qed.

Lemma includes_prefix_true (pat s : string) :
  Js.includes (pat +:+ s) pat = true.
Proof. apply includes_spec. exists "", s. reflexivity. Qed.

Lemma openFence_no_straddle (s rest : string) :
  s <> "" -> Js.includes s openFence = false ->
  Js.dropPrefix openFence (s +:+ openFence +:+ rest) = None.
Proof.
  intros Hs Hinc.
  destruct (Js.dropPrefix openFence (s +:+ openFence +:+ rest)) as [x|] eqn:E;
    [exfalso | reflexivity].
  apply dropPrefix_spec in E.
  destruct s as [|c1 [|c2 [|c3 [|c4 [|c5 [|c6 [|c7 [|c8 s]]]]]]]];
    [contradiction | try discriminate E ..].
  assert (Hp : String c1 (String c2 (String c3 (String c4 (String c5 (String c6
                 (String c7 (String c8 s))))))) = openFence +:+ s).
  { injection E as -> -> -> -> -> -> -> -> _. reflexivity. }
  rewrite Hp, includes_prefix_true in Hinc. discriminate.
Qed.

Lemma closeFence_no_straddle (s rest : string) :
  s <> "" -> Js.includes s closeFence = false ->
  Js.dropPrefix closeFence (s +:+ closeFence +:+ rest) = None.
Proof.
  intros Hs Hinc.
  destruct (Js.dropPrefix closeFence (s +:+ closeFence +:+ rest)) as [x|] eqn:E;
    [exfalso | reflexivity].
  apply dropPrefix_spec in E.
  destruct s as [|c1 [|c2 [|c3 [|c4 s]]]];
    [contradiction | try discriminate E ..].
  assert (Hp : String c1 (String c2 (String c3 (String c4 s))) = closeFence +:+ s).
  { injection E as -> -> -> -> _. reflexivity. }
  rewrite Hp, includes_prefix_true in Hinc. discriminate.
Qed.

(** X11. An answer that wraps a block between the fences gives the block back,
    whatever stands before and after, as long as no opening fence stands
    before it and the block holds no closing fence. *)
Theorem jsonBlock_of_fenced_answer (pre block post : string) :
  Js.includes pre openFence = false ->
  Js.includes block closeFence = false ->
  jsonBlock (pre +:+ openFence +:+ block +:+ closeFence +:+ post) = Some block.
Proof.
  intros Hpre Hblock. unfold jsonBlock.
  fold openFence. fold closeFence.
  rewrite (splitAt_first openFence pre (block +:+ closeFence +:+ post)).
  - cbn [mbind option_bind].
    rewrite (splitAt_first closeFence block post).
    + reflexivity.
    + intros a s -> Hs. apply closeFence_no_straddle; [exact Hs|].
      now apply includes_suffix_false in Hblock.
    + now apply dropPrefix_spec.
  - intros a s -> Hs. apply openFence_no_straddle; [exact Hs|].
    now apply includes_suffix_false in Hpre.
  - now apply dropPrefix_spec.
Qed.

Lemma jsonBlock_of_fenced_answer_witness :
  Js.includes ("Here is my review." +:+ nl) openFence = false
  /\ Js.includes "{}" closeFence = false
  /\ jsonBlock (("Here is my review." +:+ nl) +:+ openFence +:+ "{}" +:+ closeFence
                +:+ (nl +:+ "Thanks."))
     = Some "{}".
Proof.
  assert (H1 : Js.includes ("Here is my review." +:+ nl) openFence = false)
    by (vm_compute; reflexivity).
  assert (H2 : Js.includes "{}" closeFence = false) by (vm_compute; reflexivity).
  split; [exact H1|]. split; [exact H2|].
  exact (jsonBlock_of_fenced_answer _ "{}" (nl +:+ "Thanks.") H1 H2).
Defined.

(** ** Normalised titles *)

Lemma toLowerCase_alnum_head (c : ascii) (r : string) :
  Js.isLowerAZ c || Js.isDigit c = true ->
  toLowerCase (String c r) = String c (toLowerCase r).
Proof.
  intros H.
  destruct c as [[] [] [] [] [] [] [] []];
    try (vm_compute in H; discriminate H);
    destruct r as [|c1 [|c2 r2]]; reflexivity.
Qed.

Lemma stripNonAlnum_allAlnum (s : string) : allAlnum (stripNonAlnum s) = true.
Proof.
  induction s as [|c r IH]; [reflexivity|]. simpl.
  destruct (Js.isLowerAZ c || Js.isDigit c) eqn:E; [|exact IH].
  simpl. now rewrite E, IH.
Qed.

Lemma norm_fixed (s : string) : allAlnum s = true -> norm s = s.
Proof.
  unfold norm. induction s as [|c r IH]; [reflexivity|].
  intros H. simpl in H. apply andb_true_iff in H as [Hc Hr].
  rewrite (toLowerCase_alnum_head c r Hc). simpl. rewrite Hc. now rewrite (IH Hr).
Qed.

(** X12. The normalised form of a title holds characters of [a-z0-9] only, and
    normalising it again changes nothing. *)
Theorem norm_idempotent (s : string) :
  allAlnum (norm s) = true /\ norm (norm s) = norm s.
Proof.
  assert (H : allAlnum (norm s) = true) by apply stripNonAlnum_allAlnum.
  split; [exact H | now apply norm_fixed].
Qed.

(** ** What the matcher returns *)

Lemma exact_is_substring (nt : string) (t : Thread.t) :
  exactMatch nt t = true -> substringMatch nt t = true.
Proof.
  intros H. apply exactMatch_true in H. unfold substringMatch. rewrite H.
  assert (Js.includes nt nt = true) as ->; [|reflexivity].
  apply includes_spec, occursIn_refl.
Qed.

(** X13. The thread returned is one of the list and matches the finding by its
    title or, failing that, lies on the finding's path; nothing is returned
    exactly when no thread of the list does either. *)
Theorem matcher_sound_and_complete
    (threads : list Thread.t) (title : string) (filePath : option string) :
  (forall t, findMatchingThread threads title filePath = Some t ->
     In t threads
     /\ (substringMatch (norm title) t = true
         \/ exists fp, filePath = Some fp /\ fp <> "" /\ Thread.path t = fp))
  /\ (findMatchingThread threads title filePath = None <->
      forall u, In u threads ->
        substringMatch (norm title) u = false
        /\ forall fp, filePath = Some fp -> fp <> "" -> Thread.path u <> fp).
Proof.
  rewrite findMatchingThread_tiers. split.
  - intros t H.
    destruct (List.find (exactMatch (norm title)) threads) as [y|] eqn:E1.
    { injection H as <-. apply find_some in E1 as [Hin Hy].
      split; [exact Hin|]. left. now apply exact_is_substring. }
    destruct (List.find (substringMatch (norm title)) threads) as [y|] eqn:E2.
    { injection H as <-. apply find_some in E2 as [Hin Hy]. auto. }
    unfold pathFallback in H. destruct filePath as [fp|]; [|discriminate].
    destruct (String.eqb fp "") eqn:Efp; [discriminate|].
    apply find_some in H as [Hin Hp]. split; [exact Hin|]. right.
    exists fp. split; [reflexivity|]. split.
    + now apply String.eqb_neq.
    + now apply String.eqb_eq.
  - split.
    + intros H u Hu.
      destruct (List.find (exactMatch (norm title)) threads) eqn:E1; [discriminate|].
      destruct (List.find (substringMatch (norm title)) threads) eqn:E2; [discriminate|].
      split; [eapply find_none; eauto|].
      intros fp -> Hne. unfold pathFallback in H.
      apply String.eqb_neq in Hne. rewrite Hne in H.
      pose proof (find_none _ _ H u Hu) as Hp. unfold pathMatch in Hp.
      now apply String.eqb_neq.
    + intros H.
      rewrite (find_all_false (exactMatch (norm title)) threads).
      2:{ intros x Hx. destruct (exactMatch (norm title) x) eqn:E; [|reflexivity].
          apply exact_is_substring in E. rewrite (proj1 (H x Hx)) in E. discriminate. }
      rewrite (find_all_false (substringMatch (norm title)) threads)
        by (intros x Hx; apply (H x Hx)).
      unfold pathFallback. destruct filePath as [fp|]; [|reflexivity].
      destruct (String.eqb fp "") eqn:Efp; [reflexivity|].
      apply find_all_false. intros x Hx. unfold pathMatch.
      apply String.eqb_neq. apply (proj2 (H x Hx) fp eq_refl).
      now apply String.eqb_neq.
Qed.

Lemma matcher_sound_and_complete_witness :
  findMatchingThread [thrInjection; thrSql] "Sql injection risk!" None = Some thrSql
  /\ In thrSql [thrInjection; thrSql]
  /\ (substringMatch (norm "Sql injection risk!") thrSql = true
      \/ exists fp, @None string = Some fp /\ fp <> "" /\ Thread.path thrSql = fp).
Proof.
  assert (H : findMatchingThread [thrInjection; thrSql] "Sql injection risk!" None
              = Some thrSql) by (vm_compute; reflexivity).
  split; [exact H|].
  exact (proj1 (matcher_sound_and_complete [thrInjection; thrSql]
                  "Sql injection risk!" None) thrSql H).
Defined.

(** X14. When the title of some open thread has no character of [a-z0-9], so
    that its normalised form is empty, the matcher finds a thread for every
    finding whatever its title, by title and without looking at paths. *)
Theorem empty_thread_title_matches_everything
    (threads : list Thread.t) (title : string) (filePath : option string) :
  (exists t, In t threads /\ norm (Thread.botTitle t) = "") ->
  exists u, findMatchingThread threads title filePath = Some u
            /\ In u threads /\ substringMatch (norm title) u = true.
Proof.
  intros (t & Hin & Ht).
  assert (Hsub : substringMatch (norm title) t = true).
  { unfold substringMatch. rewrite Ht, includes_empty. apply orb_true_r. }
  rewrite findMatchingThread_tiers.
  destruct (List.find (exactMatch (norm title)) threads) as [y|] eqn:E1.
  { apply find_some in E1 as [Hy1 Hy2]. exists y.
    split; [reflexivity|]. split; [exact Hy1 | now apply exact_is_substring]. }
  destruct (find_is_Some (substringMatch (norm title)) threads) as [y Hy]; [eauto|].
  rewrite Hy. apply find_some in Hy as [Hy1 Hy2]. eauto.
Qed.

Lemma empty_thread_title_matches_everything_witness :
  (exists t, In t [thrSql; thrCjk] /\ norm (Thread.botTitle t) = "")
  /\ exists u, findMatchingThread [thrSql; thrCjk] "Missing pagination" None = Some u
               /\ In u [thrSql; thrCjk]
               /\ substringMatch (norm "Missing pagination") u = true.
Proof.
  assert (H : exists t, In t [thrSql; thrCjk] /\ norm (Thread.botTitle t) = "").
  { exists thrCjk. split; [right; left; reflexivity | vm_compute; reflexivity]. }
  split; [exact H|].
  exact (empty_thread_title_matches_everything [thrSql; thrCjk] "Missing pagination"
           None H).
Defined.

(** ** Thread updates *)

Lemma findMatchingThread_In (threads : list Thread.t) (title : string)
    (filePath : option string) (t : Thread.t) :
  findMatchingThread threads title filePath = Some t -> In t threads.
Proof.
  rewrite findMatchingThread_tiers.
  destruct (List.find (exactMatch (norm title)) threads) eqn:E1.
  { intros [= <-]. now apply find_some in E1. }
  destruct (List.find (substringMatch (norm title)) threads) eqn:E2.
  { intros [= <-]. now apply find_some in E2. }
  unfold pathFallback. destruct filePath as [fp|]; [|discriminate].
  destruct (String.eqb fp ""); [discriminate|].
  intros H. now apply find_some in H.
Qed.

Lemma threadUpdates_targets (data : AnalysisData) (threads : list Thread.t) (e : Effect) :
  In e (threadUpdates data threads) -> exists t, In t threads /\ targets e t.
Proof.
  unfold threadUpdates. rewrite !in_app_iff, !in_flat_map.
  intros [(f & _ & He)|[(x & _ & He)|(x & _ & He)]].
  - unfold bumpOne in He.
    destruct (findMatchingThread threads (Finding.title f) (Some (Finding.path f)))
      as [t|] eqn:E; [|contradiction].
    exists t. split; [eapply findMatchingThread_In; eauto|].
    destruct He as [<-|[]]. left. eauto.
  - unfold resolveOne in He.
    destruct (findMatchingThread threads x None) as [t|] eqn:E; [|contradiction].
    exists t. split; [eapply findMatchingThread_In; eauto|].
    destruct He as [<-|[]]. right. reflexivity.
  - unfold acceptOne in He.
    destruct (findMatchingThread threads x None) as [t|] eqn:E; [|contradiction].
    exists t. split; [eapply findMatchingThread_In; eauto|].
    destruct He as [<-|[<-|[]]]; [left; eauto | right; reflexivity].
Qed.

(** ** The ways a run can end *)

Lemma credentials_dec (env : Env) :
  credentialsPresent env
  \/ (negb (Js.truthy (GITHUB_TOKEN env))
      || (negb (Js.truthy (BEDROCK_AWS_ACCESS_KEY_ID env))
          || negb (Js.truthy (BEDROCK_AWS_SECRET_ACCESS_KEY env))) = true
      /\ ~ credentialsPresent env).
Proof.
  unfold credentialsPresent.
  destruct (Js.truthy (GITHUB_TOKEN env)), (Js.truthy (BEDROCK_AWS_ACCESS_KEY_ID env)),
    (Js.truthy (BEDROCK_AWS_SECRET_ACCESS_KEY env)); simpl; auto;
    right; (split; [reflexivity|]); intros (H1 & H2 & H3); discriminate.
Qed.

Lemma main_no_credentials (JSON_parse : string -> option AnalysisData) (env : Env)
    (fetched : result Context) :
  negb (Js.truthy (GITHUB_TOKEN env))
  || (negb (Js.truthy (BEDROCK_AWS_ACCESS_KEY_ID env))
      || negb (Js.truthy (BEDROCK_AWS_SECRET_ACCESS_KEY env))) = true ->
  main JSON_parse env fetched = {| effects := []; exitCode := 1 |}.
Proof.
  intros H. unfold main.
  destruct (negb (Js.truthy (GITHUB_TOKEN env))); [reflexivity|].
  simpl in H. rewrite H. reflexivity.
Qed.

Lemma main_fetch_error (JSON_parse : string -> option AnalysisData) (env : Env)
    (msg : string) :
  credentialsPresent env ->
  main JSON_parse env (Throw msg) = {| effects := [noticeComment msg]; exitCode := 1 |}.
Proof.
  intros (H1 & H2 & H3). unfold main. rewrite H1, H2, H3. reflexivity.
Qed.

Lemma main_of_throw (JSON_parse : string -> option AnalysisData) (env : Env)
    (ctx : Context) (es : list Effect) (msg : string) :
  credentialsPresent env ->
  check JSON_parse env ctx = (es, Throw msg) ->
  main JSON_parse env (Ok ctx) = {| effects := es ++ [noticeComment msg]; exitCode := 1 |}.
Proof.
  intros (H1 & H2 & H3) Hc. unfold main. rewrite H1, H2, H3.
  cbn [negb orb lift andThen]. rewrite Hc. reflexivity.
Qed.

Lemma check_unparseable (JSON_parse : string -> option AnalysisData) (env : Env)
    (ctx : Context) :
  parseAnalysisJSON JSON_parse (rawAnalysis ctx) = None ->
  check JSON_parse env ctx
  = ([], Throw "Analysis did not return a parseable JSON response").
Proof. intros H. unfold check. rewrite H. reflexivity. Qed.

Lemma conclude_code (env : Env) (ctx : Context) (data : AnalysisData) :
  snd (conclude env ctx data)
  = Ok (if ((0 <? totalIssues (countIssues data))%nat || shouldBlock (countIssues data))
           && negb (String.eqb (FAILURE_MODE env) "label")
        then 1 else 0).
Proof.
  unfold conclude.
  destruct ((0 <? totalIssues (countIssues data))%nat || shouldBlock (countIssues data));
    [destruct (String.eqb (FAILURE_MODE env) "label")|]; reflexivity.
Qed.

Lemma notesOf_no_update (data : AnalysisData) (ctx : Context) :
  Forall (fun e => isThreadUpdate e = false) (notesOf data ctx).
Proof.
  unfold notesOf, postGeneralNotes.
  destruct (hasItems (general_notes data)); simpl; repeat constructor.
Qed.

Lemma conclude_no_update (env : Env) (ctx : Context) (data : AnalysisData) :
  Forall (fun e => isThreadUpdate e = false) (fst (conclude env ctx data)).
Proof.
  unfold conclude.
  destruct ((0 <? totalIssues (countIssues data))%nat || shouldBlock (countIssues data));
    [destruct (String.eqb (FAILURE_MODE env) "label")|]; simpl; repeat constructor.
Qed.

(** X15. Whatever the model answers, every reply and every resolution issued by
    a run is addressed to a thread of the snapshot of open threads the run
    started from; a run without such a snapshot issues none. *)
Theorem run_only_updates_open_threads
    (JSON_parse : string -> option AnalysisData) (env : Env)
    (fetched : result Context) (e : Effect) :
  In e (effects (main JSON_parse env fetched)) ->
  isThreadUpdate e = true ->
  exists ctx t, fetched = Ok ctx /\ In t (reviewThreads ctx) /\ targets e t.
Proof.
  intros Hin Hupd.
  destruct (credentials_dec env) as [Hc|[Hno _]].
  2:{ rewrite (main_no_credentials _ _ _ Hno) in Hin. contradiction. }
  destruct fetched as [ctx|msg].
  2:{ rewrite (main_fetch_error _ _ _ Hc) in Hin. simpl in Hin.
      destruct Hin as [<-|[]]. discriminate. }
  destruct (parseAnalysisJSON JSON_parse (rawAnalysis ctx)) as [data|] eqn:Hp.
  2:{ rewrite (main_of_throw _ _ _ _ _ Hc (check_unparseable _ env _ Hp)) in Hin.
      simpl in Hin. destruct Hin as [<-|[]]. discriminate. }
  destruct (main_run JSON_parse env ctx data Hc Hp) as (vl & code & _ & _ & _ & Hm).
  rewrite Hm in Hin. simpl in Hin. destruct Hin as [<-|Hin]; [discriminate|].
  rewrite !in_app_iff in Hin. destruct Hin as [Hin|[Hin|Hin]].
  - destruct (isReReviewOf ctx); [|contradiction].
    destruct (threadUpdates_targets _ _ _ Hin) as (t & Ht & Htar). eauto.
  - pose proof (notesOf_no_update data ctx) as Hn.
    rewrite List.Forall_forall in Hn. rewrite (Hn e Hin) in Hupd. discriminate.
  - pose proof (conclude_no_update env ctx data) as Hn.
    rewrite List.Forall_forall in Hn. rewrite (Hn e Hin) in Hupd. discriminate.
Qed.

(** X16. A run ends with exit code 0 or 1. It ends with 0 exactly when the
    credentials are there, the context was fetched, the answer parses, the
    review and the comment of the general notes are posted, and either
    there is a finding or a blocking status and the failure mode is
    [label], or there is neither and the success comment is posted. *)
Theorem exit_code_zero_iff
    (JSON_parse : string -> option AnalysisData) (env : Env)
    (fetched : result Context) (w : World) :
  (exitCode (mainW JSON_parse env fetched w) = 0
   \/ exitCode (mainW JSON_parse env fetched w) = 1)
  /\ (exitCode (mainW JSON_parse env fetched w) = 0 <->
      credentialsPresent env
      /\ exists ctx data,
           fetched = Ok ctx
           /\ parseAnalysisJSON JSON_parse (rawAnalysis ctx) = Some data
           /\ decisionReached w data ctx
           /\ (((allFindings data <> [] \/ status data = Some "BLOCK_MERGE")
                /\ FAILURE_MODE env = "label")
               \/ (allFindings data = [] /\ status data <> Some "BLOCK_MERGE"
                   /\ w (length (callsBeforeDecision data ctx)) = None))).
Proof.
  destruct (credentials_dec env) as [Hc|[Hno Hnc]].
  2:{ rewrite (mainW_no_credentials _ _ _ _ Hno). simpl. split; [auto|].
      split; [discriminate | intros [H _]; contradiction]. }
  destruct fetched as [ctx|msg].
  2:{ rewrite (mainW_fetch_error _ _ _ _ Hc). simpl. split; [auto|].
      split; [discriminate | intros (_ & ctx & data & H & _); discriminate]. }
  destruct (parseAnalysisJSON JSON_parse (rawAnalysis ctx)) as [data|] eqn:Hp.
  2:{ rewrite (mainW_of_throw _ _ _ _ _ _ Hc (checkW_unparseable _ env _ w _ Hp)). simpl.
      split; [auto|]. split; [discriminate|].
      intros (_ & ctx' & data & [= <-] & H & _). congruence. }
  assert (Hsame : forall ctx' data',
             Ok ctx = Ok ctx' ->
             parseAnalysisJSON JSON_parse (rawAnalysis ctx') = Some data' ->
             ctx' = ctx /\ data' = data).
  { intros ctx' data' [= <-] H. split; congruence. }
  destruct (decisionReached_dec w data ctx)
    as [Hd|[[msg H0]|(H0 & HN & msg & Hn)]].
  - pose proof (checkW_decided JSON_parse env ctx data w Hp Hd) as Hrun.
    destruct ((0 <? totalIssues (countIssues data))%nat || shouldBlock (countIssues data))
      eqn:Hv.
    + pose proof (proj1 (violation_iff data) Hv) as Hviol.
      destruct (String.eqb (FAILURE_MODE env) "label") eqn:Hl.
      * rewrite (mainW_of_checkW _ _ _ _ _ _ Hc Hrun). simpl.
        apply String.eqb_eq in Hl. split; [auto|]. split; [|reflexivity].
        intros _. split; [exact Hc|]. exists ctx, data. auto 6.
      * rewrite (mainW_of_checkW _ _ _ _ _ _ Hc Hrun). simpl.
        apply String.eqb_neq in Hl. split; [auto|]. split; [discriminate|].
        intros (_ & ctx' & data' & Hctx & Hp' & _ & Hor).
        destruct (Hsame _ _ Hctx Hp') as [-> ->].
        destruct Hor as [[_ Hlab]|(He & Hs & _)]; [contradiction|].
        destruct Hviol; contradiction.
    + assert (Hnv : allFindings data = [] /\ status data <> Some "BLOCK_MERGE").
      { split.
        - destruct (allFindings data) eqn:E; [reflexivity|].
          assert (allFindings data <> [] \/ status data = Some "BLOCK_MERGE") as Hx
            by (left; rewrite E; discriminate).
          apply violation_iff in Hx. congruence.
        - intros Hs.
          assert (allFindings data <> [] \/ status data = Some "BLOCK_MERGE") as Hx
            by (right; exact Hs).
          apply violation_iff in Hx. congruence. }
      destruct (w (length (callsBeforeDecision data ctx))) as [msg|] eqn:Hw.
      * rewrite (mainW_of_throw _ _ _ _ _ _ Hc Hrun). simpl.
        split; [auto|]. split; [discriminate|].
        intros (_ & ctx' & data' & Hctx & Hp' & _ & Hor).
        destruct (Hsame _ _ Hctx Hp') as [-> ->].
        destruct Hor as [[[Hx|Hx] _]|(_ & _ & Hw')];
          [destruct Hnv; contradiction | destruct Hnv; contradiction | congruence].
      * rewrite (mainW_of_checkW _ _ _ _ _ _ Hc Hrun). simpl.
        split; [auto|]. split; [|reflexivity].
        intros _. split; [exact Hc|]. exists ctx, data.
        destruct Hnv. auto 8.
  - rewrite (mainW_of_throw _ _ _ _ _ _ Hc
               (checkW_review_fails JSON_parse env ctx data w msg Hp H0)). simpl.
    split; [auto|]. split; [discriminate|].
    intros (_ & ctx' & data' & Hctx & Hp' & [Hd _] & _).
    destruct (Hsame _ _ Hctx Hp') as [-> ->]. congruence.
  - rewrite (mainW_of_throw _ _ _ _ _ _ Hc
               (checkW_notes_fail JSON_parse env ctx data w msg Hp H0 HN Hn)). simpl.
    split; [auto|]. split; [discriminate|].
    intros (_ & ctx' & data' & Hctx & Hp' & [_ Hd] & _).
    destruct (Hsame _ _ Hctx Hp') as [-> ->]. specialize (Hd HN). congruence.
Qed.

(** X17. Errors before the review. Without the token or one of the keys the
    run issues no call at all; when fetching the context throws, its only
    call is the fallback notice that carries the error message. Both end
    with exit code 1. *)
Theorem errors_before_the_review
    (JSON_parse : string -> option AnalysisData) (env : Env) :
  (~ credentialsPresent env ->
   forall fetched, main JSON_parse env fetched = {| effects := []; exitCode := 1 |})
  /\ (credentialsPresent env ->
      forall msg, main JSON_parse env (Throw msg)
                  = {| effects := [noticeComment msg]; exitCode := 1 |}).
Proof.
  split.
  - intros Hnc fetched. destruct (credentials_dec env) as [Hc|[Hno _]]; [contradiction|].
    now apply main_no_credentials.
  - intros Hc msg. now apply main_fetch_error.
Qed.

Lemma run_only_updates_open_threads_witness :
  In (ReplyToReviewComment 102
        "🔴 **Still open.** The query is still built by concatenation.")
     (effects (main (Sample.reads Sample2.dataBump) Sample.envFail (Ok Sample2.ctxBump)))
  /\ isThreadUpdate
       (ReplyToReviewComment 102
          "🔴 **Still open.** The query is still built by concatenation.") = true
  /\ exists ctx t,
       Ok Sample2.ctxBump = Ok ctx /\ In t (reviewThreads ctx)
       /\ targets (ReplyToReviewComment 102
                     "🔴 **Still open.** The query is still built by concatenation.") t.
Proof.
  assert (H1 : In (ReplyToReviewComment 102
                     "🔴 **Still open.** The query is still built by concatenation.")
                  (effects (main (Sample.reads Sample2.dataBump) Sample.envFail
                              (Ok Sample2.ctxBump))))
    by (vm_compute; right; left; reflexivity).
  assert (H2 : isThreadUpdate
                 (ReplyToReviewComment 102
                    "🔴 **Still open.** The query is still built by concatenation.") = true)
    by reflexivity.
  split; [exact H1|]. split; [exact H2|].
  exact (run_only_updates_open_threads (Sample.reads Sample2.dataBump) Sample.envFail
           (Ok Sample2.ctxBump) _ H1 H2).
Defined.

Lemma exit_code_zero_iff_witness :
  (credentialsPresent Sample.envLabel
   /\ exists ctx data,
        Ok Sample.ctxOther = Ok ctx
        /\ parseAnalysisJSON (Sample.reads Sample.dataOther) (rawAnalysis ctx) = Some data
        /\ decisionReached allCallsSucceed data ctx
        /\ (((allFindings data <> [] \/ status data = Some "BLOCK_MERGE")
             /\ FAILURE_MODE Sample.envLabel = "label")
            \/ (allFindings data = [] /\ status data <> Some "BLOCK_MERGE"
                /\ allCallsSucceed (length (callsBeforeDecision data ctx)) = None)))
  /\ exitCode (mainW (Sample.reads Sample.dataOther) Sample.envLabel (Ok Sample.ctxOther)
                 allCallsSucceed) = 0.
Proof.
  assert (H : credentialsPresent Sample.envLabel
              /\ exists ctx data,
                   Ok Sample.ctxOther = Ok ctx
                   /\ parseAnalysisJSON (Sample.reads Sample.dataOther) (rawAnalysis ctx)
                      = Some data
                   /\ decisionReached allCallsSucceed data ctx
                   /\ (((allFindings data <> [] \/ status data = Some "BLOCK_MERGE")
                        /\ FAILURE_MODE Sample.envLabel = "label")
                       \/ (allFindings data = [] /\ status data <> Some "BLOCK_MERGE"
                           /\ allCallsSucceed (length (callsBeforeDecision data ctx))
                              = None))).
  { split; [repeat split|]. exists Sample.ctxOther, Sample.dataOther.
    split; [reflexivity|]. split; [vm_compute; reflexivity|].
    split; [split; [reflexivity | intros _; reflexivity]|].
    left. split; [left; discriminate | reflexivity]. }
  split; [exact H|].
  exact (proj2 (proj2 (exit_code_zero_iff (Sample.reads Sample.dataOther) Sample.envLabel
                         (Ok Sample.ctxOther) allCallsSucceed)) H).
Defined.

Lemma errors_before_the_review_witness :
  credentialsPresent Sample.envFail
  /\ main (Sample.reads Sample.dataOther) Sample.envFail (Throw "gh: Not Found (HTTP 404)")
     = {| effects := [noticeComment "gh: Not Found (HTTP 404)"]; exitCode := 1 |}.
Proof.
  assert (H : credentialsPresent Sample.envFail) by (repeat split).
  split; [exact H|].
  exact (proj2 (errors_before_the_review (Sample.reads Sample.dataOther) Sample.envFail)
           H "gh: Not Found (HTTP 404)").
Defined.

(** X22. When the review call fails, the run attempts one more call only, the
    fallback notice that carries the error's message: no thread is replied
    to or resolved, no comment of notes or success is posted, no label is
    touched, and the exit code is 1. *)
Theorem failed_review_stops_the_run
    (JSON_parse : string -> option AnalysisData) (env : Env) (ctx : Context)
    (data : AnalysisData) (w : World) (msg : string) :
  credentialsPresent env ->
  parseAnalysisJSON JSON_parse (rawAnalysis ctx) = Some data ->
  w 0%nat = Some msg ->
  exists review,
    head (callsBeforeDecision data ctx) = Some review
    /\ isSummary review = true
    /\ mainW JSON_parse env (Ok ctx) w
       = {| effects := [review; noticeComment msg]; exitCode := 1 |}.
Proof.
  intros Hc Hp H0.
  rewrite (mainW_of_throw _ _ _ _ _ _ Hc
             (checkW_review_fails JSON_parse env ctx data w msg Hp H0)).
  destruct (parseDiffForValidLines_total (diff ctx)) as [vl Hvl].
  rewrite (callsBeforeDecision_eq _ _ vl Hvl).
  eexists. split; [reflexivity|]. split; reflexivity.
Qed.

Lemma failed_review_stops_the_run_witness :
  credentialsPresent Sample.envLabel
  /\ parseAnalysisJSON (Sample.reads Sample2.dataBump) (rawAnalysis Sample2.ctxBump)
     = Some Sample2.dataBump
  /\ failsAt 0 "gh: Validation Failed (HTTP 422)" 0%nat
     = Some "gh: Validation Failed (HTTP 422)"
  /\ exists review,
       head (callsBeforeDecision Sample2.dataBump Sample2.ctxBump) = Some review
       /\ isSummary review = true
       /\ mainW (Sample.reads Sample2.dataBump) Sample.envLabel (Ok Sample2.ctxBump)
            (failsAt 0 "gh: Validation Failed (HTTP 422)")
          = {| effects := [review; noticeComment "gh: Validation Failed (HTTP 422)"];
               exitCode := 1 |}.
Proof.
  assert (Hc : credentialsPresent Sample.envLabel) by (repeat split).
  assert (Hp : parseAnalysisJSON (Sample.reads Sample2.dataBump)
                 (rawAnalysis Sample2.ctxBump) = Some Sample2.dataBump)
    by (vm_compute; reflexivity).
  assert (H0 : failsAt 0 "gh: Validation Failed (HTTP 422)" 0%nat
               = Some "gh: Validation Failed (HTTP 422)") by reflexivity.
  split; [exact Hc|]. split; [exact Hp|]. split; [exact H0|].
  exact (failed_review_stops_the_run (Sample.reads Sample2.dataBump) Sample.envLabel
           Sample2.ctxBump Sample2.dataBump _ _ Hc Hp H0).
Defined.

Lemma checkW_agree (JSON_parse : string -> option AnalysisData) (env : Env)
    (ctx : Context) (data : AnalysisData) (w w' : World) :
  parseAnalysisJSON JSON_parse (rawAnalysis ctx) = Some data ->
  w 0%nat = w' 0%nat ->
  (hasItems (general_notes data) = true ->
   w (S (length (updatesOf data ctx))) = w' (S (length (updatesOf data ctx)))) ->
  (allFindings data = [] -> status data <> Some "BLOCK_MERGE" ->
   w (length (callsBeforeDecision data ctx))
   = w' (length (callsBeforeDecision data ctx))) ->
  checkW JSON_parse env ctx w 0%nat = checkW JSON_parse env ctx w' 0%nat.
Proof.
  intros Hp H0 Hn Hs.
  destruct (decisionReached_dec w data ctx)
    as [Hd|[[msg Hw]|(Hw & HN & msg & Hwn)]].
  - assert (Hd' : decisionReached w' data ctx).
    { destruct Hd as [Hd0 Hdn]. split; [congruence|].
      intros HN. rewrite <- (Hn HN). exact (Hdn HN). }
    rewrite (checkW_decided JSON_parse env ctx data w Hp Hd),
      (checkW_decided JSON_parse env ctx data w' Hp Hd').
    destruct ((0 <? totalIssues (countIssues data))%nat || shouldBlock (countIssues data))
      eqn:Hv; [reflexivity|].
    rewrite Hs; [reflexivity| |].
    + destruct (allFindings data) eqn:E; [reflexivity|].
      assert (allFindings data <> [] \/ status data = Some "BLOCK_MERGE") as Hx
        by (left; rewrite E; discriminate).
      apply violation_iff in Hx. congruence.
    + intros Hst.
      assert (allFindings data <> [] \/ status data = Some "BLOCK_MERGE") as Hx
        by (right; exact Hst).
      apply violation_iff in Hx. congruence.
  - rewrite (checkW_review_fails JSON_parse env ctx data w msg Hp Hw).
    rewrite H0 in Hw.
    rewrite (checkW_review_fails JSON_parse env ctx data w' msg Hp Hw). reflexivity.
  - rewrite (checkW_notes_fail JSON_parse env ctx data w msg Hp Hw HN Hwn).
    rewrite H0 in Hw. rewrite (Hn HN) in Hwn.
    rewrite (checkW_notes_fail JSON_parse env ctx data w' msg Hp Hw HN Hwn). reflexivity.
Qed.

(** X23. The errors of replies, resolutions and label calls are caught where
    they occur: two worlds that agree on the review call, on the comment of
    the general notes when there is one, and on the success comment when
    the run passes, give the same calls and the same exit code. *)
Theorem caught_errors_change_nothing
    (JSON_parse : string -> option AnalysisData) (env : Env) (ctx : Context)
    (data : AnalysisData) (w w' : World) :
  parseAnalysisJSON JSON_parse (rawAnalysis ctx) = Some data ->
  w 0%nat = w' 0%nat ->
  (hasItems (general_notes data) = true ->
   w (S (length (updatesOf data ctx))) = w' (S (length (updatesOf data ctx)))) ->
  (allFindings data = [] -> status data <> Some "BLOCK_MERGE" ->
   w (length (callsBeforeDecision data ctx))
   = w' (length (callsBeforeDecision data ctx))) ->
  mainW JSON_parse env (Ok ctx) w = mainW JSON_parse env (Ok ctx) w'.
Proof.
  intros Hp H0 Hn Hs.
  pose proof (checkW_agree JSON_parse env ctx data w w' Hp H0 Hn Hs) as Heq.
  destruct (credentials_dec env) as [Hc|[Hno _]].
  2:{ now rewrite !(mainW_no_credentials _ _ _ _ Hno). }
  destruct (checkW JSON_parse env ctx w 0%nat) as [es [code|msg]] eqn:Hw.
  - symmetry in Heq.
    now rewrite (mainW_of_checkW _ _ _ _ _ _ Hc Hw), (mainW_of_checkW _ _ _ _ _ _ Hc Heq).
  - symmetry in Heq.
    now rewrite (mainW_of_throw _ _ _ _ _ _ Hc Hw), (mainW_of_throw _ _ _ _ _ _ Hc Heq).
Qed.

Lemma caught_errors_change_nothing_witness :
  parseAnalysisJSON (Sample.reads Sample3.dataClean) (rawAnalysis Sample3.ctxClean)
  = Some Sample3.dataClean
  /\ failsAt 1 "gh: Could not resolve to a node" 0%nat = allCallsSucceed 0%nat
  /\ (hasItems (general_notes Sample3.dataClean) = true ->
      failsAt 1 "gh: Could not resolve to a node"
        (S (length (updatesOf Sample3.dataClean Sample3.ctxClean)))
      = allCallsSucceed (S (length (updatesOf Sample3.dataClean Sample3.ctxClean))))
  /\ (allFindings Sample3.dataClean = [] ->
      status Sample3.dataClean <> Some "BLOCK_MERGE" ->
      failsAt 1 "gh: Could not resolve to a node"
        (length (callsBeforeDecision Sample3.dataClean Sample3.ctxClean))
      = allCallsSucceed (length (callsBeforeDecision Sample3.dataClean Sample3.ctxClean)))
  /\ mainW (Sample.reads Sample3.dataClean) Sample.envFail (Ok Sample3.ctxClean)
       (failsAt 1 "gh: Could not resolve to a node")
     = mainW (Sample.reads Sample3.dataClean) Sample.envFail (Ok Sample3.ctxClean)
         allCallsSucceed.
Proof.
  assert (Hp : parseAnalysisJSON (Sample.reads Sample3.dataClean)
                 (rawAnalysis Sample3.ctxClean) = Some Sample3.dataClean)
    by (vm_compute; reflexivity).
  assert (H0 : failsAt 1 "gh: Could not resolve to a node" 0%nat = allCallsSucceed 0%nat)
    by reflexivity.
  assert (Hn : hasItems (general_notes Sample3.dataClean) = true ->
               failsAt 1 "gh: Could not resolve to a node"
                 (S (length (updatesOf Sample3.dataClean Sample3.ctxClean)))
               = allCallsSucceed (S (length (updatesOf Sample3.dataClean Sample3.ctxClean))))
    by (intros _; vm_compute; reflexivity).
  assert (Hs : allFindings Sample3.dataClean = [] ->
               status Sample3.dataClean <> Some "BLOCK_MERGE" ->
               failsAt 1 "gh: Could not resolve to a node"
                 (length (callsBeforeDecision Sample3.dataClean Sample3.ctxClean))
               = allCallsSucceed
                   (length (callsBeforeDecision Sample3.dataClean Sample3.ctxClean)))
    by (intros _ _; vm_compute; reflexivity).
  split; [exact Hp|]. split; [exact H0|]. split; [exact Hn|]. split; [exact Hs|].
  exact (caught_errors_change_nothing (Sample.reads Sample3.dataClean) Sample.envFail
           Sample3.ctxClean Sample3.dataClean _ _ Hp H0 Hn Hs).
Defined.

(** A passing re-review: the review, the resolution of the fixed thread,
    the general notes, the success comment, the label removed. *)
Example passing_run :
  exists body notes,
    mainW (Sample.reads Sample3.dataClean) Sample.envFail (Ok Sample3.ctxClean)
      allCallsSucceed
    = {| effects := [PostReview body "COMMENT" []; ResolveReviewThread "PRRT_a";
                     PostComment notes; successComment Sample.envFail Sample3.ctxClean;
                     RemoveLabel];
         exitCode := 0 |}.
Proof. do 2 eexists. vm_compute. reflexivity. Qed.

(** The same run when the success comment cannot be posted: the label is
    left alone, the fallback notice is attempted, the exit code is 1. *)
Example passing_run_success_comment_fails :
  exists body notes,
    mainW (Sample.reads Sample3.dataClean) Sample.envFail (Ok Sample3.ctxClean)
      (failsAt 3 "gh: Bad Gateway (HTTP 502)")
    = {| effects := [PostReview body "COMMENT" []; ResolveReviewThread "PRRT_a";
                     PostComment notes; successComment Sample.envFail Sample3.ctxClean;
                     noticeComment "gh: Bad Gateway (HTTP 502)"];
         exitCode := 1 |}.
Proof. do 2 eexists. vm_compute. reflexivity. Qed.

(** ** Counting and placing *)

Lemma filter_three_lengths {A : Type} (p q : A -> bool) (l : list A) :
  (forall x, p x = true -> q x = false) ->
  (length (List.filter p l) + length (List.filter q l)
   + length (List.filter (fun x => negb (p x) && negb (q x)) l) = length l)%nat.
Proof.
  intros Hdisj. induction l as [|x l IH]; simpl; [reflexivity|].
  destruct (p x) eqn:Ep; [rewrite (Hdisj x Ep)|destruct (q x)]; simpl; lia.
Qed.

(** X18. The total of [countIssues] is the must-fix count plus the other count
    plus the number of findings whose priority is neither: the two counts
    add up to the total exactly when every priority is in the schema. *)
Theorem counts_add_up (data : AnalysisData) :
  (totalIssues (countIssues data)
   = highPriorityCount (countIssues data) + mediumPriorityCount (countIssues data)
     + length (List.filter offSchema (allFindings data)))%nat
  /\ totalIssues (countIssues data)
     = (length (orNil (findings data)) + length (orNil (persisting data))
        + length (orNil (new_findings data)))%nat.
Proof.
  split.
  - simpl. symmetry. apply filter_three_lengths.
    unfold hasPriority. intros x Hx. apply String.eqb_eq in Hx. now rewrite Hx.
  - simpl. unfold allFindings. rewrite !length_app. lia.
Qed.

(** X19. What a review posts depends on the members of its own schema only: a
    first review ignores [persisting], [new_findings], [resolved] and
    [accepted_explanations], a re-review ignores [findings]. The ignored
    findings are counted as issues all the same. *)
Theorem review_reads_its_schema_only
    (data : AnalysisData) (diff modelId : string) (threads : list Thread.t) :
  postReview data diff modelId false threads
  = postReview (firstReviewPart data) diff modelId false threads
  /\ postReview data diff modelId true threads
     = postReview (reReviewPart data) diff modelId true threads
  /\ (totalIssues (countIssues data)
      = totalIssues (countIssues (firstReviewPart data))
        + totalIssues (countIssues (reReviewPart data)))%nat.
Proof.
  split; [reflexivity|]. split; [reflexivity|].
  simpl. unfold allFindings. simpl. rewrite !length_app. simpl. lia.
Qed.

(** X20. Every finding offered for an inline comment is placed exactly once: as
    an inline comment when its line is an anchor, in the list for the
    review body when it is not. *)
Theorem every_offered_finding_is_placed
    (vl : gmap string (gset Z)) (fs : list Finding.t) :
  (length (fst (placeFindings vl fs [] [])) + length (snd (placeFindings vl fs [] []))
   = length fs)%nat
  /\ (forall c, In c (fst (placeFindings vl fs [] [])) <->
        exists f, In f fs
                  /\ isValidAnchor vl (Finding.path f) (Finding.line f) = true
                  /\ c = inlineCommentOf f)
  /\ (forall f, In f (snd (placeFindings vl fs [] [])) <->
        In f fs /\ isValidAnchor vl (Finding.path f) (Finding.line f) = false).
Proof.
  rewrite placeFindings_split. simpl. unfold inlineOf, unplaceableOf.
  split; [|split].
  - rewrite length_map. induction fs as [|f fs IH]; simpl; [reflexivity|].
    destruct (placeable vl f); simpl; lia.
  - intros c. rewrite in_map_iff. split.
    + intros (f & <- & Hf). apply filter_In in Hf as [Hin Hp]. eauto.
    + intros (f & Hin & Hp & ->). exists f. split; [reflexivity|].
      apply filter_In. auto.
  - intros f. rewrite filter_In. unfold placeable.
    now rewrite negb_true_iff.
Qed.

(** ** Findings in the review body *)

Lemma groupSection_lists (data : AnalysisData) (label icon p : string) (f : Finding.t) :
  In f (orNil (findings data)) -> Finding.priority f = p ->
  occursIn (groupLine f) (groupSection data label icon p).
Proof.
  intros Hin Hp. unfold groupSection.
  assert (Hf : In f (List.filter (hasPriority p) (orNil (findings data)))).
  { apply filter_In. split; [exact Hin|]. unfold hasPriority. rewrite Hp.
    apply String.eqb_refl. }
  destruct (List.filter (hasPriority p) (orNil (findings data))) as [|g gs] eqn:E;
    [contradiction|].
  do 6 apply occursIn_app_r. apply occursIn_app_l. now apply concatMap_occurs.
Qed.

(** X21. The body of a re-review lists every new finding; the body of a first
    review lists every finding whose priority is [must_fix] or [other]. *)
Theorem review_body_lists_findings
    (data : AnalysisData) (modelId : string) (unplaceable : list Finding.t)
    (f : Finding.t) :
  (In f (orNil (new_findings data)) ->
   occursIn (newIssueLine f) (buildReviewBody data true modelId unplaceable))
  /\ (In f (orNil (findings data)) ->
      Finding.priority f = "must_fix" \/ Finding.priority f = "other" ->
      occursIn (groupLine f) (buildReviewBody data false modelId unplaceable)).
Proof.
  split.
  - intros Hin. unfold buildReviewBody.
    do 2 apply occursIn_app_r. apply occursIn_app_l.
    unfold reReviewSections. apply occursIn_app_r, occursIn_app_l.
    unfold hasItems. destruct (new_findings data) as [[|g gs]|]; try contradiction.
    do 3 apply occursIn_app_r. apply occursIn_app_l. now apply concatMap_occurs.
  - intros Hin Hp. unfold buildReviewBody.
    do 2 apply occursIn_app_r. apply occursIn_app_l.
    unfold firstReviewSections. destruct Hp as [Hp|Hp].
    + apply occursIn_app_l. now apply groupSection_lists.
    + apply occursIn_app_r. now apply groupSection_lists.
Qed.

Lemma review_body_lists_findings_witness :
  In Sample.fOther (orNil (findings Sample.dataOther))
  /\ (Finding.priority Sample.fOther = "must_fix"
      \/ Finding.priority Sample.fOther = "other")
  /\ occursIn (groupLine Sample.fOther)
       (buildReviewBody Sample.dataOther false "opus" []).
Proof.
  assert (H1 : In Sample.fOther (orNil (findings Sample.dataOther)))
    by (left; reflexivity).
  assert (H2 : Finding.priority Sample.fOther = "must_fix"
               \/ Finding.priority Sample.fOther = "other") by (right; reflexivity).
  split; [exact H1|]. split; [exact H2|].
  exact (proj2 (review_body_lists_findings Sample.dataOther "opus" [] Sample.fOther)
           H1 H2).
Defined.
